(** * Indoor-Drone-Ground-Station: the autonomous exploration engine

    A shallow embedding of [server/occupancy-grid.js] (class [OccupancyGrid])
    and of the exploration engine (class [ExplorationEngine]), and the
    properties of the written specification checked against them.

    Numbers.  JavaScript numbers are modelled exactly: integers (grid
    coordinates, array indices, millisecond clock readings) as [Z], other
    quantities (metres, weights) as rationals [Q].  Rounding of IEEE doubles,
    NaN and the infinities are outside the model.  A comparison of a square
    root against a bound is decided exactly on the squares; where the value of
    a square root enters a score, the host's [Math.sqrt] is a parameter.

    State and time.  The engine is a record of its fields and every method
    is a function from state to state; what a method emits or publishes is
    appended to the [outbox] field.  A handler takes the reading of
    [Date.now()] as an argument.  The event loop is a transition system over
    bus events, control calls and timer callbacks; [startExploration] is
    split at its [await]. *)

From Stdlib Require Import ZArith QArith Qround Qabs Qminmax Lia Lqa String.
From Stdlib Require Import DecimalString.
From stdpp Require Import base list gmap strings.

Local Open Scope Z_scope.

(** ** JavaScript helpers *)

(** [a[i]] on an [Int8Array]; every read in the source is guarded by
    [isInMap], which keeps [i] inside the array. *)
Definition aget (a : list Z) (i : Z) : Z := default 0 (a !! Z.to_nat i).

(** The conversion applied by an [Int8Array] store. *)
Definition to_int8 (v : Z) : Z := (v + 128) mod 256 - 128.

(** [a[i] = v] on an [Int8Array]: a store outside the array is ignored. *)
Definition aset (a : list Z) (i : Z) (v : Z) : list Z :=
  if i <? 0 then a else <[Z.to_nat i := to_int8 v]> a.

(** [Math.sqrt(n) <= r] for an integer [n >= 0] and an integer [r]. *)
Definition sqrt_le (n r : Z) : bool := (0 <=? r) && (n <=? r * r).

(** ** server/occupancy-grid.js *)

Module Grid.

Record Stats := mkStats { unknown : Z; free : Z; occupied : Z }.

Record OccupancyGrid := mkGrid {
  width : Z;
  height : Z;
  resolution : Q;
  origin_x : Q;
  origin_y : Q;
  data : list Z;
  inflatedData : list Z;
  robotRadius : Q;
  inflationRadius : Z;
  stats : Stats
}.

Definition with_data (g : OccupancyGrid) (d : list Z) (st : Stats) : OccupancyGrid :=
  mkGrid (width g) (height g) (resolution g) (origin_x g) (origin_y g)
         d (inflatedData g) (robotRadius g) (inflationRadius g) st.

Definition with_inflated (g : OccupancyGrid) (d : list Z) : OccupancyGrid :=
  mkGrid (width g) (height g) (resolution g) (origin_x g) (origin_y g)
         (data g) d (robotRadius g) (inflationRadius g) (stats g).

(** [constructor(width, height, resolution)] *)
Definition new (w h : Z) (r : Q) : OccupancyGrid :=
  let rr := (2 # 10)%Q in
  mkGrid w h r
         (- inject_Z w * r / 2)%Q (- inject_Z h * r / 2)%Q
         (replicate (Z.to_nat (w * h)) 0)
         (replicate (Z.to_nat (w * h)) 0)
         rr (Qceiling (rr / r))
         (mkStats (w * h) 0 0).

Definition worldToGrid (g : OccupancyGrid) (x y : Q) : Z * Z :=
  (Qfloor ((x - origin_x g) / resolution g),
   Qfloor ((y - origin_y g) / resolution g)).

Definition gridToWorld (g : OccupancyGrid) (gx gy : Z) : Q * Q :=
  (((inject_Z gx + (1 # 2)) * resolution g + origin_x g)%Q,
   ((inject_Z gy + (1 # 2)) * resolution g + origin_y g)%Q).

Definition isInMap (g : OccupancyGrid) (gx gy : Z) : bool :=
  (0 <=? gx) && (gx <? width g) && (0 <=? gy) && (gy <? height g).

Definition index (g : OccupancyGrid) (gx gy : Z) : Z := gy * width g + gx.

Definition getOccupancy (g : OccupancyGrid) (gx gy : Z) : Z :=
  if negb (isInMap g gx gy) then -1 else aget (data g) (index g gx gy).

Definition updateStats (st : Stats) (oldValue newValue : Z) : Stats :=
  let st1 :=
    if oldValue =? 0 then mkStats (unknown st - 1) (free st) (occupied st)
    else if oldValue =? 1 then mkStats (unknown st) (free st - 1) (occupied st)
    else if oldValue =? -1 then mkStats (unknown st) (free st) (occupied st - 1)
    else st in
  if newValue =? 0 then mkStats (unknown st1 + 1) (free st1) (occupied st1)
  else if newValue =? 1 then mkStats (unknown st1) (free st1 + 1) (occupied st1)
  else if newValue =? -1 then mkStats (unknown st1) (free st1) (occupied st1 + 1)
  else st1.

Definition setOccupancy (g : OccupancyGrid) (gx gy value : Z) : OccupancyGrid :=
  if negb (isInMap g gx gy) then g
  else
    let i := index g gx gy in
    let oldValue := aget (data g) i in
    if oldValue =? value then g
    else with_data g (aset (data g) i value) (updateStats (stats g) oldValue value).

(** The body of the [while (steps < maxSteps)] loop of [raytrace]; the fuel
    is the number of iterations the guard still allows. *)
Fixpoint raytrace_loop (fuel : nat) (g : OccupancyGrid)
    (x0 y0 x1 y1 dx dy sx sy err : Z) : OccupancyGrid :=
  match fuel with
  | O => g
  | S fuel' =>
      let g1 :=
        if isInMap g x0 y0 && negb (getOccupancy g x0 y0 =? -1)
        then setOccupancy g x0 y0 1 else g in
      if (x0 =? x1) && (y0 =? y1) then g1
      else
        let e2 := 2 * err in
        let '(err1, xa) := if e2 >? - dy then (err - dy, x0 + sx) else (err, x0) in
        let '(err2, ya) := if e2 <? dx then (err1 + dx, y0 + sy) else (err1, y0) in
        raytrace_loop fuel' g1 xa ya x1 y1 dx dy sx sy err2
  end.

Definition raytrace (g : OccupancyGrid) (x0 y0 x1 y1 : Z) : OccupancyGrid :=
  let dx := Z.abs (x1 - x0) in
  let dy := Z.abs (y1 - y0) in
  let sx := if x0 <? x1 then 1 else -1 in
  let sy := if y0 <? y1 then 1 else -1 in
  let maxSteps := Z.max (width g) (height g) in
  raytrace_loop (Z.to_nat maxSteps) g x0 y0 x1 y1 dx dy sx sy (dx - dy).

Definition getExploredArea (g : OccupancyGrid) : Q :=
  (inject_Z (free (stats g) + occupied (stats g)) * (resolution g * resolution g))%Q.

Definition reset (g : OccupancyGrid) : OccupancyGrid :=
  mkGrid (width g) (height g) (resolution g) (origin_x g) (origin_y g)
         (replicate (length (data g)) 0)
         (replicate (length (inflatedData g)) 0)
         (robotRadius g) (inflationRadius g)
         (mkStats (width g * height g) 0 0).

(** [for (i = 0; i < this.data.length; i++) this.inflatedData[i] = this.data[i]] *)
Definition copy_raw (src dst : list Z) : list Z :=
  foldl (fun acc i => aset acc (Z.of_nat i) (aget src (Z.of_nat i))) dst
        (seq 0 (length src)).

(** The body of the inner loop of [inflateCell], at offsets [dx], [dy]. *)
Definition inflateCell_at (radius cx cy dy : Z) (g : OccupancyGrid) (dx : Z)
    : OccupancyGrid :=
  let gx := cx + dx in
  let gy := cy + dy in
  if negb (isInMap g gx gy) then g
  else if sqrt_le (dx * dx + dy * dy) radius then
    let i := index g gx gy in
    if negb (aget (inflatedData g) i =? -1)
    then with_inflated g (aset (inflatedData g) i (-1))
    else g
  else g.

Definition inflateCell (g : OccupancyGrid) (cx cy : Z) : OccupancyGrid :=
  let radius := inflationRadius g in
  foldl (fun g1 dy =>
           foldl (inflateCell_at radius cx cy dy) g1
                 (seqZ (- radius) (2 * radius + 1)))
        g (seqZ (- radius) (2 * radius + 1)).

(** The body of the inner loop of [inflateObstacles], at cell [gx], [gy]. *)
Definition inflateObstacles_at (gy : Z) (g : OccupancyGrid) (gx : Z)
    : OccupancyGrid :=
  if aget (data g) (index g gx gy) =? -1 then inflateCell g gx gy else g.

Definition inflateObstacles (g : OccupancyGrid) : OccupancyGrid :=
  let g0 := with_inflated g (copy_raw (data g) (inflatedData g)) in
  foldl (fun g1 gy => foldl (inflateObstacles_at gy) g1 (seqZ 0 (width g)))
        g0 (seqZ 0 (height g)).

Definition getInflatedOccupancy (g : OccupancyGrid) (gx gy : Z) : Z :=
  if negb (isInMap g gx gy) then -1 else aget (inflatedData g) (index g gx gy).

(** The shape every grid built by [new] keeps: both arrays hold
    [width * height] cells ([new Int8Array] needs a length that is not
    negative) and the inflation radius is the one the constructor computed. *)
Definition wf (g : OccupancyGrid) : Prop :=
  0 <= width g * height g /\
  length (data g) = Z.to_nat (width g * height g) /\
  length (inflatedData g) = Z.to_nat (width g * height g) /\
  inflationRadius g = Qceiling (robotRadius g / resolution g).

(** Number of cells of an array holding the value [v]. *)
Fixpoint count_val (v : Z) (l : list Z) : Z :=
  match l with
  | [] => 0
  | x :: l' => (if x =? v then 1 else 0) + count_val v l'
  end.

(** The operations a client can apply to a grid. *)
Inductive GridOp :=
| OpSetOccupancy (gx gy value : Z)
| OpRaytrace (x0 y0 x1 y1 : Z)
| OpInflateObstacles
| OpReset.

Definition apply_op (g : OccupancyGrid) (op : GridOp) : OccupancyGrid :=
  match op with
  | OpSetOccupancy gx gy v => setOccupancy g gx gy v
  | OpRaytrace x0 y0 x1 y1 => raytrace g x0 y0 x1 y1
  | OpInflateObstacles => inflateObstacles g
  | OpReset => reset g
  end.

Definition run_ops (g : OccupancyGrid) (ops : list GridOp) : OccupancyGrid :=
  foldl apply_op g ops.

(** [setOccupancy] is given one of the three cell values. *)
Definition ternary_op (op : GridOp) : Prop :=
  match op with
  | OpSetOccupancy _ _ v => v = -1 \/ v = 0 \/ v = 1
  | _ => True
  end.

(** The statistics agree with the raw array. *)
Definition stats_ok (g : OccupancyGrid) : Prop :=
  wf g /\
  Forall (fun v => v = -1 \/ v = 0 \/ v = 1) (data g) /\
  unknown (stats g) = count_val 0 (data g) /\
  free (stats g) = count_val 1 (data g) /\
  occupied (stats g) = count_val (-1) (data g).

(** [g'] differs from [g] in the inflated array only, which has kept its
    length and every occupied mark it had. *)
Definition ext (g g' : OccupancyGrid) : Prop :=
  g' = with_inflated g (inflatedData g') /\
  length (inflatedData g') = length (inflatedData g) /\
  forall i, 0 <= i -> aget (inflatedData g) i = -1 -> aget (inflatedData g') i = -1.

End Grid.

(** ** The exploration engine (class [ExplorationEngine]) *)

Module Engine.

(** *** Numbers *)

Definition Qltb (a b : Q) : bool := negb (Qle_bool b a).

Definition hypot_sq (dx dy : Q) : Q := (dx * dx + dy * dy)%Q.

(** [Math.hypot(dx, dy) < c], decided on the squares. *)
Definition hypot_lt (dx dy c : Q) : bool :=
  Qltb 0 c && Qltb (hypot_sq dx dy) (c * c).

(** [Math.hypot(dx, dy) > c] *)
Definition hypot_gt (dx dy c : Q) : bool :=
  Qltb c 0 || Qltb (c * c) (hypot_sq dx dy).

(** [Math.hypot(dx, dy) <= c] *)
Definition hypot_le (dx dy c : Q) : bool := negb (hypot_gt dx dy c).

(** [Math.sqrt(n) * a > b] for an integer [n >= 0]. *)
Definition sqrt_times_gt (n : Z) (a b : Q) : bool :=
  if Qle_bool 0 a
  then Qltb b 0 || Qltb (b * b) (inject_Z n * (a * a))
  else Qltb b 0 && Qltb (inject_Z n * (a * a)) (b * b).

(** [Math.floor(Math.hypot(dx, dy) / 2.0)]: the integer [n] with
    [(2n)^2 <= dx^2 + dy^2 < (2(n+1))^2]. *)
Definition floor_half_hypot (dx dy : Q) : Z :=
  Z.sqrt (Qfloor (hypot_sq dx dy / 4)).

(** A value that JavaScript tests for truth: [null] and [0] are false. *)
Definition truthy (t : option Z) : bool :=
  match t with Some v => negb (v =? 0) | None => false end.

(** [x.toFixed(1)]: a sign and the number of tenths, rounded half up on the
    magnitude; the printed string ("-12.3") is an injective rendering of the
    pair. *)
Definition toFixed1 (x : Q) : bool * Z :=
  (Qltb x 0, Qfloor (Qabs x * 10 + (1 # 2))).

(** [`${n}`] for an integer. *)
Definition string_of_Z (n : Z) : string := NilZero.string_of_int (Z.to_int n).

(** *** Data *)

(** [{x, y, z}] *)
Record Pos := mkPos { px : Q; py : Q; pz : Q }.

(** [{x, y}] *)
Record Point2 := mkPoint2 { p2x : Q; p2y : Q }.

(** A clustered frontier [{x, y, size}]. *)
Record Frontier := mkFrontier { fx : Q; fy : Q; fsize : Z }.

(** The scorer's output [{...frontier, z, density, pathClear}]; [gz] is
    [None] when the height computed by the scorer is not a number. *)
Record Goal := mkGoal {
  gx : Q; gy : Q; gsize : Z; gz : option Q; gdensity : Q; gpathClear : bool
}.

(** A waypoint [{x, y, z}] of a mission. *)
Record Waypoint := mkWaypoint { wx : Q; wy : Q; wz : option Q }.

(** One mission task [{autoPilot: {position, yaw, cameraParam}}]. *)
Record Task := mkTask {
  position : Waypoint; yaw : Z;
  camera_on : bool; camera_mode : Z; camera_interval : Z
}.

Record Mission := mkMission { mission_id : string; tasks : list Task }.

Record SceneBounds := mkSceneBounds {
  minX : Q; maxX : Q; minY : Q; maxY : Q; minZ : Q; maxZ : Q
}.

Record Weights := mkWeights {
  infoGain : Q; distance : Q; consistency : Q; density : Q; history : Q
}.

(** The key of [goalAttempts]:
    [`${goal.x.toFixed(1)},${goal.y.toFixed(1)}`]. *)
Definition GoalKey : Type := (bool * Z) * (bool * Z).

Definition goalKey (x y : Q) : GoalKey := (toFixed1 x, toFixed1 y).

(** What the engine sends out: events for its listeners, messages for the
    bus, and timers it arms. *)
Inductive Output :=
| Emit_started (startPos : Pos)
| Emit_paused
| Emit_resumed
| Emit_stopped (reason : string)
| Emit_returned (position startPosition : Pos)
| Emit_status (isExploring isPaused : bool) (frontiersCount : nat)
              (currentGoal : option Goal)
| Sim_set_position (p : Pos)
| Sim_set_height_limits (minHeight maxHeight : Q)
| PublishMission (m : Mission)
| PublishExecution_after500 (missionId : string) (action : Z)
| ExplorationStep_after500.

(** [this.config] *)
Record Config := mkConfig {
  mapWidth : Z;
  mapHeight : Z;
  resolution : Q;
  maxDistance : Q;
  maxDuration : Q;
  clusterRadius : Q;
  minClusterSize : Z;
  explorationHeight : Q;
  updateInterval : Z;
  boundaryMin : option Pos;
  boundaryMax : option Pos;
  enableZExploration : bool;
  minHeight : Q;
  maxHeight : Q;
  roiPolygon : option (list Point2);
  useROI : bool;
  scoringWeights : Weights
}.

(** The [options] of [startExploration]: [None] is an absent key. *)
Record StartOptions := mkStartOptions {
  o_startPosition : option Pos;
  o_mapWidth : option (Z);
  o_mapHeight : option (Z);
  o_resolution : option (Q);
  o_maxDistance : option (Q);
  o_maxDuration : option (Q);
  o_clusterRadius : option (Q);
  o_minClusterSize : option (Z);
  o_explorationHeight : option (Q);
  o_updateInterval : option (Z);
  o_boundaryMin : option (option Pos);
  o_boundaryMax : option (option Pos);
  o_enableZExploration : option (bool);
  o_minHeight : option (Q);
  o_maxHeight : option (Q);
  o_roiPolygon : option (option (list Point2));
  o_useROI : option (bool);
  o_scoringWeights : option (Weights)
}.

(** [Object.assign(this.config, options)] *)
Definition assign_config (c : Config) (o : StartOptions) : Config :=
  mkConfig
    (default (mapWidth c) (o_mapWidth o))
    (default (mapHeight c) (o_mapHeight o))
    (default (resolution c) (o_resolution o))
    (default (maxDistance c) (o_maxDistance o))
    (default (maxDuration c) (o_maxDuration o))
    (default (clusterRadius c) (o_clusterRadius o))
    (default (minClusterSize c) (o_minClusterSize o))
    (default (explorationHeight c) (o_explorationHeight o))
    (default (updateInterval c) (o_updateInterval o))
    (default (boundaryMin c) (o_boundaryMin o))
    (default (boundaryMax c) (o_boundaryMax o))
    (default (enableZExploration c) (o_enableZExploration o))
    (default (minHeight c) (o_minHeight o))
    (default (maxHeight c) (o_maxHeight o))
    (default (roiPolygon c) (o_roiPolygon o))
    (default (useROI c) (o_useROI o))
    (default (scoringWeights c) (o_scoringWeights o)).

(** [this.config.scoringWeights = w] *)
Definition set_scoringWeights (w : Weights) (c : Config) : Config :=
  mkConfig
    (mapWidth c) (mapHeight c) (resolution c) (maxDistance c) (maxDuration c)
    (clusterRadius c) (minClusterSize c) (explorationHeight c)
    (updateInterval c) (boundaryMin c) (boundaryMax c) (enableZExploration c)
    (minHeight c) (maxHeight c) (roiPolygon c) (useROI c) w.

(** [this.config.roiPolygon = p; this.config.useROI = u] *)
Definition set_roi (p : option (list Point2)) (u : bool) (c : Config) : Config :=
  mkConfig
    (mapWidth c) (mapHeight c) (resolution c) (maxDistance c) (maxDuration c)
    (clusterRadius c) (minClusterSize c) (explorationHeight c)
    (updateInterval c) (boundaryMin c) (boundaryMax c) (enableZExploration c)
    (minHeight c) (maxHeight c) p u (scoringWeights c).

(** The fields of the engine.  [maxAttempts], [arrivalTimeout],
    [STUCK_THRESHOLD] and [VELOCITY_THRESHOLD] are never assigned after the
    constructor and are constants below.  Two fields are the model's own:
    [pendingStarts] counts the calls of [startExploration] suspended at their
    [await], and [outbox] lists everything sent so far, latest first. *)
Record State := mkState {
  config : Config;
  isExploring : bool;
  isPaused : bool;
  startPos : option Pos;
  currentPos : option Pos;
  startTime : option Z;
  lastUpdateTime : Z;
  map : Grid.OccupancyGrid;
  frontiers : list Frontier;
  visitedGoals : list Point2;
  goalAttempts : gmap GoalKey Z;
  unreachableGoals : list Point2;
  currentMissionId : option string;
  isWaitingForArrival : bool;
  isPreparingNextGoal : bool;
  missionStartTime : option Z;
  lastVelocityCheck : option (Q * Q * Z);
  stuckStartTime : option Z;
  isReturningHome : bool;
  returnHomeMissionId : option string;
  sceneBounds : option SceneBounds;
  lastGoalDirection : option Point2;
  lastStatusPublishTime : Z;
  currentGoal : option Goal;
  pendingStarts : nat;
  outbox : list Output
}.

(** Assignments to one field. *)

Definition set_config (v : Config) (s : State) : State :=
  mkState
    v (isExploring s) (isPaused s) (startPos s) (currentPos s) (startTime s)
    (lastUpdateTime s) (map s) (frontiers s) (visitedGoals s) (goalAttempts s)
    (unreachableGoals s) (currentMissionId s) (isWaitingForArrival s)
    (isPreparingNextGoal s) (missionStartTime s) (lastVelocityCheck s)
    (stuckStartTime s) (isReturningHome s) (returnHomeMissionId s)
    (sceneBounds s) (lastGoalDirection s) (lastStatusPublishTime s)
    (currentGoal s) (pendingStarts s) (outbox s).

Definition set_isExploring (v : bool) (s : State) : State :=
  mkState
    (config s) v (isPaused s) (startPos s) (currentPos s) (startTime s)
    (lastUpdateTime s) (map s) (frontiers s) (visitedGoals s) (goalAttempts s)
    (unreachableGoals s) (currentMissionId s) (isWaitingForArrival s)
    (isPreparingNextGoal s) (missionStartTime s) (lastVelocityCheck s)
    (stuckStartTime s) (isReturningHome s) (returnHomeMissionId s)
    (sceneBounds s) (lastGoalDirection s) (lastStatusPublishTime s)
    (currentGoal s) (pendingStarts s) (outbox s).

Definition set_isPaused (v : bool) (s : State) : State :=
  mkState
    (config s) (isExploring s) v (startPos s) (currentPos s) (startTime s)
    (lastUpdateTime s) (map s) (frontiers s) (visitedGoals s) (goalAttempts s)
    (unreachableGoals s) (currentMissionId s) (isWaitingForArrival s)
    (isPreparingNextGoal s) (missionStartTime s) (lastVelocityCheck s)
    (stuckStartTime s) (isReturningHome s) (returnHomeMissionId s)
    (sceneBounds s) (lastGoalDirection s) (lastStatusPublishTime s)
    (currentGoal s) (pendingStarts s) (outbox s).

Definition set_startPos (v : option Pos) (s : State) : State :=
  mkState
    (config s) (isExploring s) (isPaused s) v (currentPos s) (startTime s)
    (lastUpdateTime s) (map s) (frontiers s) (visitedGoals s) (goalAttempts s)
    (unreachableGoals s) (currentMissionId s) (isWaitingForArrival s)
    (isPreparingNextGoal s) (missionStartTime s) (lastVelocityCheck s)
    (stuckStartTime s) (isReturningHome s) (returnHomeMissionId s)
    (sceneBounds s) (lastGoalDirection s) (lastStatusPublishTime s)
    (currentGoal s) (pendingStarts s) (outbox s).

Definition set_currentPos (v : option Pos) (s : State) : State :=
  mkState
    (config s) (isExploring s) (isPaused s) (startPos s) v (startTime s)
    (lastUpdateTime s) (map s) (frontiers s) (visitedGoals s) (goalAttempts s)
    (unreachableGoals s) (currentMissionId s) (isWaitingForArrival s)
    (isPreparingNextGoal s) (missionStartTime s) (lastVelocityCheck s)
    (stuckStartTime s) (isReturningHome s) (returnHomeMissionId s)
    (sceneBounds s) (lastGoalDirection s) (lastStatusPublishTime s)
    (currentGoal s) (pendingStarts s) (outbox s).

Definition set_startTime (v : option Z) (s : State) : State :=
  mkState
    (config s) (isExploring s) (isPaused s) (startPos s) (currentPos s) v
    (lastUpdateTime s) (map s) (frontiers s) (visitedGoals s) (goalAttempts s)
    (unreachableGoals s) (currentMissionId s) (isWaitingForArrival s)
    (isPreparingNextGoal s) (missionStartTime s) (lastVelocityCheck s)
    (stuckStartTime s) (isReturningHome s) (returnHomeMissionId s)
    (sceneBounds s) (lastGoalDirection s) (lastStatusPublishTime s)
    (currentGoal s) (pendingStarts s) (outbox s).

Definition set_lastUpdateTime (v : Z) (s : State) : State :=
  mkState
    (config s) (isExploring s) (isPaused s) (startPos s) (currentPos s)
    (startTime s) v (map s) (frontiers s) (visitedGoals s) (goalAttempts s)
    (unreachableGoals s) (currentMissionId s) (isWaitingForArrival s)
    (isPreparingNextGoal s) (missionStartTime s) (lastVelocityCheck s)
    (stuckStartTime s) (isReturningHome s) (returnHomeMissionId s)
    (sceneBounds s) (lastGoalDirection s) (lastStatusPublishTime s)
    (currentGoal s) (pendingStarts s) (outbox s).

Definition set_map (v : Grid.OccupancyGrid) (s : State) : State :=
  mkState
    (config s) (isExploring s) (isPaused s) (startPos s) (currentPos s)
    (startTime s) (lastUpdateTime s) v (frontiers s) (visitedGoals s)
    (goalAttempts s) (unreachableGoals s) (currentMissionId s)
    (isWaitingForArrival s) (isPreparingNextGoal s) (missionStartTime s)
    (lastVelocityCheck s) (stuckStartTime s) (isReturningHome s)
    (returnHomeMissionId s) (sceneBounds s) (lastGoalDirection s)
    (lastStatusPublishTime s) (currentGoal s) (pendingStarts s) (outbox s).

Definition set_frontiers (v : list Frontier) (s : State) : State :=
  mkState
    (config s) (isExploring s) (isPaused s) (startPos s) (currentPos s)
    (startTime s) (lastUpdateTime s) (map s) v (visitedGoals s)
    (goalAttempts s) (unreachableGoals s) (currentMissionId s)
    (isWaitingForArrival s) (isPreparingNextGoal s) (missionStartTime s)
    (lastVelocityCheck s) (stuckStartTime s) (isReturningHome s)
    (returnHomeMissionId s) (sceneBounds s) (lastGoalDirection s)
    (lastStatusPublishTime s) (currentGoal s) (pendingStarts s) (outbox s).

Definition set_visitedGoals (v : list Point2) (s : State) : State :=
  mkState
    (config s) (isExploring s) (isPaused s) (startPos s) (currentPos s)
    (startTime s) (lastUpdateTime s) (map s) (frontiers s) v (goalAttempts s)
    (unreachableGoals s) (currentMissionId s) (isWaitingForArrival s)
    (isPreparingNextGoal s) (missionStartTime s) (lastVelocityCheck s)
    (stuckStartTime s) (isReturningHome s) (returnHomeMissionId s)
    (sceneBounds s) (lastGoalDirection s) (lastStatusPublishTime s)
    (currentGoal s) (pendingStarts s) (outbox s).

Definition set_goalAttempts (v : gmap GoalKey Z) (s : State) : State :=
  mkState
    (config s) (isExploring s) (isPaused s) (startPos s) (currentPos s)
    (startTime s) (lastUpdateTime s) (map s) (frontiers s) (visitedGoals s) v
    (unreachableGoals s) (currentMissionId s) (isWaitingForArrival s)
    (isPreparingNextGoal s) (missionStartTime s) (lastVelocityCheck s)
    (stuckStartTime s) (isReturningHome s) (returnHomeMissionId s)
    (sceneBounds s) (lastGoalDirection s) (lastStatusPublishTime s)
    (currentGoal s) (pendingStarts s) (outbox s).

Definition set_unreachableGoals (v : list Point2) (s : State) : State :=
  mkState
    (config s) (isExploring s) (isPaused s) (startPos s) (currentPos s)
    (startTime s) (lastUpdateTime s) (map s) (frontiers s) (visitedGoals s)
    (goalAttempts s) v (currentMissionId s) (isWaitingForArrival s)
    (isPreparingNextGoal s) (missionStartTime s) (lastVelocityCheck s)
    (stuckStartTime s) (isReturningHome s) (returnHomeMissionId s)
    (sceneBounds s) (lastGoalDirection s) (lastStatusPublishTime s)
    (currentGoal s) (pendingStarts s) (outbox s).

Definition set_currentMissionId (v : option string) (s : State) : State :=
  mkState
    (config s) (isExploring s) (isPaused s) (startPos s) (currentPos s)
    (startTime s) (lastUpdateTime s) (map s) (frontiers s) (visitedGoals s)
    (goalAttempts s) (unreachableGoals s) v (isWaitingForArrival s)
    (isPreparingNextGoal s) (missionStartTime s) (lastVelocityCheck s)
    (stuckStartTime s) (isReturningHome s) (returnHomeMissionId s)
    (sceneBounds s) (lastGoalDirection s) (lastStatusPublishTime s)
    (currentGoal s) (pendingStarts s) (outbox s).

Definition set_isWaitingForArrival (v : bool) (s : State) : State :=
  mkState
    (config s) (isExploring s) (isPaused s) (startPos s) (currentPos s)
    (startTime s) (lastUpdateTime s) (map s) (frontiers s) (visitedGoals s)
    (goalAttempts s) (unreachableGoals s) (currentMissionId s) v
    (isPreparingNextGoal s) (missionStartTime s) (lastVelocityCheck s)
    (stuckStartTime s) (isReturningHome s) (returnHomeMissionId s)
    (sceneBounds s) (lastGoalDirection s) (lastStatusPublishTime s)
    (currentGoal s) (pendingStarts s) (outbox s).

Definition set_isPreparingNextGoal (v : bool) (s : State) : State :=
  mkState
    (config s) (isExploring s) (isPaused s) (startPos s) (currentPos s)
    (startTime s) (lastUpdateTime s) (map s) (frontiers s) (visitedGoals s)
    (goalAttempts s) (unreachableGoals s) (currentMissionId s)
    (isWaitingForArrival s) v (missionStartTime s) (lastVelocityCheck s)
    (stuckStartTime s) (isReturningHome s) (returnHomeMissionId s)
    (sceneBounds s) (lastGoalDirection s) (lastStatusPublishTime s)
    (currentGoal s) (pendingStarts s) (outbox s).

Definition set_missionStartTime (v : option Z) (s : State) : State :=
  mkState
    (config s) (isExploring s) (isPaused s) (startPos s) (currentPos s)
    (startTime s) (lastUpdateTime s) (map s) (frontiers s) (visitedGoals s)
    (goalAttempts s) (unreachableGoals s) (currentMissionId s)
    (isWaitingForArrival s) (isPreparingNextGoal s) v (lastVelocityCheck s)
    (stuckStartTime s) (isReturningHome s) (returnHomeMissionId s)
    (sceneBounds s) (lastGoalDirection s) (lastStatusPublishTime s)
    (currentGoal s) (pendingStarts s) (outbox s).

Definition set_lastVelocityCheck (v : option (Q * Q * Z)) (s : State) : State :=
  mkState
    (config s) (isExploring s) (isPaused s) (startPos s) (currentPos s)
    (startTime s) (lastUpdateTime s) (map s) (frontiers s) (visitedGoals s)
    (goalAttempts s) (unreachableGoals s) (currentMissionId s)
    (isWaitingForArrival s) (isPreparingNextGoal s) (missionStartTime s) v
    (stuckStartTime s) (isReturningHome s) (returnHomeMissionId s)
    (sceneBounds s) (lastGoalDirection s) (lastStatusPublishTime s)
    (currentGoal s) (pendingStarts s) (outbox s).

Definition set_stuckStartTime (v : option Z) (s : State) : State :=
  mkState
    (config s) (isExploring s) (isPaused s) (startPos s) (currentPos s)
    (startTime s) (lastUpdateTime s) (map s) (frontiers s) (visitedGoals s)
    (goalAttempts s) (unreachableGoals s) (currentMissionId s)
    (isWaitingForArrival s) (isPreparingNextGoal s) (missionStartTime s)
    (lastVelocityCheck s) v (isReturningHome s) (returnHomeMissionId s)
    (sceneBounds s) (lastGoalDirection s) (lastStatusPublishTime s)
    (currentGoal s) (pendingStarts s) (outbox s).

Definition set_isReturningHome (v : bool) (s : State) : State :=
  mkState
    (config s) (isExploring s) (isPaused s) (startPos s) (currentPos s)
    (startTime s) (lastUpdateTime s) (map s) (frontiers s) (visitedGoals s)
    (goalAttempts s) (unreachableGoals s) (currentMissionId s)
    (isWaitingForArrival s) (isPreparingNextGoal s) (missionStartTime s)
    (lastVelocityCheck s) (stuckStartTime s) v (returnHomeMissionId s)
    (sceneBounds s) (lastGoalDirection s) (lastStatusPublishTime s)
    (currentGoal s) (pendingStarts s) (outbox s).

Definition set_returnHomeMissionId (v : option string) (s : State) : State :=
  mkState
    (config s) (isExploring s) (isPaused s) (startPos s) (currentPos s)
    (startTime s) (lastUpdateTime s) (map s) (frontiers s) (visitedGoals s)
    (goalAttempts s) (unreachableGoals s) (currentMissionId s)
    (isWaitingForArrival s) (isPreparingNextGoal s) (missionStartTime s)
    (lastVelocityCheck s) (stuckStartTime s) (isReturningHome s) v
    (sceneBounds s) (lastGoalDirection s) (lastStatusPublishTime s)
    (currentGoal s) (pendingStarts s) (outbox s).

Definition set_sceneBounds (v : option SceneBounds) (s : State) : State :=
  mkState
    (config s) (isExploring s) (isPaused s) (startPos s) (currentPos s)
    (startTime s) (lastUpdateTime s) (map s) (frontiers s) (visitedGoals s)
    (goalAttempts s) (unreachableGoals s) (currentMissionId s)
    (isWaitingForArrival s) (isPreparingNextGoal s) (missionStartTime s)
    (lastVelocityCheck s) (stuckStartTime s) (isReturningHome s)
    (returnHomeMissionId s) v (lastGoalDirection s) (lastStatusPublishTime s)
    (currentGoal s) (pendingStarts s) (outbox s).

Definition set_lastGoalDirection (v : option Point2) (s : State) : State :=
  mkState
    (config s) (isExploring s) (isPaused s) (startPos s) (currentPos s)
    (startTime s) (lastUpdateTime s) (map s) (frontiers s) (visitedGoals s)
    (goalAttempts s) (unreachableGoals s) (currentMissionId s)
    (isWaitingForArrival s) (isPreparingNextGoal s) (missionStartTime s)
    (lastVelocityCheck s) (stuckStartTime s) (isReturningHome s)
    (returnHomeMissionId s) (sceneBounds s) v (lastStatusPublishTime s)
    (currentGoal s) (pendingStarts s) (outbox s).

Definition set_lastStatusPublishTime (v : Z) (s : State) : State :=
  mkState
    (config s) (isExploring s) (isPaused s) (startPos s) (currentPos s)
    (startTime s) (lastUpdateTime s) (map s) (frontiers s) (visitedGoals s)
    (goalAttempts s) (unreachableGoals s) (currentMissionId s)
    (isWaitingForArrival s) (isPreparingNextGoal s) (missionStartTime s)
    (lastVelocityCheck s) (stuckStartTime s) (isReturningHome s)
    (returnHomeMissionId s) (sceneBounds s) (lastGoalDirection s) v
    (currentGoal s) (pendingStarts s) (outbox s).

Definition set_currentGoal (v : option Goal) (s : State) : State :=
  mkState
    (config s) (isExploring s) (isPaused s) (startPos s) (currentPos s)
    (startTime s) (lastUpdateTime s) (map s) (frontiers s) (visitedGoals s)
    (goalAttempts s) (unreachableGoals s) (currentMissionId s)
    (isWaitingForArrival s) (isPreparingNextGoal s) (missionStartTime s)
    (lastVelocityCheck s) (stuckStartTime s) (isReturningHome s)
    (returnHomeMissionId s) (sceneBounds s) (lastGoalDirection s)
    (lastStatusPublishTime s) v (pendingStarts s) (outbox s).

Definition set_pendingStarts (v : nat) (s : State) : State :=
  mkState
    (config s) (isExploring s) (isPaused s) (startPos s) (currentPos s)
    (startTime s) (lastUpdateTime s) (map s) (frontiers s) (visitedGoals s)
    (goalAttempts s) (unreachableGoals s) (currentMissionId s)
    (isWaitingForArrival s) (isPreparingNextGoal s) (missionStartTime s)
    (lastVelocityCheck s) (stuckStartTime s) (isReturningHome s)
    (returnHomeMissionId s) (sceneBounds s) (lastGoalDirection s)
    (lastStatusPublishTime s) (currentGoal s) v (outbox s).

Definition set_outbox (v : list Output) (s : State) : State :=
  mkState
    (config s) (isExploring s) (isPaused s) (startPos s) (currentPos s)
    (startTime s) (lastUpdateTime s) (map s) (frontiers s) (visitedGoals s)
    (goalAttempts s) (unreachableGoals s) (currentMissionId s)
    (isWaitingForArrival s) (isPreparingNextGoal s) (missionStartTime s)
    (lastVelocityCheck s) (stuckStartTime s) (isReturningHome s)
    (returnHomeMissionId s) (sceneBounds s) (lastGoalDirection s)
    (lastStatusPublishTime s) (currentGoal s) (pendingStarts s) v.

Definition maxAttempts : Z := 5.
Definition arrivalTimeout : Z := 8000.
Definition STUCK_THRESHOLD : Z := 3000.
Definition VELOCITY_THRESHOLD : Q := 1 # 10.

Definition defaultConfig : Config :=
  mkConfig 100 100 (2 # 10) 20 600 1 5 1 500 None None true (1 # 2) 3 None false
           (mkWeights (5 # 10) (3 # 10) (3 # 10) (2 # 10) (2 # 10)).

(** [constructor(mqttClient)] *)
Definition init : State :=
  mkState defaultConfig false false None None None 0
          (Grid.new 100 100 (2 # 10)) [] [] ∅ [] None false false None None None
          false None None None 0 None 0 [].

Definition send (o : Output) (s : State) : State := set_outbox (o :: outbox s) s.

(** *** Scene bounds *)

Definition minimum (f : Pos -> Q) (p : Pos) (rest : list Pos) : Q :=
  foldl (fun m q => if Qltb (f q) m then f q else m) (f p) rest.

Definition maximum (f : Pos -> Q) (p : Pos) (rest : list Pos) : Q :=
  foldl (fun m q => if Qltb m (f q) then f q else m) (f p) rest.

Definition calculateSceneBounds (points : list Pos) (s : State) : State :=
  match points with
  | [] => s
  | p :: rest =>
      set_sceneBounds
        (Some (mkSceneBounds
                 (minimum px p rest + (15 # 10)) (maximum px p rest - (15 # 10))
                 (minimum py p rest + (15 # 10)) (maximum py p rest - (15 # 10))
                 (Qmax (5 # 10) (minimum pz p rest + (3 # 10)))
                 (Qmin (25 # 10) (maximum pz p rest - (5 # 10)))))
        s
  end.

(** [isWithinBounds(x, y, z)]; a height that is not a number fails every
    comparison. *)
Definition isWithinBounds (s : State) (x y : Q) (z : option Q) : bool :=
  let bounds :=
    match boundaryMin (config s), boundaryMax (config s) with
    | Some mn, Some mx => Some (mn, mx)
    | _, _ =>
        match sceneBounds s with
        | Some b => Some (mkPos (minX b) (minY b) (minZ b),
                          mkPos (maxX b) (maxY b) (maxZ b))
        | None => None
        end
    end in
  match bounds with
  | None => true
  | Some (mn, mx) =>
      match z with
      | None => false
      | Some z =>
          Qle_bool (px mn) x && Qle_bool x (px mx) &&
          Qle_bool (py mn) y && Qle_bool y (py mx) &&
          Qle_bool (pz mn) z && Qle_bool z (pz mx)
      end
  end.

(** *** Region of interest *)

Definition setROI (polygon : list Point2) (s : State) : State :=
  if (length polygon <? 3)%nat then s
  else set_config (set_roi (Some polygon) true (config s)) s.

Definition clearROI (s : State) : State :=
  set_config (set_roi None false (config s)) s.

(** Ray casting; the accumulator carries vertex [j] and the parity. *)
Definition isPointInPolygon (x y : Q) (polygon : list Point2) : bool :=
  match last polygon with
  | None => false
  | Some pl =>
      snd (foldl
             (fun '(pj, inside) pi =>
                let intersect :=
                  negb (Bool.eqb (Qltb y (p2y pi)) (Qltb y (p2y pj))) &&
                  Qltb x ((p2x pj - p2x pi) * (y - p2y pi) / (p2y pj - p2y pi)
                          + p2x pi) in
                (pi, if intersect then negb inside else inside))
             (pl, false) polygon)
  end.

(** *** Scoring weights *)

(** A property value of the [weights] argument. *)
Inductive JsVal := JsUndefined | JsNumber (q : Q) | JsOther.

Definition validKeys : list string :=
  ["infoGain"; "distance"; "consistency"; "density"; "history"]%string.

(** [this.config.scoringWeights[key] = v] for one of the five keys. *)
Definition write_weight (key : string) (v : Q) (w : Weights) : Weights :=
  if String.eqb key "infoGain" then
    mkWeights v (distance w) (consistency w) (density w) (history w)
  else if String.eqb key "distance" then
    mkWeights (infoGain w) v (consistency w) (density w) (history w)
  else if String.eqb key "consistency" then
    mkWeights (infoGain w) (distance w) v (density w) (history w)
  else if String.eqb key "density" then
    mkWeights (infoGain w) (distance w) (consistency w) v (history w)
  else if String.eqb key "history" then
    mkWeights (infoGain w) (distance w) (consistency w) (density w) v
  else w.

(** [weights[key]] on an object: an absent key reads as [undefined]. *)
Definition property (weights : gmap string JsVal) (key : string) : JsVal :=
  default JsUndefined (weights !! key).

(** The [for (const key of validKeys)] loop; [false] is the early return
    taken when [typeof v !== 'number' || v < 0 || v > 1]. *)
Fixpoint setScoringWeights_loop (keys : list string)
    (weights : gmap string JsVal) (w : Weights) : bool * Weights :=
  match keys with
  | [] => (true, w)
  | key :: rest =>
      match property weights key with
      | JsUndefined => setScoringWeights_loop rest weights w
      | JsNumber q =>
          if Qltb q 0 || Qltb 1 q then (false, w)
          else setScoringWeights_loop rest weights (write_weight key q w)
      | JsOther => (false, w)
      end
  end.

(** Returns the [success] field of the result and the engine afterwards. *)
Definition setScoringWeights (weights : gmap string JsVal) (s : State)
    : bool * State :=
  let '(ok, w) :=
    setScoringWeights_loop validKeys weights (scoringWeights (config s)) in
  (ok, set_config (set_scoringWeights w (config s)) s).

(** [this.config.scoringWeights[key]] for one of the five keys. *)
Definition read_weight (key : string) (w : Weights) : Q :=
  if String.eqb key "infoGain" then infoGain w
  else if String.eqb key "distance" then distance w
  else if String.eqb key "consistency" then consistency w
  else if String.eqb key "density" then density w
  else history w.

(** A number in [0, 1]. *)
Definition valid_weight (v : JsVal) : Prop :=
  match v with
  | JsNumber q => (0 <= q /\ q <= 1)%Q
  | _ => False
  end.

(** A key that is present with a value that is not a number in [0, 1]. *)
Definition present_invalid (weights : gmap string JsVal) (key : string) : Prop :=
  property weights key <> JsUndefined /\ ~ valid_weight (property weights key).

(** *** Map update *)

(** Every [n]-th element, starting with the first. *)
Fixpoint every_nth {A} (n k : nat) (l : list A) : list A :=
  match l with
  | [] => []
  | x :: l' =>
      match k with
      | O => x :: every_nth n (n - 1) l'
      | S k' => every_nth n k' l'
      end
  end.

Definition updateMapFromPointCloud (m : Grid.OccupancyGrid) (points : list Pos)
    (dronePos : Pos) : Grid.OccupancyGrid :=
  let droneGrid := Grid.worldToGrid m (px dronePos) (py dronePos) in
  let sampleRate := 10%nat in
  let m1 :=
    foldl (fun m0 point =>
             if Qltb 1 (Qabs (pz point - pz dronePos)) then m0
             else
               let obstacleGrid := Grid.worldToGrid m0 (px point) (py point) in
               if negb (Grid.isInMap m0 obstacleGrid.1 obstacleGrid.2) then m0
               else
                 Grid.setOccupancy
                   (Grid.raytrace m0 droneGrid.1 droneGrid.2
                                  obstacleGrid.1 obstacleGrid.2)
                   obstacleGrid.1 obstacleGrid.2 (-1))
          m (every_nth sampleRate 0 points) in
  Grid.inflateObstacles m1.

(** *** Frontier detection *)

Definition hasUnknownNeighbor (m : Grid.OccupancyGrid) (gx gy : Z) : bool :=
  existsb (fun dx =>
    existsb (fun dy =>
      if (dx =? 0) && (dy =? 0) then false
      else Grid.getOccupancy m (gx + dx) (gy + dy) =? 0)
      (seqZ (-1) 3))
    (seqZ (-1) 3).

(** The centre [{x, y, size}] of a cluster. *)
Definition cluster_center (cluster : list (Q * Q)) : Frontier :=
  let n := inject_Z (Z.of_nat (length cluster)) in
  mkFrontier (foldl (fun sum p => sum + p.1)%Q 0%Q cluster / n)
             (foldl (fun sum p => sum + p.2)%Q 0%Q cluster / n)
             (Z.of_nat (length cluster)).

(** The inner loop of [clusterFrontiers]: the points after [i] that are not
    taken yet and lie within [clusterRadius] of point [i]. *)
Definition cluster_around (c : Config) (rawFrontiers : list (Q * Q))
    (i : nat) (pi : Q * Q) (visited : gset nat) : gset nat * list (Q * Q) :=
  foldl (fun '(vis, cluster) j =>
           if decide (j ∈ vis) then (vis, cluster)
           else
             match rawFrontiers !! j with
             | None => (vis, cluster)
             | Some pj =>
                 if hypot_lt (pi.1 - pj.1) (pi.2 - pj.2) (clusterRadius c)
                 then ({[j]} ∪ vis, cluster ++ [pj])
                 else (vis, cluster)
             end)
        ({[i]} ∪ visited, [pi])
        (seq (S i) (length rawFrontiers - S i)).

Definition clusterFrontiers (c : Config) (rawFrontiers : list (Q * Q))
    : list Frontier :=
  snd (foldl (fun '(visited, clusters) i =>
                if decide (i ∈ visited) then (visited, clusters)
                else
                  match rawFrontiers !! i with
                  | None => (visited, clusters)
                  | Some pi =>
                      let '(visited', cluster) :=
                        cluster_around c rawFrontiers i pi visited in
                      if minClusterSize c <=? Z.of_nat (length cluster)
                      then (visited', clusters ++ [cluster_center cluster])
                      else (visited', clusters)
                  end)
             (∅, []) (seq 0 (length rawFrontiers))).

Definition detectFrontiers (s : State) (cur : Pos) : list Frontier :=
  let m := map s in
  let droneGrid := Grid.worldToGrid m (px cur) (py cur) in
  let searchRadius := Qfloor (maxDistance (config s) / resolution (config s)) in
  let xMin := Z.max 1 (droneGrid.1 - searchRadius) in
  let xMax := Z.min (Grid.width m - 2) (droneGrid.1 + searchRadius) in
  let yMin := Z.max 1 (droneGrid.2 - searchRadius) in
  let yMax := Z.min (Grid.height m - 2) (droneGrid.2 + searchRadius) in
  let frontierCandidates :=
    flat_map (fun x =>
      flat_map (fun y =>
        if (Grid.getOccupancy m x y =? 1) && hasUnknownNeighbor m x y
        then [Grid.gridToWorld m x y] else [])
        (seqZ yMin (yMax - yMin + 1)))
      (seqZ xMin (xMax - xMin + 1)) in
  clusterFrontiers (config s) frontierCandidates.

(** *** Local measures used by the scorer *)

(** The cells visited by the double loop of [calculatePointCloudDensity] and
    [countNearbyObstacles]: in the map and within [radius] metres. *)
Definition cells_around (s : State) (x y radius : Q) : list (Z * Z) :=
  let grid := Grid.worldToGrid (map s) x y in
  let radiusInGrids := Qceiling (radius / resolution (config s)) in
  flat_map (fun dx =>
    flat_map (fun dy =>
      let gx := grid.1 + dx in
      let gy := grid.2 + dy in
      if negb (Grid.isInMap (map s) gx gy) then []
      else if sqrt_times_gt (dx * dx + dy * dy) (resolution (config s)) radius
           then []
           else [(gx, gy)])
      (seqZ (- radiusInGrids) (2 * radiusInGrids + 1)))
    (seqZ (- radiusInGrids) (2 * radiusInGrids + 1)).

Definition count_cells (f : Z -> bool) (s : State) (cells : list (Z * Z)) : Z :=
  Z.of_nat (length (List.filter
                      (fun c => f (Grid.getOccupancy (map s) c.1 c.2)) cells)).

Definition calculatePointCloudDensity (s : State) (x y radius : Q) : Q :=
  let cells := cells_around s x y radius in
  let totalCount := Z.of_nat (length cells) in
  let obstacleCount := count_cells (fun occ => occ <=? -1) s cells in
  let unknownCount := count_cells (fun occ => occ =? 0) s cells in
  if totalCount =? 0 then (1 # 2)%Q
  else
    let obstacleDensity := (inject_Z obstacleCount / inject_Z totalCount)%Q in
    let unknownDensity := (inject_Z unknownCount / inject_Z totalCount)%Q in
    Qmin (obstacleDensity + (3 # 10) * unknownDensity) 1.

Definition countNearbyObstacles (s : State) (x y radius : Q) : Z :=
  count_cells (fun occ => occ <=? -1) s (cells_around s x y radius).

(** *** Path test *)

(** The [while (true)] loop of [bresenhamLine]; [bresenhamLine] below gives
    it enough fuel to reach the end point (lemma [bresenhamLine_ends]). *)
Fixpoint bresenham_loop (fuel : nat) (x y x1 y1 dx dy sx sy err : Z)
    : list (Z * Z) :=
  match fuel with
  | O => []
  | S fuel' =>
      (x, y) ::
      if (x =? x1) && (y =? y1) then []
      else
        let e2 := 2 * err in
        let '(err1, xa) := if e2 >? - dy then (err - dy, x + sx) else (err, x) in
        let '(err2, ya) := if e2 <? dx then (err1 + dx, y + sy) else (err1, y) in
        bresenham_loop fuel' xa ya x1 y1 dx dy sx sy err2
  end.

Definition bresenhamLine (x0 y0 x1 y1 : Z) : list (Z * Z) :=
  let dx := Z.abs (x1 - x0) in
  let dy := Z.abs (y1 - y0) in
  let sx := if x0 <? x1 then 1 else -1 in
  let sy := if y0 <? y1 then 1 else -1 in
  bresenham_loop (Z.to_nat (dx + dy + 1)) x0 y0 x1 y1 dx dy sx sy (dx - dy).

Definition isPathClear (m : Grid.OccupancyGrid) (sx sy gx gy : Q) : bool :=
  let startGrid := Grid.worldToGrid m sx sy in
  let goalGrid := Grid.worldToGrid m gx gy in
  let points := bresenhamLine startGrid.1 startGrid.2 goalGrid.1 goalGrid.2 in
  forallb (fun point =>
             Grid.isInMap m point.1 point.2 &&
             (Grid.getInflatedOccupancy m point.1 point.2 =? 1))
          points.

(** *** Missions *)

Definition generateWaypoints (start : Pos) (goal : Goal) : list Waypoint :=
  let numWaypoints :=
    Z.max 2 (floor_half_hypot (gx goal - px start) (gy goal - py start)) in
  (fun i =>
     let t := (inject_Z i / inject_Z numWaypoints)%Q in
     mkWaypoint (px start + (gx goal - px start) * t)%Q
                (py start + (gy goal - py start) * t)%Q
                (option_map (fun z => (pz start + (z - pz start) * t)%Q)
                            (gz goal)))
  <$> seqZ 1 numWaypoints.

Definition mission_of (missionId : string) (waypoints : list Waypoint) : Mission :=
  mkMission missionId ((fun wp => mkTask wp 0 false 0 0) <$> waypoints).

(** The waypoint [w] is at the place of the goal. *)
Definition at_goal (w : Waypoint) (goal : Goal) : Prop :=
  (wx w == gx goal)%Q /\ (wy w == gy goal)%Q /\
  match wz w, gz goal with
  | Some a, Some b => (a == b)%Q
  | None, None => True
  | _, _ => False
  end.

(** The squared xy distance between two waypoints. *)
Definition spacing_sq (w w' : Waypoint) : Q :=
  hypot_sq (wx w' - wx w) (wy w' - wy w).

Definition publishExplorationMission (now : Z) (goal : Goal) (s : State) : State :=
  let missionId := ("exploration_" ++ string_of_Z now)%string in
  let s1 := set_currentMissionId (Some missionId) s in
  match currentPos s1 with
  | None => s1
  | Some cur =>
      let waypoints := generateWaypoints cur goal in
      send (PublishExecution_after500 missionId 0)
           (send (PublishMission (mission_of missionId waypoints)) s1)
  end.

Definition publishExplorationStatus (s : State) : State :=
  send (Emit_status (isExploring s) (isPaused s) (length (frontiers s))
                    (currentGoal s)) s.

(** [returnToHome()]; the path test it runs only feeds a log line. *)
Definition returnToHome (now : Z) (s : State) : State :=
  match startPos s, currentPos s with
  | Some sp, Some _ =>
      let missionId := ("return_home_" ++ string_of_Z now)%string in
      let mission :=
        mission_of missionId [mkWaypoint (px sp) (py sp) (Some (pz sp))] in
      set_returnHomeMissionId (Some missionId)
        (set_isReturningHome true
           (send (PublishExecution_after500 missionId 0)
                 (send (PublishMission mission) s)))
  | _, _ => s
  end.

(** [stopExploration(reason)]; with a start position but no current
    position the distance computation throws after the flags are cleared. *)
Definition stopExploration (reason : string) (now : Z) (s : State) : State :=
  if negb (isExploring s) then s
  else
    let s1 := set_isWaitingForArrival false
                (set_isPaused false (set_isExploring false s)) in
    match startPos s1 with
    | None => send (Emit_stopped reason) s1
    | Some sp =>
        match currentPos s1 with
        | None => s1
        | Some cur =>
            if hypot_gt (px cur - px sp) (py cur - py sp) 1
            then returnToHome now s1
            else send (Emit_stopped reason) s1
        end
    end.

(** *** The goal scorer *)

Section Scoring.

(** The host's [Math.sqrt], used where the value of a distance enters a
    score or a direction. *)
Variable sqrtQ : Q -> Q.

Definition hypot (dx dy : Q) : Q := sqrtQ (hypot_sq dx dy).

(** The height levels [minZ, minZ + 0.5, ...] up to [maxZ]. *)
Definition heightLevels (minZ maxZ : Q) : list Q :=
  if Qle_bool minZ maxZ
  then (fun i => (minZ + inject_Z i * (1 # 2))%Q)
       <$> seqZ 0 (Qfloor ((maxZ - minZ) / (1 # 2)) + 1)
  else [].

Definition targetHeight (c : Config) (f : Frontier) : option Q :=
  if enableZExploration c then
    let levels := heightLevels (minHeight c) (maxHeight c) in
    let hash := Qfloor (fx f * 10) + Qfloor (fy f * 10) in
    match levels with
    | [] => None
    | _ =>
        match levels !! Z.to_nat (Z.abs hash mod Z.of_nat (length levels)) with
        | Some h => Some (Qmax (minHeight c) (Qmin (maxHeight c) h))
        | None => None
        end
    end
  else Some (explorationHeight c).

(** The loop over [visitedGoals]: the penalty, and whether it broke out on a
    goal closer than 0.3 m. *)
Fixpoint historyPenalty (f : Frontier) (visited : list Point2) (acc : Q)
    : Q * bool :=
  match visited with
  | [] => (acc, false)
  | v :: rest =>
      let dx := (fx f - p2x v)%Q in
      let dy := (fy f - p2y v)%Q in
      if hypot_lt dx dy (3 # 10) then (acc, true)
      else if hypot_lt dx dy 2
           then historyPenalty f rest (acc + (1 # 2) * (1 - hypot dx dy / 2))%Q
           else historyPenalty f rest acc
  end.

(** One iteration of the [for (const frontier of frontiers)] loop: [None]
    when the frontier is skipped, otherwise its score and the goal it
    would give. *)
Definition evaluate (s : State) (cur : Pos) (f : Frontier) : option (Q * Goal) :=
  let c := config s in
  if useROI c && match roiPolygon c with
                 | Some poly => negb (isPointInPolygon (fx f) (fy f) poly)
                 | None => false
                 end then None
  else if existsb (fun g => hypot_lt (fx f - p2x g) (fy f - p2y g) 2)
                  (unreachableGoals s) then None
  else if negb (isPathClear (map s) (px cur) (py cur) (fx f) (fy f)) then None
  else if Qltb 50 (Grid.getExploredArea (map s)) &&
          (countNearbyObstacles s (fx f) (fy f) (15 # 10) =? 0) then None
  else
    let grid := Grid.worldToGrid (map s) (fx f) (fy f) in
    if negb (Grid.isInMap (map s) grid.1 grid.2) then None
    else if Grid.getOccupancy (map s) grid.1 grid.2 =? -1 then None
    else
      let dx := (fx f - px cur)%Q in
      let dy := (fy f - py cur)%Q in
      if hypot_lt dx dy (1 # 2) then None
      else if hypot_gt dx dy 15 then None
      else
        let height := targetHeight c f in
        if negb (isWithinBounds s (fx f) (fy f) height) then None
        else
          let dist := hypot dx dy in
          let distanceCost := (1 / (1 + dist))%Q in
          let size := if fsize f =? 0 then 1 else fsize f in
          let gain := Qmin (inject_Z size / 50) 1 in
          let '(penalty, skipThisFrontier) :=
            historyPenalty f (visitedGoals s) 0 in
          if skipThisFrontier then None
          else
            let dens := calculatePointCloudDensity s (fx f) (fy f) 2 in
            let directionBonus :=
              match lastGoalDirection s with
              | Some d =>
                  (Qmax 0 (dx / dist * p2x d + dy / dist * p2y d)
                   * consistency (scoringWeights c))%Q
              | None => 0%Q
              end in
            let w := scoringWeights c in
            let score :=
              (distance w * distanceCost + infoGain w * gain
               + - history w * penalty + - density w * dens
               + directionBonus)%Q in
            Some (score, mkGoal (fx f) (fy f) (fsize f) height dens true).

(** The running maximum: [bestScore] starts at minus infinity ([None]). *)
Definition better (best : option (Q * Goal)) (cand : option (Q * Goal))
    : option (Q * Goal) :=
  match cand, best with
  | None, _ => best
  | Some c, None => Some c
  | Some c, Some b => if Qltb b.1 c.1 then Some c else Some b
  end.

(** Returns the chosen goal and the engine afterwards (the choice updates
    [lastGoalDirection]). *)
Definition selectBestFrontier (s : State) (fs : list Frontier) (cur : Pos)
    : option Goal * State :=
  match foldl (fun best f => better best (evaluate s cur f)) None fs with
  | None => (None, s)
  | Some (_, bestFrontier) =>
      let dx := (gx bestFrontier - px cur)%Q in
      let dy := (gy bestFrontier - py cur)%Q in
      let dist := hypot dx dy in
      (Some bestFrontier,
       set_lastGoalDirection (Some (mkPoint2 (dx / dist) (dy / dist))) s)
  end.

(** *** The planning step *)

Definition explorationStep (now : Z) (s : State) : State :=
  if negb (isExploring s) || isPaused s then s
  else if isWaitingForArrival s && negb (isPreparingNextGoal s) then s
  else
    let s1 := if isPreparingNextGoal s then set_isWaitingForArrival false s else s in
    let elapsed := (inject_Z (now - default 0 (startTime s1))%Z / 1000)%Q in
    if Qltb (maxDuration (config s1)) elapsed then stopExploration "timeout" now s1
    else
      match currentPos s1, startPos s1 with
      | Some cur, Some sp =>
          if hypot_gt (px cur - px sp) (py cur - py sp) (maxDistance (config s1))
          then stopExploration "max_distance" now s1
          else
            let s2 := set_frontiers (detectFrontiers s1 cur) s1 in
            match frontiers s2 with
            | [] => stopExploration "complete" now s2
            | _ =>
                match selectBestFrontier s2 (frontiers s2) cur with
                | (None, s3) => stopExploration "no_valid_frontier" now s3
                | (Some nextGoal, s3) =>
                    let s4 :=
                      set_missionStartTime (Some now)
                        (set_isPreparingNextGoal false
                           (set_isWaitingForArrival true
                              (set_currentGoal (Some nextGoal) s3))) in
                    publishExplorationStatus
                      (publishExplorationMission now nextGoal s4)
                end
            end
      | _, _ => s1
      end.

(** *** Events from the bus *)

(** The block shared by the arrival timeout and the stuck detection:
    count one more failed attempt on the current goal and blacklist the goal
    once the count is [maxAttempts] or more. *)
Definition record_failed_attempt (s : State) : State :=
  match currentGoal s with
  | None => s
  | Some goal =>
      let goalKey := goalKey (gx goal) (gy goal) in
      let attempts := default 0 (goalAttempts s !! goalKey) + 1 in
      let s1 := set_goalAttempts (<[goalKey := attempts]> (goalAttempts s)) s in
      if maxAttempts <=? attempts
      then set_unreachableGoals
             (unreachableGoals s1 ++ [mkPoint2 (gx goal) (gy goal)]) s1
      else s1
  end.

(** [onPointCloudReceived], first part: scene bounds, map update and the
    status pushed every two seconds. *)
Definition cloud_update (now : Z) (points : list Pos) (cur : Pos) (s : State)
    : State :=
  let s1 :=
    match sceneBounds s with
    | None => if (100 <? length points)%nat
              then calculateSceneBounds points s else s
    | Some _ => s
    end in
  let s2 := set_map (updateMapFromPointCloud (map s1) points cur) s1 in
  if (lastStatusPublishTime s2 =? 0) || (2000 <? now - lastStatusPublishTime s2)
  then set_lastStatusPublishTime now
         (if isExploring s2 then publishExplorationStatus s2 else s2)
  else s2.

(** [onPointCloudReceived], second part: the arrival timeout. *)
Definition arrival_timeout_check (now : Z) (s : State) : State :=
  if isWaitingForArrival s && truthy (missionStartTime s) then
    let elapsed := now - default 0 (missionStartTime s) in
    if arrivalTimeout <? elapsed then
      set_missionStartTime None
        (set_currentGoal None
           (set_isWaitingForArrival false (record_failed_attempt s)))
    else s
  else s.

(** [onPointCloudReceived], last part: the throttled planning step. *)
Definition plan_if_due (now : Z) (s : State) : State :=
  if isExploring s && negb (isPaused s) && negb (isWaitingForArrival s) then
    if updateInterval (config s) <? now - lastUpdateTime s
    then set_lastUpdateTime now (explorationStep now s)
    else s
  else s.

Definition onPointCloudReceived (now : Z) (points : list Pos) (s : State) : State :=
  match currentPos s, points with
  | None, _ => s
  | _, [] => s
  | Some cur, _ =>
      plan_if_due now (arrival_timeout_check now (cloud_update now points cur s))
  end.

(** [Math.hypot(dx, dy) / (dt / 1000) < VELOCITY_THRESHOLD]: with [dt = 0]
    the quotient is infinite or not a number; with [dt < 0] it is not
    positive. *)
Definition velocity_below (dx dy : Q) (dt : Z) : bool :=
  if 0 <? dt then hypot_lt dx dy (VELOCITY_THRESHOLD * (inject_Z dt / 1000))
  else dt <? 0.

(** The stuck detection of [onOdometryReceived]: the engine afterwards and
    whether the handler returns at once. *)
Definition stuck_check (now : Z) (newPos : Pos) (s : State) : State * bool :=
  match lastVelocityCheck s with
  | None => (s, false)
  | Some (lx, ly, ltime) =>
      let dt := now - ltime in
      if velocity_below (px newPos - lx) (py newPos - ly) dt then
        if negb (truthy (stuckStartTime s)) then
          (set_stuckStartTime (Some now) s, false)
        else
          let stuckDuration := now - default 0 (stuckStartTime s) in
          if STUCK_THRESHOLD <? stuckDuration then
            (set_lastVelocityCheck None
               (set_stuckStartTime None
                  (set_missionStartTime None
                     (set_currentGoal None
                        (set_isWaitingForArrival false
                           (record_failed_attempt s))))),
             true)
          else (s, false)
      else
        if truthy (stuckStartTime s)
        then (set_stuckStartTime None s, false)
        else (s, false)
  end.

(** The arrival part of [onOdometryReceived], after the stuck detection. *)
Definition arrival_check (now : Z) (newPos : Pos) (goal : Goal) (s : State) : State :=
  let dx := (px newPos - gx goal)%Q in
  let dy := (py newPos - gy goal)%Q in
  let s1 := set_lastVelocityCheck (Some (px newPos, py newPos, now)) s in
  let s2 :=
    if hypot_le dx dy (15 # 10) && negb (isPreparingNextGoal s1)
    then set_isPreparingNextGoal true s1 else s1 in
  if hypot_lt dx dy (3 # 10) then
    set_lastVelocityCheck None
      (set_stuckStartTime None
         (set_isPreparingNextGoal false
            (set_missionStartTime None
               (set_currentGoal None
                  (set_isWaitingForArrival false
                     (set_goalAttempts
                        (delete (goalKey (gx goal) (gy goal)) (goalAttempts s2))
                        (set_visitedGoals
                           (visitedGoals s2 ++ [mkPoint2 (gx goal) (gy goal)])
                           s2)))))))
  else s2.

(** The return-home part of [onOdometryReceived]. *)
Definition home_check (newPos : Pos) (s : State) : State :=
  match isReturningHome s, startPos s with
  | true, Some sp =>
      if hypot_lt (px newPos - px sp) (py newPos - py sp) (1 # 2)
      then send (Emit_returned newPos sp)
                (set_returnHomeMissionId None (set_isReturningHome false s))
      else s
  | _, _ => s
  end.

(** [onOdometryReceived(odometry)]; [position] is [None] when the message
    carries no position under either of the two accepted shapes. *)
Definition onOdometryReceived (now : Z) (position : option Pos) (s : State) : State :=
  match position with
  | None => s
  | Some newPos =>
      let s1 := home_check newPos s in
      match isWaitingForArrival s1, currentGoal s1 with
      | true, Some goal =>
          match stuck_check now newPos s1 with
          | (s2, true) => s2
          | (s2, false) =>
              set_currentPos (Some newPos) (arrival_check now newPos goal s2)
          end
      | _, _ => set_currentPos (Some newPos) s1
      end
  end.

(** *** The control surface *)

(** [startExploration(options)] up to its [await]. *)
Definition startExploration_begin (now : Z) (options : StartOptions) (s : State)
    : State :=
  if isExploring s then s
  else
    let s1 := match o_startPosition options with
              | Some p => set_currentPos (Some p) s
              | None => s
              end in
    match currentPos s1 with
    | None => s1
    | Some cur =>
        let s2 := set_config (assign_config (config s1) options) s1 in
        let s3 :=
          set_missionStartTime None
            (set_isWaitingForArrival false
               (set_visitedGoals []
                  (set_lastUpdateTime 0
                     (set_startTime (Some now)
                        (set_startPos (Some cur)
                           (set_isPaused false s2)))))) in
        set_pendingStarts (S (pendingStarts s3))
          (send (Sim_set_height_limits (minHeight (config s3)) (maxHeight (config s3)))
                (send (Sim_set_position cur) s3))
    end.

(** The disk of free cells seeded around the start cell. *)
Definition seed_start_area (m : Grid.OccupancyGrid) (startGrid : Z * Z)
    : Grid.OccupancyGrid :=
  let radius := 15 in
  foldl (fun m1 dx =>
    foldl (fun m2 dy =>
      let gx := startGrid.1 + dx in
      let gy := startGrid.2 + dy in
      if Grid.isInMap m2 gx gy && sqrt_le (dx * dx + dy * dy) radius
      then Grid.setOccupancy m2 gx gy 1 else m2)
      m1 (seqZ (- radius) (2 * radius + 1)))
    m (seqZ (- radius) (2 * radius + 1)).

(** [startExploration(options)] after its [await]; an array length below
    zero makes [new Int8Array] throw, and so does a missing start position
    once the map is replaced. *)
Definition startExploration_resume (s : State) : State :=
  match pendingStarts s with
  | O => s
  | S n =>
      let s0 := set_pendingStarts n s in
      let c := config s0 in
      if mapWidth c * mapHeight c <? 0 then s0
      else
        let s1 := set_map (Grid.new (mapWidth c) (mapHeight c) (resolution c)) s0 in
        match startPos s1 with
        | None => s1
        | Some sp =>
            let startGrid := Grid.worldToGrid (map s1) (px sp) (py sp) in
            let s2 := set_map (seed_start_area (map s1) startGrid) s1 in
            send ExplorationStep_after500
                 (send (Emit_started sp) (set_isExploring true s2))
        end
  end.

Definition pauseExploration (s : State) : State :=
  if negb (isExploring s) then s
  else send Emit_paused (set_isPaused true s).

Definition resumeExploration (now : Z) (s : State) : State :=
  if negb (isExploring s) then s
  else explorationStep now
         (send Emit_resumed (set_isWaitingForArrival false (set_isPaused false s))).

Definition reset (now : Z) (s : State) : State :=
  let s1 := stopExploration "manual" now s in
  set_visitedGoals [] (set_frontiers [] (set_map (Grid.reset (map s1)) s1)).

(** *** The engine as a transition system *)

(** What can happen to the engine; [now] is the reading of [Date.now()]
    during the handler. *)
Inductive Event :=
| PointCloud (now : Z) (points : list Pos)
| Odometry (now : Z) (position : option Pos)
| StartExploration (now : Z) (options : StartOptions)
| StartExploration_resumed
| ExplorationStep_timer (now : Z)
| PauseExploration
| ResumeExploration (now : Z)
| StopExploration (now : Z)
| Reset (now : Z)
| SetROI (polygon : list Point2)
| ClearROI
| SetScoringWeights (weights : gmap string JsVal)
| PublishExplorationStatus.

Definition step (s : State) (e : Event) : State :=
  match e with
  | PointCloud now points => onPointCloudReceived now points s
  | Odometry now position => onOdometryReceived now position s
  | StartExploration now options => startExploration_begin now options s
  | StartExploration_resumed => startExploration_resume s
  | ExplorationStep_timer now => explorationStep now s
  | PauseExploration => pauseExploration s
  | ResumeExploration now => resumeExploration now s
  | StopExploration now => stopExploration "manual" now s
  | Reset now => reset now s
  | SetROI polygon => setROI polygon s
  | ClearROI => clearROI s
  | SetScoringWeights weights => (setScoringWeights weights s).2
  | PublishExplorationStatus => publishExplorationStatus s
  end.

Definition run (s : State) (events : list Event) : State := foldl step s events.

Inductive reachable : State -> Prop :=
| reachable_init : reachable init
| reachable_step s e : reachable s -> reachable (step s e).

End Scoring.

(** *** Invariants of the engine *)

(** What holds of the flags, the positions, the current goal and the
    failed-attempt bookkeeping in every state the engine can reach. *)
Definition InvC (exploring paused waiting : bool) (goal : option Goal)
    (attempts : gmap GoalKey Z) (unreachable : list Point2)
    (start cur : option Pos) (pending : nat) : Prop :=
  (waiting = true -> exploring = true) /\
  (paused = true -> exploring = true) /\
  (exploring = true -> is_Some start) /\
  ((0 < pending)%nat -> is_Some start) /\
  (is_Some start -> is_Some cur) /\
  (waiting = true ->
   exists g, goal = Some g /\
             forall u, u ∈ unreachable ->
                       hypot_lt (gx g - p2x u) (gy g - p2y u) 2 = false) /\
  (forall k n, attempts !! k = Some n ->
               1 <= n <= maxAttempts /\
               (n = maxAttempts ->
                exists u, u ∈ unreachable /\ goalKey (p2x u) (p2y u) = k)).

Definition Inv (s : State) : Prop :=
  InvC (isExploring s) (isPaused s) (isWaitingForArrival s) (currentGoal s)
       (goalAttempts s) (unreachableGoals s) (startPos s) (currentPos s)
       (pendingStarts s).

(** The failed attempt recorded on goal [g] between [s] and [s']: one more
    on the counter of its key, and the goal blacklisted exactly when the
    counter reaches [maxAttempts]. *)
Definition attempt_recorded (g : Goal) (s s' : State) : Prop :=
  let k := goalKey (gx g) (gy g) in
  let n := default 0 (goalAttempts s !! k) in
  goalAttempts s' = <[k := n + 1]> (goalAttempts s) /\
  n + 1 <= maxAttempts /\
  unreachableGoals s' =
    (if n + 1 =? maxAttempts
     then unreachableGoals s ++ [mkPoint2 (gx g) (gy g)]
     else unreachableGoals s).

(** The waiting state is cleared. *)
Definition waiting_cleared (s : State) : Prop :=
  isWaitingForArrival s = false /\ currentGoal s = None /\
  missionStartTime s = None.

(** The three bookkeeping collections are the same in [s] and [s']. *)
Definition same_bookkeeping (s s' : State) : Prop :=
  goalAttempts s' = goalAttempts s /\
  unreachableGoals s' = unreachableGoals s /\
  visitedGoals s' = visitedGoals s.

(** The pose [newPos] received at [now] is an arrival at the goal [g]: the
    engine waits for [g], the stuck detection does not end the handler, and
    the pose is less than 0.3 m from the goal. *)
Definition arrival (now : Z) (newPos : Pos) (g : Goal) (s : State) : Prop :=
  isWaitingForArrival s = true /\ currentGoal s = Some g /\
  (stuck_check now newPos s).2 = false /\
  hypot_lt (px newPos - gx g) (py newPos - gy g) (3 # 10) = true.


(** The safety property of the two top-level flags. *)
Definition returning_excludes_exploring (s : State) : Prop :=
  isReturningHome s = true -> isExploring s = false.

(** From [s] to [s'] exploring was not switched on, and if [s'] explores,
    returning home was not switched on either. *)
Definition quiet (s s' : State) : Prop :=
  isExploring s' = true ->
  isExploring s = true /\ (isReturningHome s' = true -> isReturningHome s = true).


(** *** Remaining methods of the engine *)

(** [calculatePolygonArea(polygon)]: the shoelace sum over the vertices. *)
Definition calculatePolygonArea (polygon : list Point2) : Q :=
  let n := length polygon in
  let area :=
    foldl (fun area i =>
             match polygon !! i, polygon !! ((i + 1) mod n)%nat with
             | Some pi, Some pj =>
                 (area + p2x pi * p2y pj - p2x pj * p2y pi)%Q
             | _, _ => area
             end)
          0%Q (seq 0 n) in
  Qabs (area / 2).

(** [getScoringWeights()]: a copy of the weights. *)
Definition getScoringWeights (s : State) : Weights :=
  let w := scoringWeights (config s) in
  mkWeights (infoGain w) (distance w) (consistency w) (density w) (history w).

(** *** Shapes used to state what the loops compute *)

(** Two cells that touch by a side or by a corner. *)
Definition adjacent (c c' : Z * Z) : Prop :=
  Z.max (Z.abs (c'.1 - c.1)) (Z.abs (c'.2 - c.2)) = 1.

(** What the error term of [bresenhamLine] keeps true of a cell that is
    [rx] and [ry] steps away from the end point of a line spanning [dx] by
    [dy] cells: measured along the minor axis, the cell is within half a
    step of the straight segment. *)
Definition on_ideal_line (dx dy rx ry : Z) : Prop :=
  let D := dx * (dy - ry) - dy * (dx - rx) in
  if dy <=? dx
  then - dx <= 2 * D /\ (2 * D < dx \/ dx = 0) /\ (dx = dy -> rx = ry)
  else - dy < 2 * D <= dy.

(** [g'] has the frame of [g]: the same size, resolution, origin and
    radii. *)
Definition same_geometry (g g' : Grid.OccupancyGrid) : Prop :=
  Grid.width g' = Grid.width g /\ Grid.height g' = Grid.height g /\
  Grid.resolution g' = Grid.resolution g /\
  Grid.origin_x g' = Grid.origin_x g /\ Grid.origin_y g' = Grid.origin_y g /\
  Grid.robotRadius g' = Grid.robotRadius g /\
  Grid.inflationRadius g' = Grid.inflationRadius g.

(** Every mission in the outbox (latest first) was followed at once by the
    order to start it, has at least one task, and flies every task with yaw
    0 and the camera off. *)
Fixpoint missions_started (out : list Output) : Prop :=
  match out with
  | [] => True
  | PublishExecution_after500 id action :: PublishMission m :: rest =>
      id = mission_id m /\ action = 0 /\ tasks m <> [] /\
      Forall (fun t => yaw t = 0 /\ camera_on t = false) (tasks m) /\
      missions_started rest
  | PublishExecution_after500 _ _ :: _ => False
  | PublishMission _ :: _ => False
  | _ :: rest => missions_started rest
  end.

(** An output that is neither a mission nor an order to start one. *)
Definition is_notice (o : Output) : bool :=
  match o with
  | PublishMission _ | PublishExecution_after500 _ _ => false
  | _ => true
  end.

(** [sent_since out out']: the outbox [out'] is [out] with notices and
    started missions added. *)
Inductive sent_since (out : list Output) : list Output -> Prop :=
| sent_nothing : sent_since out out
| sent_notice o out' :
    is_notice o = true -> sent_since out out' -> sent_since out (o :: out')
| sent_mission m out' :
    tasks m <> [] ->
    Forall (fun t => yaw t = 0 /\ camera_on t = false) (tasks m) ->
    sent_since out out' ->
    sent_since out (PublishExecution_after500 (mission_id m) 0
                      :: PublishMission m :: out').

(** From [s] to [s'] the scene bounds, once computed, are kept, the
    blacklist only grows at its end, and the outbox only gains notices and
    started missions. *)
Definition orderly (s s' : State) : Prop :=
  (forall b, sceneBounds s = Some b -> sceneBounds s' = Some b) /\
  unreachableGoals s `prefix_of` unreachableGoals s' /\
  sent_since (outbox s) (outbox s').

(** *** Reports *)


End Engine.

(** ** Concrete runs *)

Module Scenarios.
Import Engine.

(** A square root to two decimals, for running the scorer. *)
Definition sqrt_approx (q : Q) : Q :=
  (inject_Z (Z.sqrt (Qfloor (q * 10000))) / 100)%Q.

(** [startExploration({mapWidth: 40, mapHeight: 40})]: an 8 m by 8 m map. *)
Definition small_map : StartOptions :=
  mkStartOptions None (Some 40) (Some 40) None None None None None None None
                 None None None None None None None None.

Definition home : Pos := mkPos 0 0 1.

(** A cloud of one sample 9 m above the vehicle: the map update skips it
    and only recomputes the inflated grid. *)
Definition empty_sky : list Pos := [mkPos 0 0 10].

(** The vehicle reports its pose and an exploration is started. *)
Definition started : list Event :=
  [Odometry 1000 (Some home); StartExploration 2000 small_map;
   StartExploration_resumed].

(** The first cloud event plans the first goal, at (-2.72, 0.1). *)
Definition planned : list Event := started ++ [PointCloud 3000 empty_sky].

(** The engine after that, evaluated: it waits for its first goal. *)
Definition waiting_state : State :=
  Eval vm_compute in run sqrt_approx init planned.

(** The first goal, as the planner computed it. *)
Definition first_goal : Goal :=
  Eval vm_compute in
    default (mkGoal 0 0 0 None 0 false) (currentGoal waiting_state).

(** The vehicle is stopped 2 m from the start, which sends it home, and a
    new exploration is started before it gets there. *)
Definition restarted : list Event :=
  started ++ [Odometry 3000 (Some (mkPos 2 0 1)); StopExploration 4000;
              StartExploration 5000 small_map; StartExploration_resumed].

(** While the engine waits, the vehicle creeps towards the goal at
    0.05 m/s. *)
Definition creeping : list Event :=
  [Odometry 4000 (Some (mkPos (-(23 # 10)) (1 # 10) 1));
   Odometry 5000 (Some (mkPos (-(235 # 100)) (1 # 10) 1))].

Definition creeping_state : State := run sqrt_approx waiting_state creeping.

(** Its next pose, 3.1 s later and 0.27 m from the goal. *)
Definition creeping_pose : Pos := mkPos (-(245 # 100)) (1 # 10) 1.

(** A pose 0.12 m from the goal. *)
Definition arriving_pose : Pos := mkPos (-(26 # 10)) (1 # 10) 1.



(** A 5 by 5 grid with one obstacle in the middle. *)
Definition one_obstacle : Grid.OccupancyGrid :=
  Grid.setOccupancy (Grid.new 5 5 (1 # 5)) 2 2 (-1).

Definition some_ops : list Grid.GridOp :=
  [Grid.OpSetOccupancy 1 1 (-1); Grid.OpRaytrace 0 0 2 2; Grid.OpInflateObstacles;
   Grid.OpSetOccupancy 0 0 0; Grid.OpSetOccupancy 2 1 1; Grid.OpReset;
   Grid.OpSetOccupancy 2 2 1].

(** A goal 5 m east of [home]. *)
Definition goal_5m : Goal := mkGoal 5 0 10 (Some 1%Q) 0 true.


(** The waiting engine with one blacklisted place. *)
Definition scoring_state : State :=
  set_unreachableGoals [mkPoint2 2 2] waiting_state.

(** Two candidates: the place of the first goal, and the blacklisted
    place. *)
Definition two_frontiers : list Frontier :=
  [mkFrontier 2 2 5; mkFrontier (gx first_goal) (gy first_goal) 10].

(** A corridor of three free cells, 0.2 m each, with its inflated array
    computed. *)
Definition corridor_raw : Grid.OccupancyGrid :=
  Grid.setOccupancy
    (Grid.setOccupancy (Grid.setOccupancy (Grid.new 3 1 (1 # 5)) 0 0 1) 1 0 1)
    2 0 1.

Definition corridor : Grid.OccupancyGrid := Grid.inflateObstacles corridor_raw.

(** A 2 m by 2 m room, every cell free in both arrays. *)
Definition open_room : Grid.OccupancyGrid :=
  Grid.mkGrid 10 10 (1 # 5) (-1) (-1) (replicate 100 1) (replicate 100 1)
              (2 # 10) 1 (Grid.mkStats 0 100 0).

(** A pose half a metre west of the centre of the room, and the engine
    there. *)
Definition west : Pos := mkPos (-(1 # 2)) 0 1.

Definition room_state : State := set_map open_room (set_currentPos (Some west) init).

(** A frontier half a metre east of the centre. *)
Definition east_frontier : Frontier := mkFrontier (1 # 2) 0 8.

(** The engine after a pose and a call of [startExploration], suspended at
    its [await]. *)
Definition start_pending : State :=
  run sqrt_approx init [Odometry 1000 (Some home); StartExploration 2000 small_map].

End Scenarios.

(** ** Facts about the occupancy grid *)

Module GridFacts.
Import Grid.

(** *** Arrays *)

Lemma to_int8_ternary v : v = -1 \/ v = 0 \/ v = 1 -> to_int8 v = v.
Proof. intros [-> | [-> | ->]]; reflexivity. Qed.

Lemma aset_length a i v : length (aset a i v) = length a.
Proof. unfold aset. destruct (i <? 0); [done | apply length_insert]. Qed.

Lemma aget_aset_eq a i v :
  0 <= i -> (Z.to_nat i < length a)%nat -> aget (aset a i v) i = to_int8 v.
Proof.
  intros Hi Hlt. unfold aget, aset.
  destruct (Z.ltb_spec i 0); [lia |].
  by rewrite list_lookup_insert_eq.
Qed.

Lemma aget_aset_ne a i j v :
  0 <= i -> 0 <= j -> i <> j -> aget (aset a i v) j = aget a j.
Proof.
  intros Hi Hj Hne. unfold aget, aset.
  destruct (Z.ltb_spec i 0); [done |].
  rewrite list_lookup_insert_ne; [done | lia].
Qed.

Lemma index_in_range g gx gy :
  isInMap g gx gy = true ->
  0 <= index g gx gy < width g * height g.
Proof.
  unfold isInMap, index. intros H.
  repeat (apply andb_prop in H; destruct H as [H ?]).
  apply Z.leb_le in H. apply Z.ltb_lt in H0, H2. apply Z.leb_le in H1.
  nia.
Qed.

Lemma index_inj g gx gy gx' gy' :
  isInMap g gx gy = true -> isInMap g gx' gy' = true ->
  index g gx gy = index g gx' gy' -> gx = gx' /\ gy = gy'.
Proof.
  unfold isInMap, index. intros H H'.
  repeat (apply andb_prop in H; destruct H as [H ?]).
  repeat (apply andb_prop in H'; destruct H' as [H' ?]).
  apply Z.leb_le in H, H', H1, H4. apply Z.ltb_lt in H0, H2, H3, H5.
  intros Heq.
  assert (gy = gy') by nia. subst. split; lia.
Qed.

(** *** Counting cells *)

Lemma count_val_replicate v n x :
  count_val v (replicate n x) = if x =? v then Z.of_nat n else 0.
Proof.
  induction n as [| n IH]; simpl.
  - by destruct (x =? v).
  - rewrite IH. destruct (x =? v); lia.
Qed.

Lemma count_val_insert v (l : list Z) i x old :
  l !! i = Some old ->
  count_val v (<[i := x]> l) =
  count_val v l - (if old =? v then 1 else 0) + (if x =? v then 1 else 0).
Proof.
  revert i. induction l as [| y l IH]; intros [| i] Hl; simpl in *; try done.
  - injection Hl as ->. lia.
  - rewrite (IH i Hl). lia.
Qed.

Lemma count_val_total (l : list Z) :
  Forall (fun v => v = -1 \/ v = 0 \/ v = 1) l ->
  count_val 0 l + count_val 1 l + count_val (-1) l = Z.of_nat (length l).
Proof.
  induction 1 as [| x l Hx _ IH]; simpl; [done |].
  destruct Hx as [-> | [-> | ->]]; simpl; lia.
Qed.

(** *** The statistics follow the raw array *)

Lemma new_stats_ok w h r : 0 <= w * h -> stats_ok (new w h r).
Proof.
  intros Hwh. unfold stats_ok, wf, new; simpl.
  rewrite !length_replicate, !count_val_replicate. simpl.
  repeat split; try lia.
  apply Forall_replicate. auto.
Qed.

Lemma setOccupancy_stats_ok g gx gy v :
  v = -1 \/ v = 0 \/ v = 1 -> stats_ok g -> stats_ok (setOccupancy g gx gy v).
Proof.
  intros Hv (Hwf & Hall & Hu & Hf & Ho). unfold setOccupancy.
  destruct (isInMap g gx gy) eqn:Hin; simpl; [| done].
  destruct (Z.eqb_spec (aget (data g) (index g gx gy)) v) as [| Hne]; [done |].
  pose proof (index_in_range g gx gy Hin) as Hidx.
  destruct Hwf as (Hwh & Hld & Hli & Hrad).
  assert (Hlt : (Z.to_nat (index g gx gy) < length (data g))%nat) by lia.
  destruct (lookup_lt_is_Some_2 _ _ Hlt) as [old Hold].
  assert (Hget : aget (data g) (index g gx gy) = old)
    by (unfold aget; by rewrite Hold).
  assert (Hold3 : old = -1 \/ old = 0 \/ old = 1).
  { eapply Forall_lookup_1 in Hall; eauto. }
  rewrite Hget in *.
  unfold stats_ok, wf, with_data; simpl.
  unfold aset. destruct (Z.ltb_spec (index g gx gy) 0); [lia |].
  rewrite length_insert, (to_int8_ternary v Hv).
  rewrite !(count_val_insert _ _ _ _ old Hold).
  repeat split; try done.
  - apply Forall_insert; done.
  - unfold updateStats.
    destruct Hold3 as [-> | [-> | ->]], Hv as [-> | [-> | ->]]; simpl; lia.
  - unfold updateStats.
    destruct Hold3 as [-> | [-> | ->]], Hv as [-> | [-> | ->]]; simpl; lia.
  - unfold updateStats.
    destruct Hold3 as [-> | [-> | ->]], Hv as [-> | [-> | ->]]; simpl; lia.
Qed.

Lemma raytrace_loop_stats_ok fuel : forall g x0 y0 x1 y1 dx dy sx sy err,
  stats_ok g -> stats_ok (raytrace_loop fuel g x0 y0 x1 y1 dx dy sx sy err).
Proof.
  induction fuel as [| fuel IH]; intros g x0 y0 x1 y1 dx dy sx sy err Hok;
    simpl; [done |].
  set (g1 := if isInMap g x0 y0 && negb (getOccupancy g x0 y0 =? -1)
             then setOccupancy g x0 y0 1 else g).
  assert (Hok1 : stats_ok g1).
  { unfold g1. destruct (isInMap g x0 y0 && negb (getOccupancy g x0 y0 =? -1));
      [apply setOccupancy_stats_ok; auto | done]. }
  destruct ((x0 =? x1) && (y0 =? y1)); [done |].
  destruct (2 * err >? - dy), (2 * err <? dx); apply IH; done.
Qed.

Lemma reset_stats_ok g : stats_ok g -> stats_ok (reset g).
Proof.
  intros ((Hwh & Hld & Hli & Hrad) & _). unfold stats_ok, wf, reset; simpl.
  rewrite !length_replicate, !count_val_replicate. simpl.
  repeat split; try lia; try done.
  apply Forall_replicate. auto.
Qed.

(** *** Inflation *)

Lemma disk_in_square a b r :
  0 <= r -> a * a + b * b <= r * r -> - r <= a <= r /\ - r <= b <= r.
Proof.
  intros Hr Hd.
  assert (0 <= a * a) by nia. assert (0 <= b * b) by nia.
  repeat split; nia.
Qed.

Lemma ext_refl g : ext g g.
Proof. unfold ext, with_inflated. by destruct g. Qed.

Lemma ext_trans g1 g2 g3 : ext g1 g2 -> ext g2 g3 -> ext g1 g3.
Proof.
  intros (E1 & L1 & M1) (E2 & L2 & M2). split; [| split].
  - rewrite E2, E1 at 1. reflexivity.
  - congruence.
  - auto.
Qed.

Lemma foldl_ext {B} (f : OccupancyGrid -> B -> OccupancyGrid) (l : list B) :
  (forall g b, ext g (f g b)) -> forall g, ext g (foldl f g l).
Proof.
  intros Hf. induction l as [| b l IH]; intros g; simpl.
  - apply ext_refl.
  - eapply ext_trans; [apply Hf | apply IH].
Qed.

(** A property that one step of a loop establishes for its own element, and
    that later steps keep, holds after the loop. *)
Lemma foldl_establish {B} (f : OccupancyGrid -> B -> OccupancyGrid)
    (Post : OccupancyGrid -> Prop) (Pre : OccupancyGrid -> Prop) (l : list B) b0 :
  (forall g b, ext g (f g b)) ->
  (forall g g', ext g g' -> Pre g -> Pre g') ->
  (forall g g', ext g g' -> Post g -> Post g') ->
  (forall g, Pre g -> Post (f g b0)) ->
  b0 ∈ l ->
  forall g, Pre g -> Post (foldl f g l).
Proof.
  intros Hf HPre HPost Hb0. induction l as [| b l IH]; intros Hin g Hg.
  - by apply elem_of_nil in Hin.
  - simpl. apply elem_of_cons in Hin as [<- | Hin].
    + eapply HPost; [apply foldl_ext, Hf | apply Hb0, Hg].
    + apply IH; [done |]. eapply HPre; [apply Hf | done].
Qed.

Lemma ext_isInMap g g' gx gy : ext g g' -> isInMap g' gx gy = isInMap g gx gy.
Proof. intros (-> & _). reflexivity. Qed.

Lemma ext_index g g' gx gy : ext g g' -> index g' gx gy = index g gx gy.
Proof. intros (-> & _). reflexivity. Qed.

Lemma ext_data g g' : ext g g' -> data g' = data g.
Proof. intros (-> & _). reflexivity. Qed.

Lemma ext_radius g g' : ext g g' -> inflationRadius g' = inflationRadius g.
Proof. intros (-> & _). reflexivity. Qed.

Lemma mark_ext g i : 0 <= i -> ext g (with_inflated g (aset (inflatedData g) i (-1))).
Proof.
  intros Hi. split; [| split]; simpl.
  - reflexivity.
  - apply aset_length.
  - intros j Hj Hm. destruct (Z.eq_dec i j) as [<- | Hne].
    + unfold aget, aset in *. destruct (Z.ltb_spec i 0); [done |].
      destruct (decide (Z.to_nat i < length (inflatedData g))%nat).
      * by rewrite list_lookup_insert_eq.
      * rewrite list_insert_ge; [done | lia].
    + by rewrite aget_aset_ne.
Qed.

Lemma inflateCell_at_ext r cx cy dy g dx : ext g (inflateCell_at r cx cy dy g dx).
Proof.
  unfold inflateCell_at.
  destruct (isInMap g (cx + dx) (cy + dy)) eqn:Hin; simpl; [| apply ext_refl].
  destruct (sqrt_le _ _); [| apply ext_refl].
  destruct (aget _ _ =? -1); simpl; [apply ext_refl |].
  apply mark_ext. apply index_in_range in Hin. lia.
Qed.

Lemma inflateCell_ext g cx cy : ext g (inflateCell g cx cy).
Proof.
  unfold inflateCell. apply foldl_ext. intros g1 dy.
  apply foldl_ext. intros g2 dx. apply inflateCell_at_ext.
Qed.

(** After [inflateCell g cx cy] every in-map cell of the disk is occupied in
    the inflated array. *)
Lemma inflateCell_marks g cx cy gx gy :
  length (inflatedData g) = Z.to_nat (width g * height g) ->
  isInMap g gx gy = true ->
  0 <= inflationRadius g ->
  (gx - cx) * (gx - cx) + (gy - cy) * (gy - cy)
    <= inflationRadius g * inflationRadius g ->
  aget (inflatedData (inflateCell g cx cy)) (index g gx gy) = -1.
Proof.
  intros Hlen Hin HR Hd.
  set (R := inflationRadius g) in *.
  set (Pre := fun g' : OccupancyGrid => ext g g').
  set (Post := fun g' : OccupancyGrid =>
                 ext g g' /\ aget (inflatedData g') (index g gx gy) = -1).
  assert (Hidx := index_in_range g gx gy Hin).
  assert (HPost : forall g1 g2, ext g1 g2 -> Post g1 -> Post g2).
  { intros g1 g2 H12 [H1 Hm]. split; [by eapply ext_trans |].
    destruct H12 as (_ & _ & Hmono). apply Hmono; [lia | done]. }
  assert (HPre : forall g1 g2, ext g1 g2 -> Pre g1 -> Pre g2).
  { intros g1 g2 H12 H1. by eapply ext_trans. }
  enough (Post (inflateCell g cx cy)) as [_ H] by done.
  unfold inflateCell. fold R.
  apply (foldl_establish _ Post Pre _ (gy - cy)); try done.
  - intros g1 dy. apply foldl_ext. intros. apply inflateCell_at_ext.
  - intros g1 Hg1.
    apply (foldl_establish _ Post Pre _ (gx - cx)); try done.
    + intros. apply inflateCell_at_ext.
    + intros g2 Hg2. unfold Pre in Hg2. split.
      { eapply ext_trans; [done | apply inflateCell_at_ext]. }
      unfold inflateCell_at.
      replace (cx + (gx - cx)) with gx by lia.
      replace (cy + (gy - cy)) with gy by lia.
      rewrite (ext_isInMap _ _ _ _ Hg2), Hin. simpl.
      unfold sqrt_le.
      destruct (Z.leb_spec 0 R); [| lia].
      destruct (Z.leb_spec ((gx - cx) * (gx - cx) + (gy - cy) * (gy - cy)) (R * R));
        [| lia].
      simpl. rewrite (ext_index _ _ _ _ Hg2).
      destruct (Z.eqb_spec (aget (inflatedData g2) (index g gx gy)) (-1)) as [He | Hne];
        simpl; [done |].
      rewrite aget_aset_eq; [done | lia |].
      destruct Hg2 as (_ & Hl & _). lia.
    + apply elem_of_seqZ. destruct (disk_in_square _ _ _ HR Hd). lia.
  - apply elem_of_seqZ. destruct (disk_in_square _ _ _ HR Hd). lia.
  - apply ext_refl.
Qed.

Lemma copy_raw_prefix (src dst : list Z) (k : nat) :
  (k <= length src)%nat ->
  length (foldl (fun acc i => aset acc (Z.of_nat i) (aget src (Z.of_nat i)))
                dst (seq 0 k)) = length dst /\
  forall j, (j < k)%nat -> (j < length dst)%nat ->
    aget (foldl (fun acc i => aset acc (Z.of_nat i) (aget src (Z.of_nat i)))
                dst (seq 0 k)) (Z.of_nat j)
    = to_int8 (aget src (Z.of_nat j)).
Proof.
  induction k as [| k IH]; intros Hk.
  - split; [done | lia].
  - rewrite seq_S, foldl_snoc. cbn [Nat.add].
    destruct IH as [IHl IHg]; [lia |].
    split; [by rewrite aset_length |].
    intros j Hj Hjd. destruct (decide (j = k)) as [-> | Hne].
    + rewrite aget_aset_eq; [done | lia | rewrite Nat2Z.id; lia].
    + rewrite aget_aset_ne by lia. apply IHg; lia.
Qed.

Lemma copy_raw_length src dst : length (copy_raw src dst) = length dst.
Proof. unfold copy_raw. by apply copy_raw_prefix. Qed.

Lemma copy_raw_get src dst i :
  length dst = length src -> 0 <= i -> (Z.to_nat i < length src)%nat ->
  aget (copy_raw src dst) i = to_int8 (aget src i).
Proof.
  intros Hl Hi Hlt. unfold copy_raw.
  destruct (copy_raw_prefix src dst (length src)) as [_ H]; [lia |].
  specialize (H (Z.to_nat i)). rewrite Z2Nat.id in H by done.
  apply H; lia.
Qed.

Lemma inflateObstacles_at_ext gy g gx : ext g (inflateObstacles_at gy g gx).
Proof.
  unfold inflateObstacles_at.
  destruct (aget _ _ =? -1); [apply inflateCell_ext | apply ext_refl].
Qed.

(** [inflateObstacles] changes the inflated array only and keeps its length. *)
Lemma inflateObstacles_frame g :
  inflateObstacles g = with_inflated g (inflatedData (inflateObstacles g)) /\
  length (inflatedData (inflateObstacles g)) = length (inflatedData g).
Proof.
  unfold inflateObstacles.
  set (g0 := with_inflated g (copy_raw (data g) (inflatedData g))).
  set (body := fun g1 gy => foldl (inflateObstacles_at gy) g1 (seqZ 0 (width g))).
  assert (H : ext g0 (foldl body g0 (seqZ 0 (height g)))).
  { apply foldl_ext. intros g1 gy. apply foldl_ext. intros.
    apply inflateObstacles_at_ext. }
  destruct H as (E & L & _). split.
  - rewrite E at 1. reflexivity.
  - rewrite L. unfold g0; simpl. apply copy_raw_length.
Qed.

Lemma inflateObstacles_stats_ok g : stats_ok g -> stats_ok (inflateObstacles g).
Proof.
  intros ((Hwh & Hld & Hli & Hrad) & Hall & Hu & Hf & Ho).
  destruct (inflateObstacles_frame g) as [E L].
  rewrite E. unfold stats_ok, wf; simpl. rewrite L. repeat split; done.
Qed.

(** What [inflateObstacles] guarantees around one raw-occupied cell. *)
Lemma inflateObstacles_disk g ox oy gx gy :
  wf g ->
  isInMap g ox oy = true -> aget (data g) (index g ox oy) = -1 ->
  isInMap g gx gy = true ->
  0 <= inflationRadius g ->
  (gx - ox) * (gx - ox) + (gy - oy) * (gy - oy)
    <= inflationRadius g * inflationRadius g ->
  aget (inflatedData (inflateObstacles g)) (index g gx gy) = -1.
Proof.
  intros (Hwh & Hld & Hli & Hrad) Hino Hocc Hin HR Hd.
  unfold inflateObstacles.
  set (g0 := with_inflated g (copy_raw (data g) (inflatedData g))).
  set (Pre := fun g' : OccupancyGrid => ext g0 g').
  set (Post := fun g' : OccupancyGrid =>
                 ext g0 g' /\ aget (inflatedData g') (index g gx gy) = -1).
  assert (Hidx := index_in_range g gx gy Hin).
  assert (HPost : forall g1 g2, ext g1 g2 -> Post g1 -> Post g2).
  { intros g1 g2 H12 [H1 Hm]. split; [by eapply ext_trans |].
    destruct H12 as (_ & _ & Hmono). apply Hmono; [lia | done]. }
  assert (HPre : forall g1 g2, ext g1 g2 -> Pre g1 -> Pre g2).
  { intros g1 g2 H12 H1. by eapply ext_trans. }
  assert (Hino' := Hino). unfold isInMap in Hino'.
  repeat (apply andb_prop in Hino'; destruct Hino' as [Hino' ?]).
  enough (Post (foldl (fun g1 gy0 => foldl (inflateObstacles_at gy0) g1 (seqZ 0 (width g)))
                      g0 (seqZ 0 (height g)))) as [_ H'] by done.
  apply (foldl_establish _ Post Pre _ oy); try done.
  - intros g1 gy0. apply foldl_ext. intros. apply inflateObstacles_at_ext.
  - intros g1 Hg1.
    apply (foldl_establish _ Post Pre _ ox); try done.
    + intros. apply inflateObstacles_at_ext.
    + intros g2 Hg2. unfold Pre in Hg2.
      assert (Eg2 : g2 = with_inflated g (inflatedData g2)).
      { destruct Hg2 as (E & _). rewrite E. reflexivity. }
      unfold inflateObstacles_at.
      replace (data g2) with (data g) by (rewrite Eg2; reflexivity).
      replace (index g2 ox oy) with (index g ox oy) by (rewrite Eg2; reflexivity).
      rewrite Hocc. simpl. split.
      { eapply ext_trans; [done | apply inflateCell_ext]. }
      replace (index g gx gy) with (index g2 gx gy) by (rewrite Eg2; reflexivity).
      apply inflateCell_marks.
      * destruct Hg2 as (_ & L & _). rewrite L. unfold g0; simpl.
        rewrite copy_raw_length. rewrite Eg2; simpl. done.
      * rewrite Eg2. done.
      * rewrite Eg2. done.
      * rewrite Eg2. done.
    + apply elem_of_seqZ. lia.
  - apply elem_of_seqZ. lia.
Qed.

(** *** Dimensions never change *)

Lemma raytrace_loop_dims fuel : forall g x0 y0 x1 y1 dx dy sx sy err,
  width (raytrace_loop fuel g x0 y0 x1 y1 dx dy sx sy err) = width g /\
  height (raytrace_loop fuel g x0 y0 x1 y1 dx dy sx sy err) = height g.
Proof.
  assert (Hset : forall g x y v,
             width (setOccupancy g x y v) = width g /\
             height (setOccupancy g x y v) = height g).
  { intros g x y v. unfold setOccupancy.
    destruct (negb _); [done |]. destruct (_ =? _); done. }
  induction fuel as [| fuel IH]; intros g x0 y0 x1 y1 dx dy sx sy err;
    simpl; [done |].
  set (g1 := if isInMap g x0 y0 && negb (getOccupancy g x0 y0 =? -1)
             then setOccupancy g x0 y0 1 else g).
  assert (H1 : width g1 = width g /\ height g1 = height g).
  { unfold g1. destruct (_ && _); [apply Hset | done]. }
  destruct ((x0 =? x1) && (y0 =? y1)); [done |].
  destruct (2 * err >? - dy), (2 * err <? dx);
    match goal with
    | |- context [raytrace_loop fuel g1 ?a ?b ?c ?d ?e ?f ?h ?i ?j] =>
        destruct (IH g1 a b c d e f h i j) as [-> ->]; done
    end.
Qed.

Lemma apply_op_dims g op :
  width (apply_op g op) = width g /\ height (apply_op g op) = height g.
Proof.
  destruct op as [gx gy v | x0 y0 x1 y1 | |]; simpl.
  - unfold setOccupancy. destruct (negb _); [done |]. destruct (_ =? _); done.
  - apply raytrace_loop_dims.
  - destruct (inflateObstacles_frame g) as [-> _]. done.
  - done.
Qed.

Lemma apply_op_stats_ok g op : ternary_op op -> stats_ok g -> stats_ok (apply_op g op).
Proof.
  destruct op as [gx gy v | x0 y0 x1 y1 | |]; simpl; intros Hv Hok.
  - by apply setOccupancy_stats_ok.
  - by apply raytrace_loop_stats_ok.
  - by apply inflateObstacles_stats_ok.
  - by apply reset_stats_ok.
Qed.

Lemma run_ops_invariant ops : forall g,
  Forall ternary_op ops -> stats_ok g ->
  stats_ok (run_ops g ops) /\
  width (run_ops g ops) = width g /\ height (run_ops g ops) = height g.
Proof.
  unfold run_ops.
  induction ops as [| op ops IH]; intros g Hall Hok; simpl; [done |].
  apply Forall_cons in Hall as [Hop Hall].
  destruct (IH (apply_op g op) Hall (apply_op_stats_ok _ _ Hop Hok))
    as (H & Hw & Hh).
  destruct (apply_op_dims g op) as [Hw' Hh'].
  repeat split; try apply H; congruence.
Qed.

(** *** The three grid properties *)

(** C6. After any sequence of grid operations ([setOccupancy] with one of the
    values -1, 0, +1, [raytrace], [inflateObstacles], [reset]) on a fresh
    grid, the three counters sum to [width * height] and each counter is the
    number of raw cells holding its value. *)
Theorem stats_count_raw_cells (w h : Z) (r : Q) (ops : list GridOp) :
  0 <= w * h ->
  Forall ternary_op ops ->
  let g := run_ops (new w h r) ops in
  unknown (stats g) + free (stats g) + occupied (stats g) = w * h /\
  unknown (stats g) = count_val 0 (data g) /\
  free (stats g) = count_val 1 (data g) /\
  occupied (stats g) = count_val (-1) (data g) /\
  Z.of_nat (length (data g)) = w * h.
Proof.
  intros Hwh Hops g.
  destruct (run_ops_invariant ops (new w h r) Hops (new_stats_ok w h r Hwh))
    as (((_ & Hld & _ & _) & Hall & Hu & Hf & Ho) & Hw & Hh).
  fold g in Hld, Hall, Hu, Hf, Ho, Hw, Hh. simpl in Hw, Hh.
  rewrite Hw, Hh in Hld.
  pose proof (count_val_total _ Hall) as Htot.
  repeat split; try done; lia.
Qed.

(** C7. On a grid whose resolution is not zero, [worldToGrid] applied to the
    centre [gridToWorld gx gy] of an in-map cell gives back [(gx, gy)]. *)
Theorem worldToGrid_gridToWorld (g : OccupancyGrid) (gx gy : Z) :
  ~ (resolution g == 0)%Q ->
  isInMap g gx gy = true ->
  worldToGrid g (fst (gridToWorld g gx gy)) (snd (gridToWorld g gx gy)) = (gx, gy).
Proof.
  intros Hr _.
  assert (Hhalf : forall z : Z, Qfloor (inject_Z z + (1 # 2)) = z).
  { intros z.
    pose proof (Qfloor_le (inject_Z z + (1 # 2))) as Hlo.
    pose proof (Qlt_floor (inject_Z z + (1 # 2))) as Hhi.
    set (f := Qfloor (inject_Z z + (1 # 2))) in *.
    assert (inject_Z f < inject_Z (z + 1))%Q.
    { rewrite inject_Z_plus. eapply Qle_lt_trans; [apply Hlo |].
      apply Qplus_lt_r. reflexivity. }
    assert (inject_Z z < inject_Z (f + 1))%Q.
    { eapply Qle_lt_trans; [| apply Hhi].
      rewrite <- (Qplus_0_r (inject_Z z)) at 1. apply Qplus_le_r. discriminate. }
    rewrite <- Zlt_Qlt in *. lia. }
  unfold worldToGrid, gridToWorld; cbn [fst snd]. f_equal.
  - rewrite <- (Hhalf gx) at 2. apply Qfloor_comp. field. done.
  - rewrite <- (Hhalf gy) at 2. apply Qfloor_comp. field. done.
Qed.

(** C5. After [inflateObstacles], an in-map cell whose distance (in cells) to
    a raw-occupied cell is at most [inflationRadius] is occupied in the
    inflated array, and so is the raw-occupied cell itself; the radius is
    [ceil (robotRadius / resolution)]. *)
Theorem inflateObstacles_postcondition (g : OccupancyGrid) (gx gy ox oy : Z) :
  wf g ->
  isInMap g ox oy = true ->
  getOccupancy g ox oy = -1 ->
  isInMap g gx gy = true ->
  inflationRadius g = Qceiling (robotRadius g / resolution g) /\
  getInflatedOccupancy (inflateObstacles g) ox oy = -1 /\
  (0 <= inflationRadius g ->
   (gx - ox) * (gx - ox) + (gy - oy) * (gy - oy)
     <= inflationRadius g * inflationRadius g ->
   getInflatedOccupancy (inflateObstacles g) gx gy = -1).
Proof.
  intros Hwf Hino Hocc Hin.
  assert (Hraw : aget (data g) (index g ox oy) = -1).
  { unfold getOccupancy in Hocc. by rewrite Hino in Hocc. }
  destruct (inflateObstacles_frame g) as [E _].
  assert (Hmap : forall x y, isInMap (inflateObstacles g) x y = isInMap g x y)
    by (intros; rewrite E; reflexivity).
  assert (Hix : forall x y, index (inflateObstacles g) x y = index g x y)
    by (intros; rewrite E; reflexivity).
  split; [apply Hwf |]. split.
  - unfold getInflatedOccupancy. rewrite Hmap, Hino, Hix. cbn [negb].
    destruct Hwf as (Hwh & Hld & Hli & Hrad).
    assert (Hidx := index_in_range g ox oy Hino).
    clear E Hmap Hix. unfold inflateObstacles.
    set (g0 := with_inflated g (copy_raw (data g) (inflatedData g))).
    assert (H0 : aget (inflatedData g0) (index g ox oy) = -1).
    { unfold g0; simpl. rewrite copy_raw_get; [by rewrite Hraw | lia | lia | lia]. }
    assert (Hext : ext g0 (foldl (fun g1 gy0 =>
                     foldl (inflateObstacles_at gy0) g1 (seqZ 0 (width g)))
                     g0 (seqZ 0 (height g)))).
    { apply foldl_ext. intros. apply foldl_ext. intros.
      apply inflateObstacles_at_ext. }
    destruct Hext as (_ & _ & Hmono). apply Hmono; [lia | done].
  - intros HR Hd. unfold getInflatedOccupancy. rewrite Hmap, Hin, Hix.
    cbn [negb]. apply (inflateObstacles_disk g ox oy gx gy); assumption.
Qed.

End GridFacts.

(** ** Facts about the engine *)

Module EngineFacts.
Import Engine.

(** *** Comparisons *)

Lemma Qltb_lt a b : Qltb a b = true <-> (a < b)%Q.
Proof.
  unfold Qltb. rewrite negb_true_iff, <- not_true_iff_false, Qle_bool_iff.
  split; [apply Qnot_le_lt | apply Qlt_not_le].
Qed.

Lemma Qltb_ge a b : Qltb a b = false <-> (b <= a)%Q.
Proof.
  unfold Qltb. rewrite negb_false_iff, Qle_bool_iff. reflexivity.
Qed.

Lemma hypot_sq_nonneg dx dy : (0 <= hypot_sq dx dy)%Q.
Proof. unfold hypot_sq. nra. Qed.

(** [hypot_lt] is the comparison of the Euclidean length with [c]: for
    [c > 0], [sqrt (dx^2 + dy^2) < c] is [dx^2 + dy^2 < c^2], and no length
    is below a bound that is not positive. *)
Lemma hypot_lt_true dx dy c :
  hypot_lt dx dy c = true <-> (0 < c /\ hypot_sq dx dy < c * c)%Q.
Proof. unfold hypot_lt. rewrite andb_true_iff, !Qltb_lt. reflexivity. Qed.

Lemma hypot_lt_false dx dy c :
  (0 < c)%Q -> hypot_lt dx dy c = false <-> (c * c <= hypot_sq dx dy)%Q.
Proof.
  intros Hc. unfold hypot_lt. rewrite andb_false_iff, !Qltb_ge. split.
  - intros [H | H]; [lra | done].
  - auto.
Qed.

(** *** Scoring weights *)

Lemma invalid_number q :
  Qltb q 0 || Qltb 1 q = false <-> valid_weight (JsNumber q).
Proof.
  simpl. rewrite orb_false_iff, !Qltb_ge. reflexivity.
Qed.

Lemma read_write_same key q w :
  key ∈ validKeys -> read_weight key (write_weight key q w) = q.
Proof.
  unfold validKeys. rewrite !elem_of_cons, elem_of_nil.
  intros [-> | [-> | [-> | [-> | [-> | []]]]]]; reflexivity.
Qed.

Lemma read_write_other key key' q w :
  key ∈ validKeys -> key' ∈ validKeys -> key <> key' ->
  read_weight key (write_weight key' q w) = read_weight key w.
Proof.
  unfold validKeys. rewrite !elem_of_cons, !elem_of_nil.
  intros [-> | [-> | [-> | [-> | [-> | []]]]]]
         [-> | [-> | [-> | [-> | [-> | []]]]]] Hne;
    try reflexivity; exfalso; apply Hne; reflexivity.
Qed.




Lemma validKeys_NoDup : NoDup validKeys.
Proof.
  unfold validKeys. repeat (apply NoDup_cons; split);
    [ | | | | | apply NoDup_nil_2].
  all: rewrite ?elem_of_cons, elem_of_nil; intros H;
    repeat (destruct H as [H | H]; [discriminate H |]); done.
Qed.


End EngineFacts.

Module PathFacts.
Import Engine EngineFacts.

(** *** The Bresenham loop terminates at the end point *)

Lemma last_cons_some {A} (a : A) l p : last l = Some p -> last (a :: l) = Some p.
Proof. intros H. rewrite last_cons, H. reflexivity. Qed.

(** [rx], [ry] are the steps still to take on each axis. *)
Lemma bresenham_loop_ends x1 y1 dx dy sx sy fuel : forall x y err rx ry,
  (sx = 1 \/ sx = -1) -> (sy = 1 \/ sy = -1) ->
  0 <= rx <= dx -> 0 <= ry <= dy ->
  x1 - x = sx * rx -> y1 - y = sy * ry ->
  err = dx * (1 + dy - ry) - dy * (1 + dx - rx) ->
  (Z.to_nat (rx + ry) < fuel)%nat ->
  last (bresenham_loop fuel x y x1 y1 dx dy sx sy err) = Some (x1, y1).
Proof.
  induction fuel as [| fuel IH]; intros x y err rx ry Hsx Hsy Hrx Hry Hx Hy Herr Hfuel;
    [lia |].
  simpl.
  destruct (Z.eqb_spec x x1) as [Ex | Ex], (Z.eqb_spec y y1) as [Ey | Ey]; simpl.
  - by subst.
  - assert (rx = 0) by nia. assert (0 < ry) by nia. subst rx.
    destruct (Z.gtb_spec (2 * err) (- dy)) as [Hgx | Hgx]; [nia |].
    destruct (Z.ltb_spec (2 * err) dx) as [Hgy | Hgy]; [| nia].
    apply last_cons_some, (IH _ _ _ 0 (ry - 1)); try done; try lia; nia.
  - assert (ry = 0) by nia. assert (0 < rx) by nia. subst ry.
    destruct (Z.gtb_spec (2 * err) (- dy)) as [Hgx | Hgx]; [| nia].
    destruct (Z.ltb_spec (2 * err) dx) as [Hgy | Hgy]; [nia |].
    apply last_cons_some, (IH _ _ _ (rx - 1) 0); try done; try lia; nia.
  - assert (0 < rx) by nia. assert (0 < ry) by nia.
    destruct (Z.gtb_spec (2 * err) (- dy)) as [Hgx | Hgx],
             (Z.ltb_spec (2 * err) dx) as [Hgy | Hgy].
    + apply last_cons_some, (IH _ _ _ (rx - 1) (ry - 1)); try done; try lia; nia.
    + apply last_cons_some, (IH _ _ _ (rx - 1) ry); try done; try lia; nia.
    + apply last_cons_some, (IH _ _ _ rx (ry - 1)); try done; try lia; nia.
    + nia.
Qed.

(** [bresenhamLine] starts at its first point and, the loop having fuel
    enough, ends at its second point. *)
Lemma bresenhamLine_ends x0 y0 x1 y1 :
  head (bresenhamLine x0 y0 x1 y1) = Some (x0, y0) /\
  last (bresenhamLine x0 y0 x1 y1) = Some (x1, y1).
Proof.
  unfold bresenhamLine. split.
  - replace (Z.to_nat (Z.abs (x1 - x0) + Z.abs (y1 - y0) + 1))
      with (S (Z.to_nat (Z.abs (x1 - x0) + Z.abs (y1 - y0)))) by lia.
    reflexivity.
  - apply (bresenham_loop_ends _ _ _ _ _ _ _ _ _ _
             (Z.abs (x1 - x0)) (Z.abs (y1 - y0))).
    + destruct (x0 <? x1); auto.
    + destruct (y0 <? y1); auto.
    + lia.
    + lia.
    + destruct (Z.ltb_spec x0 x1); lia.
    + destruct (Z.ltb_spec y0 y1); lia.
    + lia.
    + lia.
Qed.

Lemma isPathClear_cells m sx sy gx gy :
  isPathClear m sx sy gx gy = true <->
  forall cell,
    cell ∈ bresenhamLine (Grid.worldToGrid m sx sy).1 (Grid.worldToGrid m sx sy).2
                         (Grid.worldToGrid m gx gy).1 (Grid.worldToGrid m gx gy).2 ->
    Grid.isInMap m cell.1 cell.2 = true /\
    Grid.getInflatedOccupancy m cell.1 cell.2 = 1.
Proof.
  unfold isPathClear. cbv zeta. rewrite forallb_forall. split.
  - intros H cell Hin. apply list_elem_of_In in Hin. specialize (H cell Hin).
    apply andb_prop in H as [H1 H2]. apply Z.eqb_eq in H2. done.
  - intros H cell Hin. apply list_elem_of_In in Hin.
    destruct (H cell Hin) as [H1 H2]. rewrite H1, H2. reflexivity.
Qed.

(** *** What a scored frontier has passed *)

Section Scorer.
Variable sqrtQ : Q -> Q.

Lemma evaluate_Some s cur f score g :
  evaluate sqrtQ s cur f = Some (score, g) ->
  gx g = fx f /\ gy g = fy f /\
  existsb (fun u => hypot_lt (fx f - p2x u) (fy f - p2y u) 2)
          (unreachableGoals s) = false /\
  isPathClear (map s) (px cur) (py cur) (fx f) (fy f) = true.
Proof.
  unfold evaluate. cbv zeta.
  destruct (useROI (config s) && _); [done |].
  destruct (existsb _ _) eqn:Hun; [done |].
  destruct (isPathClear _ _ _ _ _) eqn:Hpath; [| done]. cbn [negb].
  destruct (Qltb 50 _ && _); [done |].
  destruct (negb (Grid.isInMap _ _ _)); [done |].
  destruct (Grid.getOccupancy _ _ _ =? -1); [done |].
  destruct (hypot_lt _ _ (1 # 2)); [done |].
  destruct (hypot_gt _ _ 15); [done |].
  destruct (negb (isWithinBounds _ _ _ _)); [done |].
  destruct (historyPenalty _ _ _ _) as [penalty skip].
  destruct skip; [done |].
  intros [= <- <-]. done.
Qed.

Lemma evaluate_blocked s cur f :
  isPathClear (map s) (px cur) (py cur) (fx f) (fy f) = false ->
  evaluate sqrtQ s cur f = None.
Proof.
  intros Hpath. unfold evaluate. cbv zeta.
  destruct (useROI (config s) && _); [done |].
  destruct (existsb _ _); [done |].
  by rewrite Hpath.
Qed.

Lemma best_from_candidates s cur fs : forall best r,
  foldl (fun best f => better best (evaluate sqrtQ s cur f)) best fs = Some r ->
  best = Some r \/ exists f, f ∈ fs /\ evaluate sqrtQ s cur f = Some r.
Proof.
  induction fs as [| f fs IH]; intros best r; simpl; [by left |].
  intros H. apply IH in H as [H | (f' & Hin & H)].
  - unfold better in H.
    destruct (evaluate sqrtQ s cur f) as [c |] eqn:Hev; [| by left].
    destruct best as [b |].
    + destruct (Qltb b.1 c.1); [right | by left].
      exists f. split; [apply list_elem_of_here | congruence].
    + right. exists f. split; [apply list_elem_of_here | congruence].
  - right. exists f'. split; [by apply list_elem_of_further | done].
Qed.

Lemma selectBestFrontier_Some s fs cur g s' :
  selectBestFrontier sqrtQ s fs cur = (Some g, s') ->
  (exists f score, f ∈ fs /\ evaluate sqrtQ s cur f = Some (score, g)) /\
  exists d, s' = set_lastGoalDirection d s.
Proof.
  unfold selectBestFrontier.
  destruct (foldl _ None fs) as [[score best] |] eqn:Hfold; [| done].
  intros [= <- <-]. split; [| by eexists].
  apply best_from_candidates in Hfold as [? | (f & Hin & Hev)]; [done |].
  by exists f, score.
Qed.

(** C4. A goal returned by [selectBestFrontier] is one of the candidates,
    lies at least 2.0 m from every record of [unreachableGoals], and every
    cell of the Bresenham line from the current cell to its cell (a line that
    starts and ends at these two cells) is in the map and free (+1) in the
    inflated array; a candidate whose line meets any other cell is rejected. *)
Theorem selectBestFrontier_postcondition
    (s : State) (fs : list Frontier) (cur : Pos) (g : Goal) (s' : State) :
  selectBestFrontier sqrtQ s fs cur = (Some g, s') ->
  let m := map s in
  let startGrid := Grid.worldToGrid m (px cur) (py cur) in
  let goalGrid := Grid.worldToGrid m (gx g) (gy g) in
  let line := bresenhamLine startGrid.1 startGrid.2 goalGrid.1 goalGrid.2 in
  (exists f, f ∈ fs /\ gx g = fx f /\ gy g = fy f) /\
  (forall u, u ∈ unreachableGoals s ->
             (2 * 2 <= hypot_sq (gx g - p2x u) (gy g - p2y u))%Q) /\
  head line = Some startGrid /\ last line = Some goalGrid /\
  (forall cell, cell ∈ line ->
                Grid.isInMap m cell.1 cell.2 = true /\
                Grid.getInflatedOccupancy m cell.1 cell.2 = 1) /\
  (forall f : Frontier,
      (exists cell,
          cell ∈ bresenhamLine startGrid.1 startGrid.2
                   (Grid.worldToGrid m (fx f) (fy f)).1
                   (Grid.worldToGrid m (fx f) (fy f)).2 /\
          ~ (Grid.isInMap m cell.1 cell.2 = true /\
             Grid.getInflatedOccupancy m cell.1 cell.2 = 1)) ->
      evaluate sqrtQ s cur f = None).
Proof.
  intros Hsel m startGrid goalGrid line.
  apply selectBestFrontier_Some in Hsel as ((f & score & Hin & Hev) & _).
  apply evaluate_Some in Hev as (Hx & Hy & Hun & Hpath).
  split; [by exists f |]. split; [| split; [| split; [| split]]].
  - intros u Hu. rewrite Hx, Hy.
    apply (hypot_lt_false _ _ 2); [reflexivity |].
    destruct (hypot_lt _ _ 2) eqn:Hlt; [| done].
    assert (existsb (fun u => hypot_lt (fx f - p2x u) (fy f - p2y u) 2)
                    (unreachableGoals s) = true); [| congruence].
    apply existsb_exists. exists u. split; [by apply list_elem_of_In | done].
  - apply bresenhamLine_ends.
  - apply bresenhamLine_ends.
  - unfold line, goalGrid. rewrite Hx, Hy.
    by apply isPathClear_cells.
  - intros f' (cell & Hcell & Hbad). apply evaluate_blocked.
    destruct (isPathClear (map s) (px cur) (py cur) (fx f') (fy f')) eqn:Hp;
      [| done].
    exfalso. apply Hbad.
    exact (proj1 (isPathClear_cells _ _ _ _ _) Hp cell Hcell).
Qed.

End Scorer.

End PathFacts.

Module MissionFacts.
Import Engine EngineFacts.

(** *** Waypoints *)

(** [floor_half_hypot dx dy] is the floor of half the Euclidean length. *)
Lemma floor_half_hypot_spec dx dy :
  let k := floor_half_hypot dx dy in
  0 <= k /\
  (inject_Z (2 * k) * inject_Z (2 * k) <= hypot_sq dx dy)%Q /\
  (hypot_sq dx dy < inject_Z (2 * (k + 1)) * inject_Z (2 * (k + 1)))%Q.
Proof.
  unfold floor_half_hypot. cbv zeta.
  set (d2 := hypot_sq dx dy).
  assert (Hnn : (0 <= d2)%Q) by apply hypot_sq_nonneg.
  set (a := Qfloor (d2 / 4)).
  assert (Ha : 0 <= a).
  { unfold a. change 0 with (Qfloor 0). apply Qfloor_resp_le.
    apply Qle_shift_div_l; [reflexivity | lra]. }
  pose proof (Z.sqrt_spec a Ha) as [Hlo Hhi].
  pose proof (Z.sqrt_nonneg a) as Hsq.
  set (k := Z.sqrt a) in *.
  pose proof (Qfloor_le (d2 / 4)) as Hfl.
  pose proof (Qlt_floor (d2 / 4)) as Hfu.
  fold a in Hfl, Hfu.
  split; [done |]. split.
  - rewrite <- inject_Z_mult.
    assert (H1 : (inject_Z (k * k) <= inject_Z a)%Q) by (rewrite <- Zle_Qle; lia).
    assert (H2 : (inject_Z (2 * k * (2 * k)) == 4 * inject_Z (k * k))%Q).
    { rewrite <- (inject_Z_mult 4). apply inject_Z_injective. lia. }
    rewrite H2.
    assert (d2 / 4 * 4 == d2)%Q by (field).
    lra.
  - rewrite <- inject_Z_mult.
    assert (H1 : (inject_Z (a + 1) <= inject_Z ((k + 1) * (k + 1)))%Q)
      by (rewrite <- Zle_Qle; lia).
    assert (H2 : (inject_Z (2 * (k + 1) * (2 * (k + 1)))
                  == 4 * inject_Z ((k + 1) * (k + 1)))%Q).
    { rewrite <- (inject_Z_mult 4). apply inject_Z_injective. lia. }
    rewrite H2.
    assert (d2 / 4 * 4 == d2)%Q by (field).
    lra.
Qed.

Lemma waypoint_lookup start goal i :
  let n := Z.max 2 (floor_half_hypot (gx goal - px start) (gy goal - py start)) in
  1 <= i <= n ->
  generateWaypoints start goal !! Z.to_nat (i - 1) =
  Some (mkWaypoint
          (px start + (gx goal - px start) * (inject_Z i / inject_Z n))%Q
          (py start + (gy goal - py start) * (inject_Z i / inject_Z n))%Q
          (option_map
             (fun z => (pz start + (z - pz start) * (inject_Z i / inject_Z n))%Q)
             (gz goal))).
Proof.
  intros n Hi. unfold generateWaypoints. fold n.
  rewrite list_lookup_fmap, lookup_seqZ_lt by lia.
  simpl. replace (1 + Z.of_nat (Z.to_nat (i - 1))) with i by lia. reflexivity.
Qed.

Lemma waypoints_length start goal :
  Z.of_nat (length (generateWaypoints start goal)) =
  Z.max 2 (floor_half_hypot (gx goal - px start) (gy goal - py start)).
Proof. unfold generateWaypoints. rewrite length_fmap, length_seqZ. lia. Qed.

Lemma prefix_exploration suffix :
  String.prefix "exploration_" ("exploration_" ++ suffix) = true.
Proof. simpl. by destruct suffix. Qed.

(** C8 (as amended). [generateWaypoints] returns [max 2 (floor (d / 2))]
    waypoints, the [i]-th at parameter [i / n] on the segment from the start
    to the goal, the last one at the goal; consecutive waypoints are [d / n]
    apart in xy, which is at least 2 m and less than 3 m once [d >= 4];
    [publishExplorationMission] sends them as a mission whose id starts
    with "exploration_", one task per waypoint, each with yaw 0. *)
Theorem generateWaypoints_mission
    (start : Pos) (goal : Goal) (now : Z) (s : State) :
  currentPos s = Some start ->
  let dx := (gx goal - px start)%Q in
  let dy := (gy goal - py start)%Q in
  let n := Z.max 2 (floor_half_hypot dx dy) in
  let wps := generateWaypoints start goal in
  let s' := publishExplorationMission now goal s in
  Z.of_nat (length wps) = n /\
  (forall i, 1 <= i <= n ->
     wps !! Z.to_nat (i - 1) =
     Some (mkWaypoint
             (px start + dx * (inject_Z i / inject_Z n))%Q
             (py start + dy * (inject_Z i / inject_Z n))%Q
             (option_map
                (fun z => (pz start + (z - pz start) * (inject_Z i / inject_Z n))%Q)
                (gz goal)))) /\
  (exists w, last wps = Some w /\ at_goal w goal) /\
  (forall i w w', wps !! i = Some w -> wps !! S i = Some w' ->
     (spacing_sq w w' == hypot_sq dx dy / (inject_Z n * inject_Z n))%Q) /\
  ((4 * 4 <= hypot_sq dx dy)%Q ->
   (2 * 2 <= hypot_sq dx dy / (inject_Z n * inject_Z n))%Q /\
   (hypot_sq dx dy / (inject_Z n * inject_Z n) < 3 * 3)%Q) /\
  exists m,
    outbox s' = PublishExecution_after500 (mission_id m) 0
                  :: PublishMission m :: outbox s /\
    mission_id m = ("exploration_" ++ string_of_Z now)%string /\
    String.prefix "exploration_" (mission_id m) = true /\
    position <$> tasks m = wps /\
    Forall (fun t => yaw t = 0) (tasks m) /\
    currentMissionId s' = Some (mission_id m).
Proof.
  intros Hcur dx dy n wps s'.
  assert (Hn2 : 2 <= n) by (unfold n; lia).
  assert (Hnq : ~ (inject_Z n == 0)%Q).
  { change 0%Q with (inject_Z 0). rewrite inject_Z_injective. lia. }
  assert (Hlen : Z.of_nat (length wps) = n) by apply waypoints_length.
  split; [done |]. split; [apply waypoint_lookup |]. split; [| split; [| split]].
  - pose proof (waypoint_lookup start goal n) as Hl. cbv zeta in Hl.
    fold dx dy in Hl. fold n in Hl. specialize (Hl ltac:(lia)).
    eexists. split.
    + rewrite last_lookup. fold wps in Hl.
      replace (Nat.pred (length wps)) with (Z.to_nat (n - 1)) by lia. exact Hl.
    + unfold at_goal. cbn [wx wy wz]. unfold dx, dy.
      split; [field; done | split; [field; done |]].
      destruct (gz goal); cbn [option_map]; [field; done | done].
  - intros i w w' Hw Hw'.
    assert (Hi : (S i < length wps)%nat) by (by eapply lookup_lt_Some).
    pose proof (waypoint_lookup start goal (Z.of_nat i + 1)) as H1.
    pose proof (waypoint_lookup start goal (Z.of_nat i + 2)) as H2.
    cbv zeta in H1, H2. fold dx dy in H1, H2. fold n in H1, H2. fold wps in H1, H2.
    replace (Z.to_nat (Z.of_nat i + 1 - 1)) with i in H1 by lia.
    replace (Z.to_nat (Z.of_nat i + 2 - 1)) with (S i) in H2 by lia.
    rewrite H1 in Hw by lia. rewrite H2 in Hw' by lia.
    injection Hw as <-. injection Hw' as <-.
    unfold spacing_sq, hypot_sq. cbn [wx wy wz].
    rewrite !inject_Z_plus. field. done.
  - intros Hfar.
    destruct (floor_half_hypot_spec dx dy) as (Hk0 & Hlo & Hhi).
    set (k := floor_half_hypot dx dy) in *.
    assert (Hk2 : 2 <= k).
    { destruct (Z_lt_le_dec k 2) as [Hlt | Hge]; [| done]. exfalso.
      assert ((inject_Z (2 * (k + 1)) * inject_Z (2 * (k + 1)) <= 4 * 4)%Q).
      { rewrite <- inject_Z_mult. change (4 * 4)%Q with (inject_Z 16).
        rewrite <- Zle_Qle. nia. }
      lra. }
    assert (Hnk : n = k) by (unfold n; fold k; lia).
    assert (Hpos : (0 < inject_Z n * inject_Z n)%Q).
    { rewrite <- inject_Z_mult. change 0%Q with (inject_Z 0).
      rewrite <- Zlt_Qlt. nia. }
    split.
    + apply Qle_shift_div_l; [done |].
      rewrite Hnk.
      assert ((2 * 2 * (inject_Z k * inject_Z k)
               == inject_Z (2 * k) * inject_Z (2 * k))%Q) as ->.
      { rewrite !inject_Z_mult. ring. }
      done.
    + apply Qlt_shift_div_r; [done |].
      rewrite Hnk. eapply Qlt_le_trans; [apply Hhi |].
      rewrite <- !inject_Z_mult. change (3 * 3)%Q with (inject_Z 9).
      rewrite <- inject_Z_mult, <- Zle_Qle. nia.
  - unfold s', publishExplorationMission. cbv zeta.
    change (currentPos (set_currentMissionId _ s)) with (currentPos s).
    rewrite Hcur.
    exists (mission_of ("exploration_" ++ string_of_Z now)%string wps).
    split; [reflexivity |]. cbn [mission_of mission_id tasks].
    split; [reflexivity |]. split; [apply prefix_exploration |].
    split; [| split; [| reflexivity]].
    + rewrite <- list_fmap_compose. apply list_fmap_id.
    + apply Forall_fmap. by apply Forall_true.
Qed.

End MissionFacts.

Module StateFacts.
Import Engine EngineFacts PathFacts.

(** Projections of a state built by the setters. *)
Ltac simp_state :=
  cbn [config isExploring isPaused startPos currentPos startTime lastUpdateTime
       map frontiers visitedGoals goalAttempts unreachableGoals currentMissionId
       isWaitingForArrival isPreparingNextGoal missionStartTime lastVelocityCheck
       stuckStartTime isReturningHome returnHomeMissionId sceneBounds
       lastGoalDirection lastStatusPublishTime currentGoal pendingStarts outbox
       set_config set_isExploring set_isPaused set_startPos set_currentPos
       set_startTime set_lastUpdateTime set_map set_frontiers set_visitedGoals
       set_goalAttempts set_unreachableGoals set_currentMissionId
       set_isWaitingForArrival set_isPreparingNextGoal set_missionStartTime
       set_lastVelocityCheck set_stuckStartTime set_isReturningHome
       set_returnHomeMissionId set_sceneBounds set_lastGoalDirection
       set_lastStatusPublishTime set_currentGoal set_pendingStarts set_outbox
       send] in *.

(** *** Goals with the same key are close *)

Lemma toFixed1_close x x' :
  toFixed1 x = toFixed1 x' ->
  (- (1 # 10) < x - x' /\ x - x' < 1 # 10)%Q.
Proof.
  unfold toFixed1. intros H.
  assert (Hs := f_equal fst H). assert (Hn := f_equal snd H).
  cbn [fst snd] in Hs, Hn. clear H.
  pose proof (Qfloor_le (Qabs x * 10 + (1 # 2))) as L1.
  pose proof (Qlt_floor (Qabs x * 10 + (1 # 2))) as U1.
  pose proof (Qfloor_le (Qabs x' * 10 + (1 # 2))) as L2.
  pose proof (Qlt_floor (Qabs x' * 10 + (1 # 2))) as U2.
  rewrite Hn in L1, U1.
  set (n := Qfloor (Qabs x' * 10 + (1 # 2))) in *.
  rewrite inject_Z_plus in U1, U2. change (inject_Z 1) with 1%Q in U1, U2.
  destruct (Qltb x 0) eqn:Hx; symmetry in Hs.
  - apply Qltb_lt in Hx, Hs.
    rewrite (Qabs_neg x) in L1, U1 by lra.
    rewrite (Qabs_neg x') in L2, U2 by lra.
    lra.
  - apply Qltb_ge in Hx, Hs.
    rewrite (Qabs_pos x) in L1, U1 by lra.
    rewrite (Qabs_pos x') in L2, U2 by lra.
    lra.
Qed.

Lemma goalKey_close x y x' y' :
  goalKey x y = goalKey x' y' -> hypot_lt (x - x') (y - y') 2 = true.
Proof.
  unfold goalKey. intros H.
  assert (Hx := f_equal fst H). assert (Hy := f_equal snd H).
  cbn [fst snd] in Hx, Hy. clear H.
  apply toFixed1_close in Hx, Hy.
  apply hypot_lt_true. split; [reflexivity |]. unfold hypot_sq. nra.
Qed.

(** *** The invariant is kept by every handler *)

Ltac triv := solve [auto | intros; discriminate | eauto].

Ltac inv_leaf :=
  unfold Inv, InvC in *; simp_state;
  intuition (try discriminate; try congruence; eauto).

Lemma Inv_init : Inv init.
Proof.
  unfold Inv, InvC, init; simp_state.
  repeat split; try (intros; discriminate); try (intros [? ?]; discriminate).
  all: try (intros; lia); try (intros k n H; by rewrite lookup_empty in H).
Qed.

Lemma Inv_send o s : Inv s -> Inv (send o s).
Proof. intros H. exact H. Qed.

Lemma Inv_returnToHome now s : Inv s -> Inv (returnToHome now s).
Proof. intros H. unfold returnToHome. repeat case_match; exact H. Qed.

Lemma Inv_stopExploration reason now s : Inv s -> Inv (stopExploration reason now s).
Proof.
  intros H. unfold stopExploration.
  destruct (isExploring s) eqn:Hex; simpl; [| done].
  assert (H1 : Inv (set_isWaitingForArrival false
                      (set_isPaused false (set_isExploring false s))))
    by inv_leaf.
  repeat case_match; try done; by apply Inv_returnToHome.
Qed.

Lemma Inv_publishExplorationStatus s : Inv s -> Inv (publishExplorationStatus s).
Proof. intros H. exact H. Qed.

Lemma Inv_publishExplorationMission now g s :
  Inv s -> Inv (publishExplorationMission now g s).
Proof. intros H. unfold publishExplorationMission. case_match; exact H. Qed.

Lemma Inv_cloud_update now points cur s : Inv s -> Inv (cloud_update now points cur s).
Proof.
  intros H. unfold cloud_update, calculateSceneBounds, publishExplorationStatus.
  repeat case_match; exact H.
Qed.

(** [record_failed_attempt] touches the two bookkeeping fields only. *)
Lemma record_failed_attempt_frame s :
  record_failed_attempt s =
  set_unreachableGoals (unreachableGoals (record_failed_attempt s))
    (set_goalAttempts (goalAttempts (record_failed_attempt s)) s).
Proof.
  unfold record_failed_attempt.
  destruct (currentGoal s); [| by destruct s].
  destruct (maxAttempts <=? _); by destruct s.
Qed.

(** The attempt recorded while the engine waits for an arrival. *)
Lemma record_failed_attempt_spec s :
  Inv s -> isWaitingForArrival s = true ->
  exists g, currentGoal s = Some g /\
            attempt_recorded g s (record_failed_attempt s).
Proof.
  intros (I1 & I2 & I3 & I4 & I5 & I6 & I7) Hw.
  destruct (I6 Hw) as (g & Hg & Hfar). exists g. split; [done |].
  unfold attempt_recorded, record_failed_attempt. rewrite Hg. cbv zeta.
  set (k := goalKey (gx g) (gy g)).
  assert (Hn : 0 <= default 0 (goalAttempts s !! k) < maxAttempts).
  { destruct (goalAttempts s !! k) as [n |] eqn:Hk; simpl; [| unfold maxAttempts; lia].
    destruct (I7 k n Hk) as [Hr Hmax].
    destruct (Z.eq_dec n maxAttempts) as [-> | Hne]; [| lia].
    destruct (Hmax eq_refl) as (u & Hu & Hku).
    specialize (Hfar u Hu).
    assert (hypot_lt (gx g - p2x u) (gy g - p2y u) 2 = true); [| congruence].
    apply goalKey_close. by rewrite Hku. }
  set (n := default 0 (goalAttempts s !! k)) in *.
  destruct (Z.leb_spec maxAttempts (n + 1)), (Z.eqb_spec (n + 1) maxAttempts);
    simp_state; try lia; repeat split; try done; lia.
Qed.

(** After a recorded attempt and with the waiting state cleared the
    invariant holds again. *)
Lemma Inv_after_failed_attempt s s' :
  Inv s -> isWaitingForArrival s = true ->
  isExploring s' = isExploring s -> isPaused s' = isPaused s ->
  isWaitingForArrival s' = false ->
  goalAttempts s' = goalAttempts (record_failed_attempt s) ->
  unreachableGoals s' = unreachableGoals (record_failed_attempt s) ->
  startPos s' = startPos s -> currentPos s' = currentPos s ->
  pendingStarts s' = pendingStarts s ->
  Inv s'.
Proof.
  intros HI Hw E1 E2 E3 E4 E5 E6 E7 E8.
  destruct (record_failed_attempt_spec s HI Hw) as (g & Hg & Hatt & Hle & Hun).
  destruct HI as (I1 & I2 & I3 & I4 & I5 & I6 & I7).
  unfold Inv, InvC. rewrite E1, E2, E3, E4, E5, E6, E7, E8, Hatt, Hun.
  do 5 (split; [triv |]). split; [intros; discriminate |].
  set (k := goalKey (gx g) (gy g)) in *.
  set (n0 := default 0 (goalAttempts s !! k)) in *.
  assert (Hn0 : 0 <= n0).
  { unfold n0. destruct (goalAttempts s !! k) as [n |] eqn:Hk; simpl; [| lia].
    destruct (I7 k n Hk). lia. }
  intros k' n Hk'.
  destruct (decide (k = k')) as [<- | Hne].
  - rewrite lookup_insert_eq in Hk'. injection Hk' as <-.
    split; [lia |]. intros Hmax.
    destruct (Z.eqb_spec (n0 + 1) maxAttempts); [| done].
    exists (mkPoint2 (gx g) (gy g)). split; [| done].
    apply elem_of_app. right. apply list_elem_of_here.
  - rewrite lookup_insert_ne in Hk' by done.
    destruct (I7 k' n Hk') as [Hr Hmax]. split; [done |].
    intros Hn. destruct (Hmax Hn) as (u & Hu & Hku). exists u. split; [| done].
    destruct (n0 + 1 =? maxAttempts); [| done].
    apply elem_of_app. by left.
Qed.

Lemma Inv_arrival_timeout_check now s : Inv s -> Inv (arrival_timeout_check now s).
Proof.
  intros H. unfold arrival_timeout_check.
  destruct (isWaitingForArrival s) eqn:Hw; simpl; [| done].
  destruct (truthy (missionStartTime s)); [| done].
  destruct (arrivalTimeout <? _); [| done].
  apply (Inv_after_failed_attempt s); try done;
    rewrite record_failed_attempt_frame; reflexivity.
Qed.

Lemma stuck_check_cases now newPos s s2 b :
  stuck_check now newPos s = (s2, b) ->
  (b = false /\ (s2 = s \/ exists t, s2 = set_stuckStartTime t s)) \/
  (b = true /\
   s2 = set_lastVelocityCheck None
          (set_stuckStartTime None
             (set_missionStartTime None
                (set_currentGoal None
                   (set_isWaitingForArrival false (record_failed_attempt s)))))).
Proof.
  unfold stuck_check.
  destruct (lastVelocityCheck s) as [[[lx ly] ltime] |];
    [| intros [= <- <-]; left; auto].
  destruct (velocity_below _ _ _).
  - destruct (negb (truthy (stuckStartTime s)));
      [intros [= <- <-]; left; eauto |].
    destruct (STUCK_THRESHOLD <? _); intros [= <- <-]; [right | left]; auto.
  - destruct (truthy (stuckStartTime s)); intros [= <- <-]; left; eauto.
Qed.

Lemma Inv_arrival_check now newPos goal s :
  Inv s -> Inv (arrival_check now newPos goal s).
Proof.
  intros H. unfold arrival_check. cbv zeta.
  set (s2 := if hypot_le _ _ _ && _ then _ else _).
  assert (H2 : Inv s2).
  { unfold s2. by destruct (hypot_le _ _ _ && _). }
  assert (Hatt : goalAttempts s2 = goalAttempts s).
  { unfold s2. by destruct (hypot_le _ _ _ && _). }
  clearbody s2.
  destruct (hypot_lt _ _ _); [| done].
  unfold Inv, InvC in *; simp_state.
  destruct H2 as (I1 & I2 & I3 & I4 & I5 & I6 & I7).
  do 5 (split; [triv |]). split; [intros; discriminate |].
  intros k n Hk. apply lookup_delete_Some in Hk as [_ Hk]. by apply I7.
Qed.

Lemma Inv_onOdometryReceived now position s :
  Inv s -> Inv (onOdometryReceived now position s).
Proof.
  intros H. unfold onOdometryReceived.
  destruct position as [newPos |]; [| done].
  cbv zeta. set (s1 := home_check newPos s).
  assert (H1 : Inv s1).
  { unfold s1, home_check. repeat case_match; exact H. }
  clearbody s1. clear H.
  assert (Hcur : forall st, Inv st -> Inv (set_currentPos (Some newPos) st)).
  { intros st Hst. unfold Inv, InvC in *; simp_state.
    destruct Hst as (I1 & I2 & I3 & I4 & I5 & I6 & I7).
    do 4 (split; [triv |]). split; [by eauto |]. split; auto. }
  destruct (isWaitingForArrival s1) eqn:Hw; [| by apply Hcur].
  destruct (currentGoal s1) as [goal |] eqn:Hg; [| by apply Hcur].
  destruct (stuck_check now newPos s1) as [s2 b] eqn:Hst.
  apply stuck_check_cases in Hst as [[-> [-> | [t ->]]] | [-> ->]].
  - by apply Hcur, Inv_arrival_check.
  - by apply Hcur, Inv_arrival_check.
  - apply (Inv_after_failed_attempt s1); try done;
      rewrite record_failed_attempt_frame; reflexivity.
Qed.

Section Invariant.
Variable sqrtQ : Q -> Q.

Lemma selectBestFrontier_None s fs cur s' :
  selectBestFrontier sqrtQ s fs cur = (None, s') -> s' = s.
Proof.
  unfold selectBestFrontier. destruct (foldl _ None fs) as [[? ?] |]; congruence.
Qed.

(** A chosen goal is at least 2 m from every blacklisted goal. *)
Lemma selectBestFrontier_far s fs cur g s' :
  selectBestFrontier sqrtQ s fs cur = (Some g, s') ->
  forall u, u ∈ unreachableGoals s ->
            hypot_lt (gx g - p2x u) (gy g - p2y u) 2 = false.
Proof.
  intros Hsel u Hu.
  apply selectBestFrontier_Some in Hsel as ((f & score & Hin & Hev) & _).
  apply evaluate_Some in Hev as (Hx & Hy & Hun & _).
  rewrite Hx, Hy.
  destruct (hypot_lt _ _ 2) eqn:Hlt; [| done].
  assert (existsb (fun u => hypot_lt (fx f - p2x u) (fy f - p2y u) 2)
                  (unreachableGoals s) = true); [| congruence].
  apply existsb_exists. exists u. split; [by apply list_elem_of_In | done].
Qed.

Lemma Inv_explorationStep now s : Inv s -> Inv (explorationStep sqrtQ now s).
Proof.
  intros H. unfold explorationStep.
  destruct (negb (isExploring s) || isPaused s) eqn:E1; [done |].
  destruct (isWaitingForArrival s && negb (isPreparingNextGoal s)); [done |].
  apply orb_false_elim in E1 as [Hex _]. apply negb_false_iff in Hex.
  set (s1 := if isPreparingNextGoal s then set_isWaitingForArrival false s else s).
  assert (H1 : Inv s1).
  { unfold s1. destruct (isPreparingNextGoal s); [inv_leaf | done]. }
  assert (Hex1 : isExploring s1 = true).
  { unfold s1. by destruct (isPreparingNextGoal s). }
  clearbody s1.
  destruct (Qltb _ _); [by apply Inv_stopExploration |].
  destruct (currentPos s1) as [cur |] eqn:Hcur; [| done].
  destruct (startPos s1) as [sp |] eqn:Hsp; [| done].
  destruct (hypot_gt _ _ _); [by apply Inv_stopExploration |].
  set (s2 := set_frontiers (detectFrontiers s1 cur) s1).
  assert (H2 : Inv s2) by exact H1.
  assert (Hex2 : isExploring s2 = true) by exact Hex1.
  assert (Hun2 : unreachableGoals s2 = unreachableGoals s1) by reflexivity.
  clearbody s2.
  destruct (frontiers s2) eqn:Hfs; [by apply Inv_stopExploration |].
  rewrite <- Hfs.
  destruct (selectBestFrontier sqrtQ s2 (frontiers s2) cur) as [[g |] s3] eqn:Hsel.
  - pose proof (selectBestFrontier_far _ _ _ _ _ Hsel) as Hfar.
    apply selectBestFrontier_Some in Hsel as (_ & d & ->).
    apply Inv_publishExplorationStatus, Inv_publishExplorationMission.
    unfold Inv, InvC in *; simp_state.
    destruct H2 as (I1 & I2 & I3 & I4 & I5 & I6 & I7).
    do 5 (split; [triv |]). split.
    + intros _. exists g. split; [reflexivity | exact Hfar].
    + exact I7.
  - apply selectBestFrontier_None in Hsel as ->. by apply Inv_stopExploration.
Qed.

Lemma Inv_plan_if_due now s : Inv s -> Inv (plan_if_due sqrtQ now s).
Proof.
  intros H. unfold plan_if_due.
  destruct (_ && _ && _); [| done]. destruct (_ <? _); [| done].
  by apply (Inv_explorationStep now s) in H.
Qed.

Lemma Inv_onPointCloudReceived now points s :
  Inv s -> Inv (onPointCloudReceived sqrtQ now points s).
Proof.
  intros H. unfold onPointCloudReceived.
  destruct (currentPos s) as [cur |]; [| done].
  destruct points as [| p points]; [done |].
  by apply Inv_plan_if_due, Inv_arrival_timeout_check, Inv_cloud_update.
Qed.

Lemma Inv_startExploration_begin now options s :
  Inv s -> Inv (startExploration_begin now options s).
Proof.
  intros H. unfold startExploration_begin.
  destruct (isExploring s) eqn:Hex; [done |].
  set (s1 := match o_startPosition options with
             | Some p => set_currentPos (Some p) s | None => s end).
  assert (H1 : Inv s1).
  { unfold s1. destruct (o_startPosition options); [| done].
    unfold Inv, InvC in *; simp_state.
    destruct H as (I1 & I2 & I3 & I4 & I5 & I6 & I7).
    do 4 (split; [triv |]). split; [by eauto |]. split; auto. }
  assert (Hex1 : isExploring s1 = false).
  { unfold s1. by destruct (o_startPosition options). }
  clearbody s1. clear H.
  destruct (currentPos s1) as [cur |] eqn:Hcur; [| done].
  unfold Inv, InvC in *; simp_state.
  destruct H1 as (I1 & I2 & I3 & I4 & I5 & I6 & I7).
  rewrite Hex1, Hcur.
  do 2 (split; [triv |]). do 3 (split; [by eauto |]). split; [triv | done].
Qed.

Lemma Inv_startExploration_resume s : Inv s -> Inv (startExploration_resume s).
Proof.
  intros H. unfold startExploration_resume.
  destruct (pendingStarts s) as [| n] eqn:Hp; [done |].
  assert (Hsp : is_Some (startPos s)).
  { destruct H as (_ & _ & _ & I4 & _). apply I4. lia. }
  assert (H0 : Inv (set_pendingStarts n s)).
  { unfold Inv, InvC in *; simp_state.
    destruct H as (I1 & I2 & I3 & I4 & I5 & I6 & I7).
    do 3 (split; [triv |]). split; [triv |]. split; [triv |]. split; auto. }
  destruct (_ <? 0); [done |]. simp_state.
  destruct (startPos s) as [sp |] eqn:Hs; [| done].
  unfold Inv, InvC in *; simp_state. rewrite Hs.
  destruct H0 as (I1 & I2 & I3 & I4 & I5 & I6 & I7).
  do 4 (split; [triv |]). split; [triv |]. split; auto.
Qed.

Lemma Inv_pauseExploration s : Inv s -> Inv (pauseExploration s).
Proof.
  intros H. unfold pauseExploration.
  destruct (isExploring s) eqn:Hex; simpl; [| done].
  unfold Inv, InvC in *; simp_state. rewrite Hex in *.
  destruct H as (I1 & I2 & I3 & I4 & I5 & I6 & I7).
  do 5 (split; [triv |]). split; auto.
Qed.

Lemma Inv_resumeExploration now s : Inv s -> Inv (resumeExploration sqrtQ now s).
Proof.
  intros H. unfold resumeExploration.
  destruct (isExploring s) eqn:Hex; simpl; [| done].
  apply Inv_explorationStep.
  unfold Inv, InvC in *; simp_state. rewrite Hex in *.
  destruct H as (I1 & I2 & I3 & I4 & I5 & I6 & I7).
  do 5 (split; [triv |]). split; [triv | auto].
Qed.

Lemma Inv_reset now s : Inv s -> Inv (reset now s).
Proof.
  intros H. unfold reset. cbv zeta.
  by apply (Inv_stopExploration "manual" now) in H.
Qed.

Lemma Inv_step s e : Inv s -> Inv (step sqrtQ s e).
Proof.
  intros H. destruct e; simpl.
  - by apply Inv_onPointCloudReceived.
  - by apply Inv_onOdometryReceived.
  - by apply Inv_startExploration_begin.
  - by apply Inv_startExploration_resume.
  - by apply Inv_explorationStep.
  - by apply Inv_pauseExploration.
  - by apply Inv_resumeExploration.
  - by apply Inv_stopExploration.
  - by apply Inv_reset.
  - unfold setROI. by destruct (_ <? _)%nat.
  - exact H.
  - unfold setScoringWeights. by destruct (setScoringWeights_loop _ _ _).
  - exact H.
Qed.

Lemma reachable_Inv s : reachable sqrtQ s -> Inv s.
Proof.
  induction 1 as [| s e _ IH]; [apply Inv_init | by apply Inv_step].
Qed.

End Invariant.

End StateFacts.

Module BookkeepingFacts.
Import Engine EngineFacts PathFacts StateFacts.

(** *** Handlers that leave the bookkeeping alone *)

Ltac bk := unfold same_bookkeeping; repeat split; reflexivity.

Lemma same_bookkeeping_refl s : same_bookkeeping s s.
Proof. bk. Qed.

Lemma same_bookkeeping_trans s1 s2 s3 :
  same_bookkeeping s1 s2 -> same_bookkeeping s2 s3 -> same_bookkeeping s1 s3.
Proof. unfold same_bookkeeping. intros (-> & -> & ->) (-> & -> & ->). done. Qed.

Lemma returnToHome_bookkeeping now s : same_bookkeeping s (returnToHome now s).
Proof. unfold returnToHome. repeat case_match; bk. Qed.

Lemma stopExploration_bookkeeping reason now s :
  same_bookkeeping s (stopExploration reason now s).
Proof.
  unfold stopExploration. destruct (negb _); [bk |].
  repeat case_match; try bk.
  apply (same_bookkeeping_trans _
           (set_isWaitingForArrival false
              (set_isPaused false (set_isExploring false s))));
    [bk | apply returnToHome_bookkeeping].
Qed.

Lemma publishExplorationMission_bookkeeping now g s :
  same_bookkeeping s (publishExplorationMission now g s).
Proof.
  unfold publishExplorationMission. case_match; bk.
Qed.

Lemma cloud_update_bookkeeping now points cur s :
  same_bookkeeping s (cloud_update now points cur s).
Proof.
  unfold cloud_update, calculateSceneBounds, publishExplorationStatus.
  repeat case_match; bk.
Qed.




Lemma home_check_fields newPos s :
  isWaitingForArrival (home_check newPos s) = isWaitingForArrival s /\
  currentGoal (home_check newPos s) = currentGoal s /\
  lastVelocityCheck (home_check newPos s) = lastVelocityCheck s /\
  stuckStartTime (home_check newPos s) = stuckStartTime s /\
  isPreparingNextGoal (home_check newPos s) = isPreparingNextGoal s /\
  same_bookkeeping s (home_check newPos s).
Proof. unfold home_check. repeat case_match; repeat split; reflexivity. Qed.

Section WithSqrt.
Variable sqrtQ : Q -> Q.

Lemma selectBestFrontier_frame s fs cur :
  (selectBestFrontier sqrtQ s fs cur).2 = s \/
  exists d, (selectBestFrontier sqrtQ s fs cur).2 = set_lastGoalDirection d s.
Proof.
  unfold selectBestFrontier. destruct (foldl _ None fs) as [[? ?] |]; simpl; eauto.
Qed.

Lemma explorationStep_bookkeeping now s :
  same_bookkeeping s (explorationStep sqrtQ now s).
Proof.
  unfold explorationStep.
  destruct (_ || _); [bk |].
  destruct (_ && _); [bk |].
  set (s1 := if isPreparingNextGoal s then _ else s).
  assert (H1 : same_bookkeeping s s1).
  { unfold s1. destruct (isPreparingNextGoal s); bk. }
  clearbody s1. apply (same_bookkeeping_trans _ s1); [done |]. clear H1.
  destruct (Qltb _ _); [apply stopExploration_bookkeeping |].
  destruct (currentPos s1) as [cur |]; [| bk].
  destruct (startPos s1) as [sp |]; [| bk].
  destruct (hypot_gt _ _ _); [apply stopExploration_bookkeeping |].
  set (s2 := set_frontiers _ s1).
  apply (same_bookkeeping_trans _ s2); [bk |].
  clearbody s2.
  destruct (frontiers s2) eqn:Hfs; [apply stopExploration_bookkeeping |].
  rewrite <- Hfs.
  pose proof (selectBestFrontier_frame s2 (frontiers s2) cur) as Hfr.
  destruct (selectBestFrontier sqrtQ s2 (frontiers s2) cur) as [[g |] s3];
    simpl in Hfr.
  - apply (same_bookkeeping_trans _ s3).
    { destruct Hfr as [-> | [d ->]]; bk. }
    eapply same_bookkeeping_trans;
      [| bk].
    eapply same_bookkeeping_trans; [| apply publishExplorationMission_bookkeeping].
    bk.
  - apply (same_bookkeeping_trans _ s3).
    { destruct Hfr as [-> | [d ->]]; bk. }
    apply stopExploration_bookkeeping.
Qed.

Lemma plan_if_due_bookkeeping now s : same_bookkeeping s (plan_if_due sqrtQ now s).
Proof.
  unfold plan_if_due. destruct (_ && _ && _); [| bk].
  destruct (_ <? _); [| bk].
  apply (same_bookkeeping_trans _ (explorationStep sqrtQ now s));
    [apply explorationStep_bookkeeping | bk].
Qed.


End WithSqrt.

End BookkeepingFacts.

Module VisitedFacts.
Import Engine EngineFacts PathFacts StateFacts BookkeepingFacts.

(** *** Where [visitedGoals] changes *)

Lemma stuck_check_snd_congr now newPos s s1 :
  lastVelocityCheck s1 = lastVelocityCheck s ->
  stuckStartTime s1 = stuckStartTime s ->
  (stuck_check now newPos s1).2 = (stuck_check now newPos s).2.
Proof.
  intros Hl Ht. unfold stuck_check. rewrite Hl, Ht.
  destruct (lastVelocityCheck s) as [[[lx ly] ltime] |]; [| done].
  destruct (velocity_below _ _ _).
  - destruct (negb (truthy (stuckStartTime s))); [done |].
    by destruct (STUCK_THRESHOLD <? _).
  - by destruct (truthy (stuckStartTime s)).
Qed.

Lemma arrival_timeout_check_visited now s :
  visitedGoals (arrival_timeout_check now s) = visitedGoals s.
Proof.
  unfold arrival_timeout_check. repeat case_match; try done.
  simp_state. by rewrite record_failed_attempt_frame.
Qed.

(** A pose event either is an arrival, which appends the goal, or leaves
    [visitedGoals] as it is. *)
Lemma onOdometryReceived_visited now newPos s :
  let s' := onOdometryReceived now (Some newPos) s in
  (exists g, arrival now newPos g s /\
             visitedGoals s' = visitedGoals s ++ [mkPoint2 (gx g) (gy g)] /\
             goalAttempts s' = delete (goalKey (gx g) (gy g)) (goalAttempts s) /\
             isWaitingForArrival s' = false) \/
  ((forall g, ~ arrival now newPos g s) /\ visitedGoals s' = visitedGoals s).
Proof.
  cbv zeta. unfold onOdometryReceived, arrival. cbv zeta.
  destruct (home_check_fields newPos s) as (F1 & F2 & F3 & F4 & F5 & B1 & B2 & B3).
  pose proof (stuck_check_snd_congr now newPos s _ F3 F4) as Hsnd.
  set (s1 := home_check newPos s) in *. clearbody s1.
  rewrite F1, F2.
  destruct (isWaitingForArrival s) eqn:Hw;
    [| right; split; [intros g (? & _); discriminate | done]].
  destruct (currentGoal s) as [goal |] eqn:Hg;
    [| right; split; [intros g (_ & ? & _); discriminate | done]].
  destruct (stuck_check now newPos s1) as [s2 b] eqn:Hst.
  simpl in Hsnd. rewrite <- Hsnd.
  apply stuck_check_cases in Hst as [[-> Hs2] | [-> ->]].
  - assert (E : visitedGoals s2 = visitedGoals s /\
                goalAttempts s2 = goalAttempts s /\
                isPreparingNextGoal s2 = isPreparingNextGoal s).
    { destruct Hs2 as [-> | [t ->]]; simp_state; done. }
    destruct E as (E1 & E2 & E3). clear Hs2.
    unfold arrival_check. cbv zeta.
    destruct (hypot_lt (px newPos - gx goal) (py newPos - gy goal) (3 # 10)) eqn:Hd.
    + left. exists goal. split; [done |].
      destruct (hypot_le _ _ _ && _); simp_state; by rewrite E1, E2.
    + right. split; [intros g (_ & [= <-] & _ & ?); congruence |].
      destruct (hypot_le _ _ _ && _); simp_state; done.
  - right. split; [intros g (_ & _ & ? & _); discriminate |].
    simp_state. by rewrite record_failed_attempt_frame.
Qed.

Section WithSqrt.
Variable sqrtQ : Q -> Q.

(** C3 (as amended). A pose event that is an arrival (the engine waits for
    goal [g], the stuck detection does not end the handler, and the new
    position is less than 0.3 m from [g]) appends [g] to [visitedGoals],
    deletes the attempt counter of [g] and clears [isWaitingForArrival].
    No other event appends: apart from an arrival, an event leaves
    [visitedGoals] as it is, or empties it when it is [startExploration] or
    [reset].  [selectBestFrontier] never modifies [visitedGoals]. *)
Theorem visitedGoals_changes (s : State) (e : Event) :
  let s' := step sqrtQ s e in
  (forall now newPos g,
      e = Odometry now (Some newPos) -> arrival now newPos g s ->
      visitedGoals s' = visitedGoals s ++ [mkPoint2 (gx g) (gy g)] /\
      goalAttempts s' = delete (goalKey (gx g) (gy g)) (goalAttempts s) /\
      isWaitingForArrival s' = false) /\
  (visitedGoals s' = visitedGoals s \/
   (visitedGoals s' = [] /\
    ((exists now options, e = StartExploration now options) \/
     (exists now, e = Reset now))) \/
   (exists now newPos g,
       e = Odometry now (Some newPos) /\ arrival now newPos g s /\
       visitedGoals s' = visitedGoals s ++ [mkPoint2 (gx g) (gy g)])) /\
  (forall fs cur,
      visitedGoals (selectBestFrontier sqrtQ s fs cur).2 = visitedGoals s).
Proof.
  cbv zeta. split; [| split].
  - intros now newPos g -> Harr. simpl.
    destruct (onOdometryReceived_visited now newPos s)
      as [(g' & Harr' & Hv & Ha & Hw) | [Hno _]].
    + destruct Harr as (_ & Hg & _), Harr' as (_ & Hg' & _).
      assert (g' = g) by congruence. subst g'. done.
    + by destruct (Hno g).
  - destruct e as [now points | now [newPos |] | now options | | now | | now | now
                  | now | polygon | | weights |]; simpl.
    + left. unfold onPointCloudReceived.
      destruct (currentPos s) as [cur |]; [| done].
      destruct points; [done |].
      destruct (plan_if_due_bookkeeping sqrtQ now
                  (arrival_timeout_check now (cloud_update now (p :: points) cur s)))
        as (_ & _ & ->).
      rewrite arrival_timeout_check_visited.
      by destruct (cloud_update_bookkeeping now (p :: points) cur s) as (_ & _ & ->).
    + destruct (onOdometryReceived_visited now newPos s)
        as [(g & Harr & Hv & _) | [_ Hv]].
      * right. right. by exists now, newPos, g.
      * by left.
    + by left.
    + unfold startExploration_begin.
      destruct (isExploring s); [by left |].
      destruct (o_startPosition options); simp_state.
      * right. left. split; [done | left; eauto].
      * destruct (currentPos s); [| by left].
        right. left. split; [done | left; eauto].
    + left. unfold startExploration_resume. repeat case_match; done.
    + left. by destruct (explorationStep_bookkeeping sqrtQ now s) as (_ & _ & ->).
    + left. unfold pauseExploration. by case_match.
    + left. unfold resumeExploration. destruct (negb _); [done |].
      by destruct (explorationStep_bookkeeping sqrtQ now
                     (send Emit_resumed
                        (set_isWaitingForArrival false (set_isPaused false s))))
        as (_ & _ & ->).
    + left. by destruct (stopExploration_bookkeeping "manual" now s) as (_ & _ & ->).
    + right. left. split; [done | right; eauto].
    + left. unfold setROI. by case_match.
    + by left.
    + left. unfold setScoringWeights. by case_match.
    + by left.
  - intros fs cur.
    by destruct (selectBestFrontier_frame sqrtQ s fs cur) as [-> | [d ->]].
Qed.

End WithSqrt.

End VisitedFacts.

Module LifecycleFacts.
Import Engine EngineFacts PathFacts StateFacts BookkeepingFacts.

(** *** Stopping and resetting *)

Lemma stopExploration_not_exploring reason now s :
  isExploring (stopExploration reason now s) = false.
Proof.
  unfold stopExploration, returnToHome.
  destruct (isExploring s) eqn:Hex; simpl; [| done].
  repeat case_match; simp_state; done.
Qed.



(** *** The two top-level flags *)

Ltac qt := unfold quiet; simp_state; tauto.

Lemma quiet_trans s1 s2 s3 : quiet s1 s2 -> quiet s2 s3 -> quiet s1 s3.
Proof. unfold quiet. tauto. Qed.

Lemma quiet_stopExploration reason now s : quiet s (stopExploration reason now s).
Proof.
  unfold quiet. rewrite stopExploration_not_exploring. discriminate.
Qed.

Lemma quiet_publishExplorationMission now g s :
  quiet s (publishExplorationMission now g s).
Proof. unfold publishExplorationMission. case_match; qt. Qed.

Lemma quiet_cloud_update now points cur s : quiet s (cloud_update now points cur s).
Proof.
  unfold cloud_update, calculateSceneBounds, publishExplorationStatus.
  repeat case_match; qt.
Qed.

Lemma quiet_arrival_timeout_check now s : quiet s (arrival_timeout_check now s).
Proof.
  unfold arrival_timeout_check. repeat case_match; try qt.
  rewrite record_failed_attempt_frame. qt.
Qed.

Lemma quiet_onOdometryReceived now position s :
  quiet s (onOdometryReceived now position s).
Proof.
  unfold onOdometryReceived. destruct position as [newPos |]; [| qt].
  cbv zeta. apply (quiet_trans _ (home_check newPos s)).
  { unfold home_check. repeat case_match; unfold quiet; simp_state;
      intuition discriminate. }
  generalize (home_check newPos s). intros s1.
  destruct (isWaitingForArrival s1); [| qt].
  destruct (currentGoal s1) as [goal |]; [| qt].
  destruct (stuck_check now newPos s1) as [s2 b] eqn:Hst.
  apply stuck_check_cases in Hst as [[-> Hs2] | [-> ->]].
  - apply (quiet_trans _ s2); [destruct Hs2 as [-> | [t ->]]; qt |].
    unfold arrival_check. cbv zeta. repeat case_match; qt.
  - rewrite record_failed_attempt_frame. qt.
Qed.

Section WithSqrt.
Variable sqrtQ : Q -> Q.


Lemma quiet_explorationStep now s : quiet s (explorationStep sqrtQ now s).
Proof.
  unfold explorationStep.
  destruct (_ || _); [qt |]. destruct (_ && _); [qt |].
  set (s1 := if isPreparingNextGoal s then _ else s).
  apply (quiet_trans _ s1); [unfold s1; destruct (isPreparingNextGoal s); qt |].
  clearbody s1.
  destruct (Qltb _ _); [apply quiet_stopExploration |].
  destruct (currentPos s1) as [cur |]; [| qt].
  destruct (startPos s1) as [sp |]; [| qt].
  destruct (hypot_gt _ _ _); [apply quiet_stopExploration |].
  set (s2 := set_frontiers _ s1). apply (quiet_trans _ s2); [qt |]. clearbody s2.
  destruct (frontiers s2) eqn:Hfs; [apply quiet_stopExploration |].
  rewrite <- Hfs.
  pose proof (selectBestFrontier_frame sqrtQ s2 (frontiers s2) cur) as Hfr.
  destruct (selectBestFrontier sqrtQ s2 (frontiers s2) cur) as [[g |] s3];
    simpl in Hfr.
  - apply (quiet_trans _ s3); [destruct Hfr as [-> | [d ->]]; qt |].
    match goal with
    | |- quiet _ (publishExplorationStatus (publishExplorationMission _ _ ?s4)) =>
        apply (quiet_trans _ s4); [qt |];
        apply (quiet_trans _ (publishExplorationMission now g s4));
          [apply quiet_publishExplorationMission | qt]
    end.
  - apply (quiet_trans _ s3); [destruct Hfr as [-> | [d ->]]; qt |].
    apply quiet_stopExploration.
Qed.

(** Every event but the continuation of [startExploration] keeps the
    safety property of the two flags; the continuation keeps it when the
    engine is not returning home. *)
Lemma safety_kept (s : State) (e : Event) :
  (e = StartExploration_resumed -> isReturningHome s = false) ->
  returning_excludes_exploring s ->
  returning_excludes_exploring (step sqrtQ s e).
Proof.
  intros Hres Hsafe.
  assert (Hq : quiet s (step sqrtQ s e) -> returning_excludes_exploring (step sqrtQ s e)).
  { unfold quiet, returning_excludes_exploring in *. intros Hq Hr.
    destruct (isExploring (step sqrtQ s e)) eqn:Hex; [| done].
    destruct (Hq eq_refl) as [He Hr']. specialize (Hsafe (Hr' Hr)). congruence. }
  destruct e; simpl in *.
  - apply Hq. unfold onPointCloudReceived.
    destruct (currentPos s) as [cur |]; [| qt]. destruct points; [qt |].
    apply (quiet_trans _ (cloud_update now (p :: points) cur s));
      [apply quiet_cloud_update |].
    generalize (cloud_update now (p :: points) cur s). intros s1.
    apply (quiet_trans _ (arrival_timeout_check now s1));
      [apply quiet_arrival_timeout_check |].
    generalize (arrival_timeout_check now s1). intros s2.
    unfold plan_if_due. repeat case_match; try qt.
    apply (quiet_trans _ (explorationStep sqrtQ now s2));
      [apply quiet_explorationStep | qt].
  - apply Hq, quiet_onOdometryReceived.
  - apply Hq. unfold startExploration_begin. repeat case_match; qt.
  - specialize (Hres eq_refl). unfold returning_excludes_exploring.
    unfold startExploration_resume. repeat case_match; simp_state; try done;
      intros; congruence.
  - apply Hq, quiet_explorationStep.
  - apply Hq. unfold pauseExploration. case_match; qt.
  - apply Hq. unfold resumeExploration. destruct (negb _); [qt |].
    match goal with
    | |- quiet _ (explorationStep _ _ ?s1) =>
        apply (quiet_trans _ s1); [qt | apply quiet_explorationStep]
    end.
  - apply Hq, quiet_stopExploration.
  - apply Hq. unfold reset. cbv zeta.
    apply (quiet_trans _ (stopExploration "manual" now s));
      [apply quiet_stopExploration | qt].
  - apply Hq. unfold setROI. case_match; qt.
  - apply Hq. qt.
  - apply Hq. unfold setScoringWeights. case_match. qt.
  - apply Hq. qt.
Qed.

End WithSqrt.

End LifecycleFacts.

(** ** The properties on concrete runs *)

Module Runs.
Import Engine Scenarios.
Import GridFacts EngineFacts PathFacts MissionFacts StateFacts BookkeepingFacts
       VisitedFacts LifecycleFacts.

Lemma reachable_run sqrtQ events : forall s,
  reachable sqrtQ s -> reachable sqrtQ (run sqrtQ s events).
Proof.
  induction events as [| e events IH]; intros s H; [exact H |].
  apply IH. by apply reachable_step.
Qed.

(** C1. The safety property fails on the engine: once [stopExploration]
    has sent the vehicle home, [startExploration] starts exploring again
    without clearing [isReturningHome]; the next pose then reports a return
    to the new start while the engine explores. *)
Theorem restart_keeps_returning_home (sqrtQ : Q -> Q) :
  let s := run sqrtQ init restarted in
  let s' := step sqrtQ s (Odometry 6000 (Some (mkPos 2 0 1))) in
  reachable sqrtQ s /\ isReturningHome s = true /\ isExploring s = true /\
  isExploring s' = true /\
  outbox s' = Emit_returned (mkPos 2 0 1) (mkPos 2 0 1) :: outbox s.
Proof.
  cbv zeta. split; [apply reachable_run, reachable_init |].
  do 3 (split; [vm_compute; reflexivity |]). vm_compute; reflexivity.
Qed.

Lemma inflateObstacles_postcondition_witness :
  Grid.getInflatedOccupancy (Grid.inflateObstacles one_obstacle) 2 2 = -1 /\
  Grid.getInflatedOccupancy (Grid.inflateObstacles one_obstacle) 2 3 = -1.
Proof.
  destruct (inflateObstacles_postcondition one_obstacle 2 3 2 2)
    as (_ & H1 & H2).
  - unfold Grid.wf. repeat split; vm_compute; try reflexivity; discriminate.
  - reflexivity.
  - reflexivity.
  - reflexivity.
  - split; [exact H1 |]. apply H2; vm_compute; discriminate.
Defined.

Lemma stats_count_raw_cells_witness :
  let g := Grid.run_ops (Grid.new 3 3 (1 # 5)) some_ops in
  Grid.unknown (Grid.stats g) + Grid.free (Grid.stats g)
    + Grid.occupied (Grid.stats g) = 3 * 3.
Proof.
  refine (proj1 (stats_count_raw_cells 3 3 (1 # 5) some_ops _ _)).
  - vm_compute; discriminate.
  - unfold some_ops. repeat (constructor; [simpl; tauto |]). constructor.
Defined.

Lemma worldToGrid_gridToWorld_witness :
  let g := Grid.new 10 10 (1 # 5) in
  Grid.worldToGrid g (Grid.gridToWorld g 3 4).1 (Grid.gridToWorld g 3 4).2 = (3, 4).
Proof.
  apply (worldToGrid_gridToWorld (Grid.new 10 10 (1 # 5)) 3 4).
  - vm_compute; discriminate.
  - reflexivity.
Defined.


Lemma waiting_state_reachable : reachable sqrt_approx waiting_state.
Proof.
  replace waiting_state with (run sqrt_approx init planned)
    by (vm_compute; reflexivity).
  apply reachable_run, reachable_init.
Qed.


(** C3, as stated, fails: a pose event that arrives while the engine waits,
    0.27 m from the goal, appends nothing when the stuck detection fires on
    it; the goal is counted as a failed attempt instead. *)
Lemma stuck_pose_near_goal_not_visited :
  reachable sqrt_approx creeping_state /\
  isWaitingForArrival creeping_state = true /\
  currentGoal creeping_state = Some first_goal /\
  hypot_lt (px creeping_pose - gx first_goal)
           (py creeping_pose - gy first_goal) (3 # 10) = true /\
  visitedGoals creeping_state = [] /\
  visitedGoals (step sqrt_approx creeping_state (Odometry 8100 (Some creeping_pose)))
    = [] /\
  goalAttempts (step sqrt_approx creeping_state (Odometry 8100 (Some creeping_pose)))
    !! goalKey (gx first_goal) (gy first_goal) = Some 1.
Proof.
  split; [apply reachable_run, waiting_state_reachable |].
  do 5 (split; [vm_compute; reflexivity |]). vm_compute; reflexivity.
Qed.

Lemma visitedGoals_changes_witness :
  visitedGoals (step sqrt_approx waiting_state (Odometry 4000 (Some arriving_pose)))
    = visitedGoals waiting_state ++ [mkPoint2 (gx first_goal) (gy first_goal)] /\
  isWaitingForArrival
    (step sqrt_approx waiting_state (Odometry 4000 (Some arriving_pose))) = false.
Proof.
  destruct (visitedGoals_changes sqrt_approx waiting_state
              (Odometry 4000 (Some arriving_pose))) as (H & _).
  destruct (H 4000 arriving_pose first_goal eq_refl) as (Hv & _ & Hw).
  - unfold arrival. do 3 (split; [vm_compute; reflexivity |]).
    vm_compute; reflexivity.
  - exact (conj Hv Hw).
Defined.

Lemma selectBestFrontier_postcondition_witness :
  (selectBestFrontier sqrt_approx scoring_state two_frontiers home).1
    = Some first_goal /\
  forall u, u ∈ unreachableGoals scoring_state ->
            (2 * 2 <= hypot_sq (gx first_goal - p2x u) (gy first_goal - p2y u))%Q.
Proof.
  assert (Hfst : (selectBestFrontier sqrt_approx scoring_state two_frontiers home).1
                 = Some first_goal)
    by (vm_compute; reflexivity).
  split; [exact Hfst |].
  destruct (selectBestFrontier sqrt_approx scoring_state two_frontiers home)
    as [g s'] eqn:Hsel.
  cbn [fst] in Hfst. rewrite Hfst in Hsel.
  apply (selectBestFrontier_postcondition sqrt_approx _ _ _ _ _ Hsel).
Defined.

(** C8, as stated, fails: for a goal 5 m away the two waypoints are 2.5 m
    apart, not 2.0 m. *)
Lemma waypoints_not_2m_apart :
  exists w w',
    generateWaypoints home goal_5m = [w; w'] /\
    (spacing_sq w w' == (25 # 10) * (25 # 10))%Q /\
    ~ (spacing_sq w w' == 2 * 2)%Q.
Proof.
  eexists. eexists. split; [vm_compute; reflexivity |].
  split; vm_compute; [reflexivity | discriminate].
Qed.

Lemma generateWaypoints_mission_witness :
  Z.of_nat (length (generateWaypoints home goal_5m)) = 2 /\
  exists w, last (generateWaypoints home goal_5m) = Some w /\ at_goal w goal_5m.
Proof.
  destruct (generateWaypoints_mission home goal_5m 0
              (set_currentPos (Some home) init) eq_refl)
    as (H1 & _ & H3 & _).
  split; [exact H1 | exact H3].
Defined.



End Runs.

(** ** More about the occupancy grid *)

Module GridExtra.
Import Grid GridFacts.

(** *** Writing and reading a cell *)

Lemma to_int8_small v : -128 <= v <= 127 -> to_int8 v = v.
Proof. intros Hv. unfold to_int8. rewrite Z.mod_small; lia. Qed.

Lemma setOccupancy_shape g gx gy v :
  setOccupancy g gx gy v =
  with_data g (data (setOccupancy g gx gy v)) (stats (setOccupancy g gx gy v)) /\
  length (data (setOccupancy g gx gy v)) = length (data g).
Proof.
  unfold setOccupancy.
  destruct (negb (isInMap g gx gy)); [by destruct g |]. cbv zeta.
  destruct (_ =? _); [by destruct g |].
  split; [reflexivity |]. apply aset_length.
Qed.

Lemma setOccupancy_wf g gx gy v : wf g -> wf (setOccupancy g gx gy v).
Proof.
  intros (Hwh & Hld & Hli & Hrad).
  destruct (setOccupancy_shape g gx gy v) as [E L]. rewrite E.
  unfold wf; cbn [width height data inflatedData inflationRadius robotRadius
                  resolution with_data].
  rewrite L. done.
Qed.

Lemma getOccupancy_setOccupancy g gx gy v x y :
  wf g -> -128 <= v <= 127 ->
  getOccupancy (setOccupancy g gx gy v) x y =
  if isInMap g gx gy && (x =? gx) && (y =? gy) then v else getOccupancy g x y.
Proof.
  intros (Hwh & Hld & Hli & Hrad) Hv.
  destruct (isInMap g gx gy) eqn:Hin; cbn [andb].
  2: { unfold setOccupancy. rewrite Hin. reflexivity. }
  destruct (Z.eqb_spec x gx) as [-> | Hx], (Z.eqb_spec y gy) as [-> | Hy];
    cbn [andb].
  - unfold setOccupancy. rewrite Hin. cbn [negb]. cbv zeta.
    destruct (Z.eqb_spec (aget (data g) (index g gx gy)) v) as [He | Hne].
    + unfold getOccupancy. rewrite Hin. done.
    + unfold getOccupancy, isInMap, index. cbn [width height data with_data].
      fold (isInMap g gx gy). rewrite Hin. cbn [negb].
      fold (index g gx gy).
      pose proof (index_in_range g gx gy Hin).
      rewrite aget_aset_eq; [by apply to_int8_small | lia | lia].
  - unfold setOccupancy. rewrite Hin. cbn [negb]. cbv zeta.
    destruct (_ =? v); [done |].
    unfold getOccupancy, isInMap, index. cbn [width height data with_data].
    fold (isInMap g gx y). destruct (isInMap g gx y) eqn:Hin'; [| done].
    cbn [negb]. fold (index g gx gy) (index g gx y).
    pose proof (index_in_range g gx gy Hin). pose proof (index_in_range g gx y Hin').
    rewrite aget_aset_ne; [done | lia | lia |].
    intros He. apply index_inj in He as [_ ?]; done.
  - unfold setOccupancy. rewrite Hin. cbn [negb]. cbv zeta.
    destruct (_ =? v); [done |].
    unfold getOccupancy, isInMap, index. cbn [width height data with_data].
    fold (isInMap g x gy). destruct (isInMap g x gy) eqn:Hin'; [| done].
    cbn [negb]. fold (index g gx gy) (index g x gy).
    pose proof (index_in_range g gx gy Hin). pose proof (index_in_range g x gy Hin').
    rewrite aget_aset_ne; [done | lia | lia |].
    intros He. apply index_inj in He as [? _]; done.
  - unfold setOccupancy. rewrite Hin. cbn [negb]. cbv zeta.
    destruct (_ =? v); [done |].
    unfold getOccupancy, isInMap, index. cbn [width height data with_data].
    fold (isInMap g x y). destruct (isInMap g x y) eqn:Hin'; [| done].
    cbn [negb]. fold (index g gx gy) (index g x y).
    pose proof (index_in_range g gx gy Hin). pose proof (index_in_range g x y Hin').
    rewrite aget_aset_ne; [done | lia | lia |].
    intros He. apply index_inj in He as [? _]; done.
Qed.

(** X1. On a grid whose arrays have [width * height] cells, reading a cell
    after [setOccupancy gx gy v] (a value of an [Int8Array]) gives [v] at
    [(gx, gy)] when that cell is in the map and the earlier value anywhere
    else; a write outside the map changes nothing, a read outside the map
    gives -1, and the inflated array is never touched. *)
Theorem setOccupancy_then_getOccupancy (g : OccupancyGrid) (gx gy v x y : Z) :
  wf g -> -128 <= v <= 127 ->
  getOccupancy (setOccupancy g gx gy v) x y =
    (if isInMap g gx gy && (x =? gx) && (y =? gy) then v
     else getOccupancy g x y) /\
  (isInMap g gx gy = false -> setOccupancy g gx gy v = g) /\
  (isInMap g x y = false -> getOccupancy (setOccupancy g gx gy v) x y = -1) /\
  inflatedData (setOccupancy g gx gy v) = inflatedData g /\
  wf (setOccupancy g gx gy v).
Proof.
  intros Hwf Hv. split; [by apply getOccupancy_setOccupancy |].
  split; [| split; [| split]].
  - intros Hout. unfold setOccupancy. by rewrite Hout.
  - intros Hout. rewrite getOccupancy_setOccupancy by done.
    destruct (isInMap g gx gy && (x =? gx) && (y =? gy)) eqn:Hc.
    + apply andb_prop in Hc as [Hc Hy]. apply andb_prop in Hc as [Hc Hx].
      apply Z.eqb_eq in Hx, Hy. subst. congruence.
    + unfold getOccupancy. by rewrite Hout.
  - destruct (setOccupancy_shape g gx gy v) as [-> _]. reflexivity.
  - by apply setOccupancy_wf.
Qed.

Lemma setOccupancy_then_getOccupancy_witness :
  getOccupancy (setOccupancy (new 4 3 (1 # 5)) 2 1 (-1)) 2 1 = -1 /\
  getOccupancy (setOccupancy (new 4 3 (1 # 5)) 2 1 (-1)) 1 2 = 0.
Proof.
  assert (Hwf : wf (new 4 3 (1 # 5))).
  { unfold wf. repeat split; vm_compute; try reflexivity; discriminate. }
  split.
  - exact (proj1 (setOccupancy_then_getOccupancy (new 4 3 (1 # 5)) 2 1 (-1) 2 1
                    Hwf ltac:(lia))).
  - exact (proj1 (setOccupancy_then_getOccupancy (new 4 3 (1 # 5)) 2 1 (-1) 1 2
                    Hwf ltac:(lia))).
Defined.

(** *** World and grid coordinates *)

Lemma Qfloor_bounds (q : Q) (n : Z) :
  (n <= Qfloor q <-> (inject_Z n <= q)%Q) /\
  (Qfloor q < n <-> (q < inject_Z n)%Q).
Proof.
  pose proof (Qfloor_le q) as Hlo. pose proof (Qlt_floor q) as Hhi.
  rewrite inject_Z_plus in Hhi. change (inject_Z 1) with 1%Q in Hhi.
  split; split; intros H.
  - rewrite Zle_Qle in H. lra.
  - destruct (Z_le_gt_dec n (Qfloor q)) as [| Hgt]; [done |].
    assert (Qfloor q + 1 <= n) by lia.
    rewrite Zle_Qle in H0. rewrite inject_Z_plus in H0.
    change (inject_Z 1) with 1%Q in H0. lra.
  - assert (Qfloor q + 1 <= n) by lia.
    rewrite Zle_Qle in H0. rewrite inject_Z_plus in H0.
    change (inject_Z 1) with 1%Q in H0. lra.
  - destruct (Z_lt_ge_dec (Qfloor q) n) as [| Hge]; [done |].
    assert (n <= Qfloor q) by lia. rewrite Zle_Qle in H0. lra.
Qed.

(** A quotient by a positive resolution, and the offset it stands for. *)
Lemma offset_of_quotient (x o r : Q) :
  (0 < r)%Q -> (x == o + (x - o) / r * r)%Q.
Proof. intros Hr. field. lra. Qed.

(** X2. With a positive resolution, the cell [worldToGrid x y] contains the
    point: the centre [gridToWorld] gives for that cell is within half a
    cell of [x] and of [y] (the cell is closed on its low sides and open on
    its high sides). *)
Theorem worldToGrid_cell_contains (g : OccupancyGrid) (x y : Q) :
  (0 < resolution g)%Q ->
  let c := worldToGrid g x y in
  let p := gridToWorld g c.1 c.2 in
  (p.1 - resolution g / 2 <= x /\ x < p.1 + resolution g / 2)%Q /\
  (p.2 - resolution g / 2 <= y /\ y < p.2 + resolution g / 2)%Q.
Proof.
  intros Hr. cbv zeta. unfold worldToGrid, gridToWorld. cbn [fst snd].
  set (r := resolution g) in *.
  assert (H : forall (v o : Q),
             ((inject_Z (Qfloor ((v - o) / r)) + (1 # 2)) * r + o - r / 2 <= v /\
              v < (inject_Z (Qfloor ((v - o) / r)) + (1 # 2)) * r + o + r / 2)%Q).
  { intros v o.
    pose proof (Qfloor_le ((v - o) / r)) as Hlo.
    pose proof (Qlt_floor ((v - o) / r)) as Hhi.
    rewrite inject_Z_plus in Hhi. change (inject_Z 1) with 1%Q in Hhi.
    pose proof (offset_of_quotient v o r Hr) as Hv.
    set (q := ((v - o) / r)%Q) in *. set (f := inject_Z (Qfloor q)) in *.
    clearbody f q r.
    assert (f * r <= q * r)%Q by (apply Qmult_le_compat_r; lra).
    assert (q * r < (f + 1) * r)%Q by (apply Qmult_lt_compat_r; lra).
    assert ((f + (1 # 2)) * r + o - r / 2 == f * r + o)%Q by field.
    assert ((f + (1 # 2)) * r + o + r / 2 == (f + 1) * r + o)%Q by field.
    split; lra. }
  split; apply H.
Qed.

Lemma worldToGrid_cell_contains_witness :
  let g := new 10 10 (1 # 5) in
  let c := worldToGrid g (3 # 10) (-(7 # 10)) in
  let p := gridToWorld g c.1 c.2 in
  (p.1 - resolution g / 2 <= 3 # 10 /\ 3 # 10 < p.1 + resolution g / 2)%Q /\
  (p.2 - resolution g / 2 <= -(7 # 10) /\ -(7 # 10) < p.2 + resolution g / 2)%Q.
Proof.
  apply (worldToGrid_cell_contains (new 10 10 (1 # 5)) (3 # 10) (-(7 # 10))).
  reflexivity.
Defined.

(** X3. With a positive resolution, the cell of a world point is in the map
    exactly when the point lies in the rectangle that starts at the origin
    and spans [width * resolution] by [height * resolution], low sides
    included and high sides excluded. *)
Theorem worldToGrid_in_map (g : OccupancyGrid) (x y : Q) :
  (0 < resolution g)%Q ->
  isInMap g (worldToGrid g x y).1 (worldToGrid g x y).2 = true <->
  (origin_x g <= x /\ x < origin_x g + inject_Z (width g) * resolution g /\
   origin_y g <= y /\ y < origin_y g + inject_Z (height g) * resolution g)%Q.
Proof.
  intros Hr. unfold isInMap, worldToGrid. cbn [fst snd].
  set (r := resolution g) in *.
  rewrite !andb_true_iff, !Z.leb_le, !Z.ltb_lt.
  pose proof (Qfloor_bounds ((x - origin_x g) / r) 0) as [Hx0 _].
  pose proof (Qfloor_bounds ((x - origin_x g) / r) (width g)) as [_ Hxw].
  pose proof (Qfloor_bounds ((y - origin_y g) / r) 0) as [Hy0 _].
  pose proof (Qfloor_bounds ((y - origin_y g) / r) (height g)) as [_ Hyh].
  change (inject_Z 0) with 0%Q in Hx0, Hy0.
  rewrite Hx0, Hxw, Hy0, Hyh.
  pose proof (offset_of_quotient x (origin_x g) r Hr) as Hx.
  pose proof (offset_of_quotient y (origin_y g) r Hr) as Hy.
  set (qx := ((x - origin_x g) / r)%Q) in *.
  set (qy := ((y - origin_y g) / r)%Q) in *.
  set (w := inject_Z (width g)) in *. set (h := inject_Z (height g)) in *.
  clearbody qx qy w h r.
  split.
  - intros [[[H1 H2] H3] H4].
    assert (0 * r <= qx * r)%Q by (apply Qmult_le_compat_r; lra).
    assert (qx * r < w * r)%Q by (apply Qmult_lt_compat_r; lra).
    assert (0 * r <= qy * r)%Q by (apply Qmult_le_compat_r; lra).
    assert (qy * r < h * r)%Q by (apply Qmult_lt_compat_r; lra).
    repeat split; lra.
  - intros (H1 & H2 & H3 & H4).
    assert (0 <= qx)%Q.
    { apply Qnot_lt_le. intros Hn.
      assert (qx * r < 0 * r)%Q by (apply Qmult_lt_compat_r; lra). lra. }
    assert (qx < w)%Q.
    { apply Qnot_le_lt. intros Hn.
      assert (w * r <= qx * r)%Q by (apply Qmult_le_compat_r; lra). lra. }
    assert (0 <= qy)%Q.
    { apply Qnot_lt_le. intros Hn.
      assert (qy * r < 0 * r)%Q by (apply Qmult_lt_compat_r; lra). lra. }
    assert (qy < h)%Q.
    { apply Qnot_le_lt. intros Hn.
      assert (h * r <= qy * r)%Q by (apply Qmult_le_compat_r; lra). lra. }
    repeat split; lra.
Qed.

Lemma worldToGrid_in_map_witness :
  isInMap (new 10 10 (1 # 5))
          (worldToGrid (new 10 10 (1 # 5)) (-1) (99 # 100)).1
          (worldToGrid (new 10 10 (1 # 5)) (-1) (99 # 100)).2 = true.
Proof.
  apply (worldToGrid_in_map (new 10 10 (1 # 5)) (-1) (99 # 100)).
  - reflexivity.
  - vm_compute. repeat split; discriminate.
Defined.

(** *** Inflation marks nothing else *)

Lemma foldl_keeps {A B} (J : A -> Prop) (f : A -> B -> A) (l : list B) :
  (forall a b, b ∈ l -> J a -> J (f a b)) -> forall a, J a -> J (foldl f a l).
Proof.
  induction l as [| b l IH]; intros Hf a Ha; [done |].
  simpl. apply IH.
  - intros a' b' Hb'. apply Hf. by apply list_elem_of_further.
  - apply Hf; [apply list_elem_of_here | done].
Qed.

(** Every in-map cell of [g'] holds in its inflated array what it held in
    [g0], or is marked and lies within the inflation radius of a
    raw-occupied cell. *)
Lemma inflateObstacles_marks_only g :
  wf g ->
  let g0 := with_inflated g (copy_raw (data g) (inflatedData g)) in
  forall x y, isInMap g x y = true ->
    aget (inflatedData (inflateObstacles g)) (index g x y)
      = aget (inflatedData g0) (index g x y) \/
    (aget (inflatedData (inflateObstacles g)) (index g x y) = -1 /\
     exists ox oy,
       isInMap g ox oy = true /\ aget (data g) (index g ox oy) = -1 /\
       (x - ox) * (x - ox) + (y - oy) * (y - oy)
         <= inflationRadius g * inflationRadius g).
Proof.
  intros (Hwh & Hld & Hli & Hrad) g0.
  set (J := fun g' : OccupancyGrid =>
    ext g0 g' /\
    forall x y, isInMap g x y = true ->
      aget (inflatedData g') (index g x y)
        = aget (inflatedData g0) (index g x y) \/
      (aget (inflatedData g') (index g x y) = -1 /\
       exists ox oy,
         isInMap g ox oy = true /\ aget (data g) (index g ox oy) = -1 /\
         (x - ox) * (x - ox) + (y - oy) * (y - oy)
           <= inflationRadius g * inflationRadius g)).
  enough (HJ : J (inflateObstacles g)) by apply HJ.
  unfold inflateObstacles. fold g0.
  apply foldl_keeps; [| split; [apply ext_refl | by left]].
  intros g1 oy Hoy Hg1. apply foldl_keeps; [| done].
  intros g2 ox Hox Hg2. unfold inflateObstacles_at.
  assert (Eg2 : g2 = with_inflated g (inflatedData g2)).
  { destruct Hg2 as ((E & _) & _). rewrite E. reflexivity. }
  replace (data g2) with (data g) by (rewrite Eg2; reflexivity).
  replace (index g2 ox oy) with (index g ox oy) by (rewrite Eg2; reflexivity).
  destruct (Z.eqb_spec (aget (data g) (index g ox oy)) (-1)) as [Hocc | _];
    [| done].
  assert (Hino : isInMap g ox oy = true).
  { apply elem_of_seqZ in Hoy, Hox. unfold isInMap.
    rewrite !andb_true_iff, !Z.leb_le, !Z.ltb_lt. lia. }
  unfold inflateCell.
  replace (inflationRadius g2) with (inflationRadius g)
    by (rewrite Eg2; reflexivity).
  apply foldl_keeps; [| done].
  intros g3 dy _ Hg3. apply foldl_keeps; [| done].
  intros g4 dx _ [Hext H4]. unfold inflateCell_at.
  assert (Eg4 : g4 = with_inflated g (inflatedData g4)).
  { destruct Hext as (E & _). rewrite E. reflexivity. }
  replace (isInMap g4 (ox + dx) (oy + dy)) with (isInMap g (ox + dx) (oy + dy))
    by (rewrite Eg4; reflexivity).
  replace (index g4 (ox + dx) (oy + dy)) with (index g (ox + dx) (oy + dy))
    by (rewrite Eg4; reflexivity).
  destruct (isInMap g (ox + dx) (oy + dy)) eqn:Hin; cbn [negb]; [| done].
  destruct (sqrt_le _ _) eqn:Hdisk; [| done].
  destruct (aget (inflatedData g4) _ =? -1); cbn [negb]; [done |].
  pose proof (index_in_range g _ _ Hin) as Hidx.
  split.
  { eapply ext_trans; [exact Hext |]. apply mark_ext. lia. }
  intros x y Hxy. cbn [inflatedData with_inflated].
  pose proof (index_in_range g _ _ Hxy) as Hidx'.
  destruct (Z.eq_dec (index g (ox + dx) (oy + dy)) (index g x y)) as [He | Hne].
  - right. apply index_inj in He as [<- <-]; try done.
    split.
    + rewrite aget_aset_eq; [done | lia |].
      destruct Hext as (_ & L & _). rewrite L. unfold g0.
      cbn [inflatedData with_inflated]. rewrite copy_raw_length. lia.
    + exists ox, oy. split; [done |]. split; [done |].
      unfold sqrt_le in Hdisk. apply andb_prop in Hdisk as [_ Hd].
      apply Z.leb_le in Hd. nia.
  - rewrite aget_aset_ne by lia. by apply H4.
Qed.

(** The same, read through the two accessors. *)
Lemma inflateObstacles_cell g gx gy :
  stats_ok g -> isInMap g gx gy = true ->
  getInflatedOccupancy (inflateObstacles g) gx gy = getOccupancy g gx gy \/
  (getInflatedOccupancy (inflateObstacles g) gx gy = -1 /\
   exists ox oy,
     isInMap g ox oy = true /\ getOccupancy g ox oy = -1 /\
     (gx - ox) * (gx - ox) + (gy - oy) * (gy - oy)
       <= inflationRadius g * inflationRadius g).
Proof.
  intros (Hwf & Hall & _) Hin.
  destruct (inflateObstacles_frame g) as [E _].
  assert (Hget : getInflatedOccupancy (inflateObstacles g) gx gy
                 = aget (inflatedData (inflateObstacles g)) (index g gx gy)).
  { assert (Hmap : isInMap (inflateObstacles g) gx gy = isInMap g gx gy)
      by (rewrite E; reflexivity).
    assert (Hix : index (inflateObstacles g) gx gy = index g gx gy)
      by (rewrite E; reflexivity).
    unfold getInflatedOccupancy. by rewrite Hmap, Hin, Hix. }
  assert (Hraw : getOccupancy g gx gy = aget (data g) (index g gx gy)).
  { unfold getOccupancy. by rewrite Hin. }
  pose proof (index_in_range g gx gy Hin) as Hidx.
  assert (Hcopy : aget (copy_raw (data g) (inflatedData g)) (index g gx gy)
                  = aget (data g) (index g gx gy)).
  { destruct Hwf as (Hwh & Hld & Hli & Hrad).
    rewrite copy_raw_get; [| lia | lia | lia].
    apply to_int8_ternary.
    destruct (lookup_lt_is_Some_2 (data g) (Z.to_nat (index g gx gy)))
      as [v Hv]; [lia |].
    unfold aget. rewrite Hv. cbn [default].
    by eapply Forall_lookup_1 in Hall. }
  pose proof (inflateObstacles_marks_only g Hwf gx gy Hin) as Hmarks.
  cbv zeta in Hmarks. cbn [inflatedData with_inflated] in Hmarks.
  rewrite Hcopy in Hmarks. rewrite Hget, Hraw.
  destruct Hmarks as [Hsame | [Hm (ox & oy & Hino & Hocc & Hd)]]; [by left |].
  right. split; [done |]. exists ox, oy. split; [done |]. split; [| done].
  unfold getOccupancy. by rewrite Hino.
Qed.

(** X4. On a grid the grid operations can produce, after [inflateObstacles]
    an in-map cell is occupied in the inflated array exactly when a
    raw-occupied cell lies within the inflation radius of it (the cell
    itself included); every other cell holds its raw value, whatever the
    inflated array held before; the raw array is unchanged. *)
Theorem inflateObstacles_exact (g : OccupancyGrid) (gx gy : Z) :
  stats_ok g ->
  isInMap g gx gy = true ->
  0 <= inflationRadius g ->
  (getInflatedOccupancy (inflateObstacles g) gx gy = -1 <->
   exists ox oy,
     isInMap g ox oy = true /\ getOccupancy g ox oy = -1 /\
     (gx - ox) * (gx - ox) + (gy - oy) * (gy - oy)
       <= inflationRadius g * inflationRadius g) /\
  (getInflatedOccupancy (inflateObstacles g) gx gy <> -1 ->
   getInflatedOccupancy (inflateObstacles g) gx gy = getOccupancy g gx gy) /\
  data (inflateObstacles g) = data g.
Proof.
  intros Hok Hin HR.
  pose proof (inflateObstacles_cell g gx gy Hok Hin) as Hcell.
  destruct (inflateObstacles_frame g) as [E _].
  split; [split |]; [| | split].
  - intros Hm. destruct Hcell as [Hsame | [_ Hcov]]; [| done].
    exists gx, gy. split; [done |]. split; [congruence | nia].
  - intros (ox & oy & Hino & Hocc & Hd).
    assert (Hmap : isInMap (inflateObstacles g) gx gy = isInMap g gx gy)
      by (rewrite E; reflexivity).
    assert (Hix : index (inflateObstacles g) gx gy = index g gx gy)
      by (rewrite E; reflexivity).
    unfold getInflatedOccupancy. rewrite Hmap, Hin, Hix. cbn [negb].
    apply (inflateObstacles_disk g ox oy gx gy); try done; [apply Hok |].
    unfold getOccupancy in Hocc. by rewrite Hino in Hocc.
  - intros Hne. destruct Hcell as [Hsame | [Hm _]]; done.
  - rewrite E. reflexivity.
Qed.

Lemma inflateObstacles_exact_witness :
  getInflatedOccupancy
    (inflateObstacles (setOccupancy (new 5 5 (1 # 5)) 2 2 (-1))) 2 3 = -1 /\
  getInflatedOccupancy
    (inflateObstacles (setOccupancy (new 5 5 (1 # 5)) 2 2 (-1))) 0 0 = 0.
Proof.
  set (g := setOccupancy (new 5 5 (1 # 5)) 2 2 (-1)).
  assert (Hok : stats_ok g).
  { apply setOccupancy_stats_ok; [by left |]. apply new_stats_ok. done. }
  split.
  - apply (inflateObstacles_exact g 2 3 Hok); [reflexivity | done |].
    exists 2, 2. repeat split. vm_compute. discriminate.
  - destruct (inflateObstacles_exact g 0 0 Hok) as (_ & H & _);
      [reflexivity | done |].
    apply H. vm_compute. discriminate.
Defined.

End GridExtra.

(** ** Lines of cells: [bresenhamLine], [raytrace], [isPathClear] *)

Module LineFacts.
Import Engine Scenarios GridFacts EngineFacts PathFacts GridExtra.

(** *** The shape of a Bresenham line *)

Lemma lookup_S_cons {A} (a : A) (l : list A) (i : nat) : (a :: l) !! S i = l !! i.
Proof. reflexivity. Qed.

Lemma on_ideal_line_start dx dy : 0 <= dx -> 0 <= dy -> on_ideal_line dx dy dx dy.
Proof.
  intros Hx Hy. unfold on_ideal_line. cbv zeta.
  destruct (Z.leb_spec dy dx); nia.
Qed.

(** On the ideal line the remaining steps on the minor axis are never more
    than those on the major axis, and the same holds of the steps made. *)
Lemma on_ideal_line_major dx dy rx ry :
  0 <= rx <= dx -> 0 <= ry <= dy -> on_ideal_line dx dy rx ry ->
  Z.max rx ry = (if dy <=? dx then rx else ry) /\
  Z.max (dx - rx) (dy - ry) = (if dy <=? dx then dx - rx else dy - ry).
Proof.
  intros Hx Hy. unfold on_ideal_line. cbv zeta.
  destruct (Z.leb_spec dy dx); intros Hl; split; nia.
Qed.

Lemma bresenham_loop_shape x1 y1 dx dy sx sy fuel : forall x y err rx ry,
  (sx = 1 \/ sx = -1) -> (sy = 1 \/ sy = -1) ->
  0 <= rx <= dx -> 0 <= ry <= dy ->
  x1 - x = sx * rx -> y1 - y = sy * ry ->
  err = dx * (1 + dy - ry) - dy * (1 + dx - rx) ->
  on_ideal_line dx dy rx ry ->
  (Z.to_nat (Z.max rx ry) < fuel)%nat ->
  let l := bresenham_loop fuel x y x1 y1 dx dy sx sy err in
  length l = S (Z.to_nat (Z.max rx ry)) /\
  head l = Some (x, y) /\
  (forall i c, l !! i = Some c ->
     exists rx' ry',
       c = (x1 - sx * rx', y1 - sy * ry') /\
       0 <= rx' <= rx /\ 0 <= ry' <= ry /\
       Z.max rx' ry' = Z.max rx ry - Z.of_nat i /\
       on_ideal_line dx dy rx' ry') /\
  (forall i c c', l !! i = Some c -> l !! S i = Some c' -> adjacent c c').
Proof.
  induction fuel as [| fuel IH];
    intros x y err rx ry Hsx Hsy Hrx Hry Hx Hy Herr Hline Hfuel; [lia |].
  cbv zeta. cbn [bresenham_loop].
  assert (Hhere : exists rx' ry',
             (x, y) = (x1 - sx * rx', y1 - sy * ry') /\
             0 <= rx' <= rx /\ 0 <= ry' <= ry /\
             Z.max rx' ry' = Z.max rx ry - Z.of_nat 0 /\
             on_ideal_line dx dy rx' ry').
  { exists rx, ry. repeat split; try lia; try done. f_equal; lia. }
  destruct (Z.eqb_spec x x1) as [Ex | Ex], (Z.eqb_spec y y1) as [Ey | Ey];
    cbn [andb].
  - (* at the end point *)
    assert (rx = 0) by nia. assert (ry = 0) by nia. subst rx ry.
    cbn [length]. split; [done |]. split; [done |]. split.
    + intros [| i] c Hc; [| done]. injection Hc as <-. exact Hhere.
    + intros [| i] c c' Hc Hc'; done.
  - (* the column is reached, the row is not *)
    assert (rx = 0) by nia. assert (0 < ry) by nia. subst rx.
    assert (Hmaj := Hline). unfold on_ideal_line in Hmaj. cbv zeta in Hmaj.
    destruct (Z.leb_spec dy dx) as [Hle | Hgt]; [nia |].
    destruct (Z.gtb_spec (2 * err) (- dy)) as [Hgx | Hgx]; [nia |].
    destruct (Z.ltb_spec (2 * err) dx) as [Hgy | Hgy]; [| nia].
    destruct (IH x (y + sy) (err + dx) 0 (ry - 1)) as (IHl & IHh & IHc & IHa);
      try done; try lia; try nia.
    { unfold on_ideal_line. cbv zeta.
      destruct (Z.leb_spec dy dx); [lia |]. nia. }
    split; [| split; [done |]; split].
    + cbn [length]. rewrite IHl. lia.
    + intros [| i] c Hc.
      * injection Hc as <-. exact Hhere.
      * rewrite lookup_S_cons in Hc. destruct (IHc i c Hc) as (rx' & ry' & -> & ? & ? & ? & ?).
        exists rx', ry'. repeat split; try lia; done.
    + intros [| i] c c' Hc Hc'.
      * injection Hc as <-.
        rewrite lookup_S_cons, <- head_lookup, IHh in Hc'. injection Hc' as <-.
        unfold adjacent. cbn [fst snd]. lia.
      * rewrite lookup_S_cons in Hc, Hc'. eapply IHa; eassumption.
  - (* the row is reached, the column is not *)
    assert (ry = 0) by nia. assert (0 < rx) by nia. subst ry.
    assert (Hmaj := Hline). unfold on_ideal_line in Hmaj. cbv zeta in Hmaj.
    destruct (Z.leb_spec dy dx) as [Hle | Hgt]; [| nia].
    destruct (Z.gtb_spec (2 * err) (- dy)) as [Hgx | Hgx]; [| nia].
    destruct (Z.ltb_spec (2 * err) dx) as [Hgy | Hgy]; [nia |].
    destruct (IH (x + sx) y (err - dy) (rx - 1) 0) as (IHl & IHh & IHc & IHa);
      try done; try lia; try nia.
    { unfold on_ideal_line. cbv zeta.
      destruct (Z.leb_spec dy dx); [| lia]. nia. }
    split; [| split; [done |]; split].
    + cbn [length]. rewrite IHl. lia.
    + intros [| i] c Hc.
      * injection Hc as <-. exact Hhere.
      * rewrite lookup_S_cons in Hc. destruct (IHc i c Hc) as (rx' & ry' & -> & ? & ? & ? & ?).
        exists rx', ry'. repeat split; try lia; done.
    + intros [| i] c c' Hc Hc'.
      * injection Hc as <-.
        rewrite lookup_S_cons, <- head_lookup, IHh in Hc'. injection Hc' as <-.
        unfold adjacent. cbn [fst snd]. lia.
      * rewrite lookup_S_cons in Hc, Hc'. eapply IHa; eassumption.
  - (* neither is reached *)
    assert (0 < rx) by nia. assert (0 < ry) by nia.
    assert (Hmaj := Hline). unfold on_ideal_line in Hmaj. cbv zeta in Hmaj.
    destruct (Z.gtb_spec (2 * err) (- dy)) as [Hgx | Hgx],
             (Z.ltb_spec (2 * err) dx) as [Hgy | Hgy].
    + destruct (IH (x + sx) (y + sy) (err - dy + dx) (rx - 1) (ry - 1))
        as (IHl & IHh & IHc & IHa); try done; try lia; try nia.
      { unfold on_ideal_line. cbv zeta.
        destruct (Z.leb_spec dy dx); nia. }
      split; [| split; [done |]; split].
      * cbn [length]. rewrite IHl. lia.
      * intros [| i] c Hc.
        -- injection Hc as <-. exact Hhere.
        -- rewrite lookup_S_cons in Hc. destruct (IHc i c Hc) as (rx' & ry' & -> & ? & ? & ? & ?).
           exists rx', ry'. repeat split; try lia; done.
      * intros [| i] c c' Hc Hc'.
        -- injection Hc as <-.
           rewrite lookup_S_cons, <- head_lookup, IHh in Hc'. injection Hc' as <-.
           unfold adjacent. cbn [fst snd]. lia.
        -- rewrite lookup_S_cons in Hc, Hc'. eapply IHa; eassumption.
    + destruct (Z.leb_spec dy dx) as [Hle | Hgt]; [| nia].
      assert (Hmul : dy * (rx - 1) <= dx * (rx - 1)) by nia.
      assert (Hlt : ry <= rx - 1) by nia.
      destruct (IH (x + sx) y (err - dy) (rx - 1) ry)
        as (IHl & IHh & IHc & IHa); try done; try lia; try nia.
      { unfold on_ideal_line. cbv zeta.
        destruct (Z.leb_spec dy dx); [| lia]. nia. }
      split; [| split; [done |]; split].
      * cbn [length]. rewrite IHl. nia.
      * intros [| i] c Hc.
        -- injection Hc as <-. exact Hhere.
        -- rewrite lookup_S_cons in Hc. destruct (IHc i c Hc) as (rx' & ry' & -> & ? & ? & ? & ?).
           exists rx', ry'. repeat split; try lia; done.
      * intros [| i] c c' Hc Hc'.
        -- injection Hc as <-.
           rewrite lookup_S_cons, <- head_lookup, IHh in Hc'. injection Hc' as <-.
           unfold adjacent. cbn [fst snd]. lia.
        -- rewrite lookup_S_cons in Hc, Hc'. eapply IHa; eassumption.
    + destruct (Z.leb_spec dy dx) as [Hle | Hgt]; [nia |].
      assert (Hmul : dx * (ry - 1) <= dy * (ry - 1)) by nia.
      assert (Hlt : rx <= ry - 1) by nia.
      destruct (IH x (y + sy) (err + dx) rx (ry - 1))
        as (IHl & IHh & IHc & IHa); try done; try lia; try nia.
      { unfold on_ideal_line. cbv zeta.
        destruct (Z.leb_spec dy dx); [lia |]. nia. }
      split; [| split; [done |]; split].
      * cbn [length]. rewrite IHl. nia.
      * intros [| i] c Hc.
        -- injection Hc as <-. exact Hhere.
        -- rewrite lookup_S_cons in Hc. destruct (IHc i c Hc) as (rx' & ry' & -> & ? & ? & ? & ?).
           exists rx', ry'. repeat split; try lia; done.
      * intros [| i] c c' Hc Hc'.
        -- injection Hc as <-.
           rewrite lookup_S_cons, <- head_lookup, IHh in Hc'. injection Hc' as <-.
           unfold adjacent. cbn [fst snd]. lia.
        -- rewrite lookup_S_cons in Hc, Hc'. eapply IHa; eassumption.
    + nia.
Qed.

(** The loop started as [bresenhamLine] starts it, with fuel for the
    longer axis. *)
Lemma bresenham_from_start (n : nat) (x0 y0 x1 y1 : Z) :
  let dx := Z.abs (x1 - x0) in
  let dy := Z.abs (y1 - y0) in
  let sx := if x0 <? x1 then 1 else -1 in
  let sy := if y0 <? y1 then 1 else -1 in
  (Z.to_nat (Z.max dx dy) < n)%nat ->
  let l := bresenham_loop n x0 y0 x1 y1 dx dy sx sy (dx - dy) in
  length l = S (Z.to_nat (Z.max dx dy)) /\
  (forall i c, l !! i = Some c ->
     exists rx' ry',
       c = (x1 - sx * rx', y1 - sy * ry') /\
       0 <= rx' <= dx /\ 0 <= ry' <= dy /\
       Z.max rx' ry' = Z.max dx dy - Z.of_nat i /\
       on_ideal_line dx dy rx' ry') /\
  (forall i c c', l !! i = Some c -> l !! S i = Some c' -> adjacent c c').
Proof.
  intros dx dy sx sy Hn.
  assert (Hsx : sx = 1 \/ sx = -1) by (unfold sx; destruct (x0 <? x1); auto).
  assert (Hsy : sy = 1 \/ sy = -1) by (unfold sy; destruct (y0 <? y1); auto).
  assert (Hx : x1 - x0 = sx * dx)
    by (unfold sx, dx; destruct (Z.ltb_spec x0 x1); lia).
  assert (Hy : y1 - y0 = sy * dy)
    by (unfold sy, dy; destruct (Z.ltb_spec y0 y1); lia).
  assert (Hdx : 0 <= dx <= dx) by (unfold dx; lia).
  assert (Hdy : 0 <= dy <= dy) by (unfold dy; lia).
  assert (Herr : dx - dy = dx * (1 + dy - dy) - dy * (1 + dx - dx)) by ring.
  clearbody dx dy sx sy.
  destruct (bresenham_loop_shape x1 y1 dx dy sx sy n x0 y0 (dx - dy) dx dy
              Hsx Hsy Hdx Hdy Hx Hy Herr
              (on_ideal_line_start dx dy (proj1 Hdx) (proj1 Hdy)) Hn)
    as (Hlen & _ & Hcells & Hadj).
  split; [exact Hlen |]. split; [exact Hcells | exact Hadj].
Qed.

Lemma bresenhamLine_length (x0 y0 x1 y1 : Z) :
  Z.of_nat (length (bresenhamLine x0 y0 x1 y1))
  = Z.max (Z.abs (x1 - x0)) (Z.abs (y1 - y0)) + 1.
Proof.
  unfold bresenhamLine.
  destruct (bresenham_from_start
              (Z.to_nat (Z.abs (x1 - x0) + Z.abs (y1 - y0) + 1)) x0 y0 x1 y1)
    as (Hlen & _); [lia |].
  rewrite Hlen. lia.
Qed.

(** X5. The cells [bresenhamLine] lists from [(x0, y0)] to [(x1, y1)]: there
    are [max |x1 - x0| |y1 - y0| + 1] of them; cell number [i] lies in the
    box spanned by the two end points, at [i] steps from the start on the
    longer axis, and within half a step of the straight segment on the
    shorter axis; two consecutive cells touch by a side or a corner. *)
Theorem bresenhamLine_geometry (x0 y0 x1 y1 : Z) :
  let dx := Z.abs (x1 - x0) in
  let dy := Z.abs (y1 - y0) in
  let line := bresenhamLine x0 y0 x1 y1 in
  Z.of_nat (length line) = Z.max dx dy + 1 /\
  (forall i x y, line !! i = Some (x, y) ->
     Z.min x0 x1 <= x <= Z.max x0 x1 /\
     Z.min y0 y1 <= y <= Z.max y0 y1 /\
     Z.max (Z.abs (x - x0)) (Z.abs (y - y0)) = Z.of_nat i /\
     2 * Z.abs (dx * Z.abs (y - y0) - dy * Z.abs (x - x0)) <= Z.max dx dy) /\
  (forall i c c', line !! i = Some c -> line !! S i = Some c' -> adjacent c c').
Proof.
  cbv zeta. split; [apply bresenhamLine_length |].
  unfold bresenhamLine.
  destruct (bresenham_from_start
              (Z.to_nat (Z.abs (x1 - x0) + Z.abs (y1 - y0) + 1)) x0 y0 x1 y1)
    as (_ & Hcells & Hadj); [lia |].
  split; [| exact Hadj].
  intros i x y Hi.
  destruct (Hcells i (x, y) Hi) as (rx & ry & Hc & Hrx & Hry & Hmax & Hline).
  clear Hcells Hadj Hi.
  set (dx := Z.abs (x1 - x0)) in *. set (dy := Z.abs (y1 - y0)) in *.
  set (sx := if x0 <? x1 then 1 else -1) in *.
  set (sy := if y0 <? y1 then 1 else -1) in *.
  assert (Hx : x1 - x0 = sx * dx /\ (sx = 1 \/ sx = -1))
    by (unfold sx, dx; destruct (Z.ltb_spec x0 x1); lia).
  assert (Hy : y1 - y0 = sy * dy /\ (sy = 1 \/ sy = -1))
    by (unfold sy, dy; destruct (Z.ltb_spec y0 y1); lia).
  clearbody dx dy sx sy.
  injection Hc as -> ->.
  destruct (on_ideal_line_major dx dy rx ry Hrx Hry Hline) as [Hm1 Hm2].
  destruct Hx as [Hx Hsx], Hy as [Hy Hsy].
  assert (Ha : Z.abs (x1 - sx * rx - x0) = dx - rx)
    by (destruct Hsx as [-> | ->]; lia).
  assert (Hb : Z.abs (y1 - sy * ry - y0) = dy - ry)
    by (destruct Hsy as [-> | ->]; lia).
  rewrite Ha, Hb.
  unfold on_ideal_line in Hline. cbv zeta in Hline.
  split; [destruct Hsx as [-> | ->]; lia |].
  split; [destruct Hsy as [-> | ->]; lia |].
  destruct (Z.leb_spec dy dx); split; lia.
Qed.

(** *** A ray marks the cells of its line *)

Lemma raytrace_loop_fold fuel : forall g x0 y0 x1 y1 dx dy sx sy err,
  Grid.raytrace_loop fuel g x0 y0 x1 y1 dx dy sx sy err =
  foldl (fun g0 c =>
           if Grid.isInMap g0 c.1 c.2 && negb (Grid.getOccupancy g0 c.1 c.2 =? -1)
           then Grid.setOccupancy g0 c.1 c.2 1 else g0)
        g (bresenham_loop fuel x0 y0 x1 y1 dx dy sx sy err).
Proof.
  induction fuel as [| fuel IH]; intros g x0 y0 x1 y1 dx dy sx sy err;
    [reflexivity |].
  cbn [Grid.raytrace_loop bresenham_loop foldl fst snd].
  destruct ((x0 =? x1) && (y0 =? y1)); [reflexivity |].
  destruct (2 * err >? - dy), (2 * err <? dx); apply IH.
Qed.

Lemma bresenham_loop_length_le fuel : forall x y x1 y1 dx dy sx sy err,
  (length (bresenham_loop fuel x y x1 y1 dx dy sx sy err) <= fuel)%nat.
Proof.
  induction fuel as [| fuel IH]; intros x y x1 y1 dx dy sx sy err; [done |].
  cbn [bresenham_loop length].
  destruct ((x =? x1) && (y =? y1)); [cbn; lia |].
  destruct (2 * err >? - dy), (2 * err <? dx);
    match goal with
    | |- context [bresenham_loop fuel ?a ?b ?c ?d ?e ?f ?g ?h ?i] =>
        pose proof (IH a b c d e f g h i); lia
    end.
Qed.

Lemma bresenham_loop_take f : forall F x y x1 y1 dx dy sx sy err,
  (f <= F)%nat ->
  bresenham_loop f x y x1 y1 dx dy sx sy err =
  take f (bresenham_loop F x y x1 y1 dx dy sx sy err).
Proof.
  induction f as [| f IH]; intros F x y x1 y1 dx dy sx sy err Hle.
  - by rewrite take_0.
  - destruct F as [| F]; [lia |].
    cbn [bresenham_loop take].
    destruct ((x =? x1) && (y =? y1)); [by rewrite take_nil |].
    f_equal.
    destruct (2 * err >? - dy), (2 * err <? dx); apply IH; lia.
Qed.

(** The cells a ray visits within [n] steps. *)
Lemma raytrace_visits (n : nat) x0 y0 x1 y1 :
  bresenham_loop n x0 y0 x1 y1 (Z.abs (x1 - x0)) (Z.abs (y1 - y0))
                 (if x0 <? x1 then 1 else -1) (if y0 <? y1 then 1 else -1)
                 (Z.abs (x1 - x0) - Z.abs (y1 - y0))
  = take n (bresenhamLine x0 y0 x1 y1).
Proof.
  unfold bresenhamLine.
  set (F := Z.to_nat (Z.abs (x1 - x0) + Z.abs (y1 - y0) + 1)).
  destruct (decide (n <= F)%nat) as [Hle | Hgt]; [by apply bresenham_loop_take |].
  destruct (bresenham_from_start n x0 y0 x1 y1) as (Hlen & _); [lia |].
  rewrite (bresenham_loop_take F n) by lia.
  rewrite (take_ge _ F) by lia.
  rewrite take_ge; [done |]. lia.
Qed.

Lemma mark_wf g c :
  Grid.wf g ->
  Grid.wf (if Grid.isInMap g c.1 c.2 && negb (Grid.getOccupancy g c.1 c.2 =? -1)
           then Grid.setOccupancy g c.1 c.2 1 else g).
Proof. intros H. destruct (_ && _); [by apply setOccupancy_wf | done]. Qed.

Lemma marks_read (l : list (Z * Z)) : forall g x y,
  Grid.wf g ->
  let g' :=
    foldl (fun g0 c =>
             if Grid.isInMap g0 c.1 c.2
                && negb (Grid.getOccupancy g0 c.1 c.2 =? -1)
             then Grid.setOccupancy g0 c.1 c.2 1 else g0) g l in
  Grid.getOccupancy g' x y =
    (if bool_decide ((x, y) ∈ l) && negb (Grid.getOccupancy g x y =? -1)
     then 1 else Grid.getOccupancy g x y) /\
  Grid.inflatedData g' = Grid.inflatedData g.
Proof.
  induction l as [| c l IH]; intros g x y Hwf; cbv zeta.
  - cbn [foldl]. rewrite bool_decide_eq_false_2; [done |]. apply not_elem_of_nil.
  - cbn [foldl].
    set (g1 := if Grid.isInMap g c.1 c.2 && negb (Grid.getOccupancy g c.1 c.2 =? -1)
               then Grid.setOccupancy g c.1 c.2 1 else g).
    destruct (IH g1 x y (mark_wf g c Hwf)) as [IHget IHinf].
    cbv zeta in IHget, IHinf. rewrite IHget, IHinf. clear IHget IHinf.
    assert (Hg1 : Grid.getOccupancy g1 x y =
                  if bool_decide (c = (x, y))
                     && negb (Grid.getOccupancy g x y =? -1)
                  then 1 else Grid.getOccupancy g x y).
    { unfold g1. destruct c as [cx cy]. cbn [fst snd].
      destruct (Grid.isInMap g cx cy) eqn:Hin; cbn [andb].
      - destruct (Z.eqb_spec (Grid.getOccupancy g cx cy) (-1)) as [Ho | Ho];
          cbn [negb].
        + case_bool_decide as Hc; [| done].
          injection Hc as -> ->. rewrite Ho. done.
        + rewrite getOccupancy_setOccupancy by (done || lia).
          rewrite Hin. cbn [andb].
          case_bool_decide as Hc.
          * injection Hc as -> ->. rewrite !Z.eqb_refl. cbn [andb].
            destruct (Z.eqb_spec (Grid.getOccupancy g x y) (-1)); done.
          * destruct (Z.eqb_spec x cx) as [-> | ?], (Z.eqb_spec y cy) as [-> | ?];
              done.
      - case_bool_decide as Hc; [| done]. injection Hc as -> ->.
        unfold Grid.getOccupancy. rewrite Hin. done. }
    split.
    + rewrite Hg1.
      destruct (decide (c = (x, y))) as [-> | Hne].
      * rewrite (bool_decide_eq_true_2 ((x, y) = (x, y))) by done.
        rewrite (bool_decide_eq_true_2 ((x, y) ∈ (x, y) :: l))
          by apply list_elem_of_here.
        cbn [andb].
        destruct (Z.eqb_spec (Grid.getOccupancy g x y) (-1)) as [-> | ?];
          cbn [negb andb]; destruct (bool_decide ((x, y) ∈ l)); reflexivity.
      * rewrite (bool_decide_eq_false_2 (c = (x, y))) by done. cbn [andb].
        assert (Hmem : bool_decide ((x, y) ∈ c :: l) = bool_decide ((x, y) ∈ l)).
        { apply bool_decide_ext. rewrite elem_of_cons.
          split; [intros [Heq | Hl]; [congruence | done] | by right]. }
        by rewrite Hmem.
    + unfold g1. destruct (_ && _); [| done].
      destruct (setOccupancy_shape g c.1 c.2 1) as [-> _]. reflexivity.
Qed.

Lemma marks_shape (l : list (Z * Z)) : forall g,
  let g' :=
    foldl (fun g0 c =>
             if Grid.isInMap g0 c.1 c.2
                && negb (Grid.getOccupancy g0 c.1 c.2 =? -1)
             then Grid.setOccupancy g0 c.1 c.2 1 else g0) g l in
  g' = Grid.with_data g (Grid.data g') (Grid.stats g').
Proof.
  induction l as [| c l IH]; intros g; cbv zeta.
  - cbn [foldl]. by destruct g.
  - cbn [foldl].
    set (g1 := if Grid.isInMap g c.1 c.2 && negb (Grid.getOccupancy g c.1 c.2 =? -1)
               then Grid.setOccupancy g c.1 c.2 1 else g).
    specialize (IH g1). cbv zeta in IH. rewrite IH at 1.
    assert (E1 : g1 = Grid.with_data g (Grid.data g1) (Grid.stats g1)).
    { unfold g1. destruct (_ && _); [apply setOccupancy_shape | by destruct g]. }
    rewrite E1 at 1. reflexivity.
Qed.

(** What [raytrace] leaves in a cell, and what it does not touch. *)
Lemma raytrace_read g x0 y0 x1 y1 x y :
  Grid.wf g ->
  Grid.getOccupancy (Grid.raytrace g x0 y0 x1 y1) x y =
  if bool_decide
       ((x, y) ∈ take (Z.to_nat (Z.max (Grid.width g) (Grid.height g)))
                      (bresenhamLine x0 y0 x1 y1))
     && negb (Grid.getOccupancy g x y =? -1)
  then 1 else Grid.getOccupancy g x y.
Proof.
  intros Hwf. unfold Grid.raytrace. cbv zeta.
  rewrite raytrace_loop_fold, raytrace_visits. by apply marks_read.
Qed.

Lemma raytrace_shape g x0 y0 x1 y1 :
  Grid.raytrace g x0 y0 x1 y1 =
  Grid.with_data g (Grid.data (Grid.raytrace g x0 y0 x1 y1))
                 (Grid.stats (Grid.raytrace g x0 y0 x1 y1)).
Proof.
  unfold Grid.raytrace. cbv zeta. rewrite raytrace_loop_fold. apply marks_shape.
Qed.

(** X6. On a grid whose arrays have [width * height] cells, [raytrace] from
    [(x0, y0)] to [(x1, y1)] frees exactly the cells of the Bresenham line it
    reaches within [max width height] steps that are in the map and not
    occupied; every other cell, occupied cells included, reads as before,
    and the inflated array is unchanged.  When both end points are in the
    map the whole line is reached. *)
Theorem raytrace_marks_line (g : Grid.OccupancyGrid) (x0 y0 x1 y1 : Z) :
  Grid.wf g ->
  let reach := take (Z.to_nat (Z.max (Grid.width g) (Grid.height g)))
                    (bresenhamLine x0 y0 x1 y1) in
  let g' := Grid.raytrace g x0 y0 x1 y1 in
  (forall x y,
     Grid.getOccupancy g' x y =
     if bool_decide ((x, y) ∈ reach) && negb (Grid.getOccupancy g x y =? -1)
     then 1 else Grid.getOccupancy g x y) /\
  Grid.inflatedData g' = Grid.inflatedData g /\
  (Grid.isInMap g x0 y0 = true -> Grid.isInMap g x1 y1 = true ->
   reach = bresenhamLine x0 y0 x1 y1).
Proof.
  intros Hwf. cbv zeta.
  split; [| split].
  - intros x y. by apply raytrace_read.
  - rewrite raytrace_shape. reflexivity.
  - intros H0 H1. apply take_ge.
    pose proof (bresenhamLine_length x0 y0 x1 y1) as Hlen.
    unfold Grid.isInMap in H0, H1.
    rewrite !andb_true_iff, !Z.leb_le, !Z.ltb_lt in H0, H1. lia.
Qed.

Lemma raytrace_marks_line_witness :
  Grid.getOccupancy (Grid.raytrace (Grid.new 4 4 (1 # 5)) 0 0 3 2) 3 2 = 1 /\
  Grid.getOccupancy (Grid.raytrace (Grid.new 4 4 (1 # 5)) 0 0 3 2) 3 0 = 0.
Proof.
  assert (Hwf : Grid.wf (Grid.new 4 4 (1 # 5))).
  { unfold Grid.wf. repeat split; vm_compute; try reflexivity; discriminate. }
  destruct (raytrace_marks_line (Grid.new 4 4 (1 # 5)) 0 0 3 2 Hwf) as (H & _).
  split; rewrite H; reflexivity.
Defined.

(** *** A clear path keeps its distance *)

(** X7. On a map whose inflated array was computed by [inflateObstacles]
    (as [updateMapFromPointCloud] leaves it), when [isPathClear] accepts a
    path every cell of its Bresenham line is in the map, is free in the raw
    array, and is farther than the inflation radius from every raw-occupied
    cell. *)
Theorem clear_path_keeps_clearance
    (g : Grid.OccupancyGrid) (sx sy gx gy : Q) (cell : Z * Z) :
  Grid.stats_ok g ->
  0 <= Grid.inflationRadius g ->
  let m := Grid.inflateObstacles g in
  isPathClear m sx sy gx gy = true ->
  cell ∈ bresenhamLine (Grid.worldToGrid m sx sy).1 (Grid.worldToGrid m sx sy).2
                       (Grid.worldToGrid m gx gy).1 (Grid.worldToGrid m gx gy).2 ->
  Grid.isInMap m cell.1 cell.2 = true /\
  Grid.getOccupancy m cell.1 cell.2 = 1 /\
  forall ox oy,
    Grid.isInMap m ox oy = true -> Grid.getOccupancy m ox oy = -1 ->
    Grid.inflationRadius m * Grid.inflationRadius m
      < (cell.1 - ox) * (cell.1 - ox) + (cell.2 - oy) * (cell.2 - oy).
Proof.
  intros Hok HR m Hclear Hcell.
  destruct (proj1 (isPathClear_cells m sx sy gx gy) Hclear cell Hcell)
    as [Hin Hfree].
  destruct (inflateObstacles_frame g) as [E _]. fold m in E.
  assert (Hmap : forall x y, Grid.isInMap m x y = Grid.isInMap g x y)
    by (intros; rewrite E; reflexivity).
  assert (Hocc : forall x y, Grid.getOccupancy m x y = Grid.getOccupancy g x y)
    by (intros; rewrite E; reflexivity).
  assert (Hrad : Grid.inflationRadius m = Grid.inflationRadius g)
    by (rewrite E; reflexivity).
  rewrite Hmap in Hin.
  split; [by rewrite Hmap |]. split.
  - rewrite Hocc.
    destruct (inflateObstacles_cell g cell.1 cell.2 Hok Hin) as [Hsame | [Hm _]].
    + fold m in Hsame. congruence.
    + fold m in Hm. congruence.
  - intros ox oy Hino Ho. rewrite Hmap in Hino. rewrite Hocc in Ho.
    rewrite Hrad.
    destruct (Z.lt_ge_cases
                (Grid.inflationRadius g * Grid.inflationRadius g)
                ((cell.1 - ox) * (cell.1 - ox) + (cell.2 - oy) * (cell.2 - oy)))
      as [| Hnear]; [done |].
    exfalso.
    assert (Hmark : Grid.getInflatedOccupancy m cell.1 cell.2 = -1).
    { assert (Hix : Grid.index m cell.1 cell.2 = Grid.index g cell.1 cell.2)
        by (rewrite E; reflexivity).
      unfold Grid.getInflatedOccupancy. rewrite Hmap, Hin, Hix. cbn [negb].
      apply (inflateObstacles_disk g ox oy); try done; [apply Hok |].
      unfold Grid.getOccupancy in Ho. by rewrite Hino in Ho. }
    congruence.
Qed.

Lemma clear_path_keeps_clearance_witness :
  Grid.isInMap corridor 1 0 = true /\ Grid.getOccupancy corridor 1 0 = 1.
Proof.
  assert (Hok : Grid.stats_ok corridor_raw).
  { unfold corridor_raw.
    do 3 (apply setOccupancy_stats_ok; [by right; right |]).
    by apply new_stats_ok. }
  destruct (clear_path_keeps_clearance corridor_raw (-(1 # 4)) 0 (1 # 4) 0 (1, 0) Hok)
    as (H1 & H2 & _).
  - vm_compute. discriminate.
  - vm_compute. reflexivity.
  - vm_compute. apply list_elem_of_further, list_elem_of_here.
  - split; [exact H1 | exact H2].
Defined.

End LineFacts.

(** ** Regions: polygons, the region of interest, the scene bounds *)

Module RegionFacts.
Import Engine Scenarios GridFacts EngineFacts PathFacts StateFacts.

(** *** Ray casting *)

Lemma Qltb_comp a a' b b' : (a == a')%Q -> (b == b')%Q -> Qltb a b = Qltb a' b'.
Proof. intros Ha Hb. unfold Qltb. by rewrite Ha, Hb. Qed.

(** One edge of the polygon, from vertex [pj] to vertex [pi]: the test
    [intersect] of the loop. *)
Lemma isPointInPolygon_steps (x y : Q) (polygon : list Point2) :
  forall pj inside,
    foldl (fun '(pj, inside) pi =>
             let intersect :=
               negb (Bool.eqb (Qltb y (p2y pi)) (Qltb y (p2y pj))) &&
               Qltb x ((p2x pj - p2x pi) * (y - p2y pi) / (p2y pj - p2y pi)
                       + p2x pi) in
             (pi, if intersect then negb inside else inside))
          (pj, inside) polygon
    = (default pj (last polygon),
       xorb inside
         (foldl (fun '(pj, inside) pi =>
                   let intersect :=
                     negb (Bool.eqb (Qltb y (p2y pi)) (Qltb y (p2y pj))) &&
                     Qltb x ((p2x pj - p2x pi) * (y - p2y pi) / (p2y pj - p2y pi)
                             + p2x pi) in
                   (pi, if intersect then negb inside else inside))
                (pj, false) polygon).2).
Proof.
  set (step := fun '(pj, inside) pi =>
                 let intersect :=
                   negb (Bool.eqb (Qltb y (p2y pi)) (Qltb y (p2y pj))) &&
                   Qltb x ((p2x pj - p2x pi) * (y - p2y pi) / (p2y pj - p2y pi)
                           + p2x pi) in
                 (pi, if intersect then negb inside else inside)).
  induction polygon as [| p polygon IH]; intros pj inside.
  - cbn. by rewrite xorb_false_r.
  - cbn [foldl].
    assert (Hstep : forall b, exists c, step (pj, b) p = (p, xorb b c) /\
                                        step (pj, false) p = (p, c)).
    { intros b0. eexists. unfold step. cbv zeta. split; [| reflexivity].
      f_equal. destruct (negb _ && _), b0; reflexivity. }
    destruct (Hstep inside) as (c & -> & ->).
    rewrite (IH p (xorb inside c)), (IH p c). cbn [snd].
    f_equal.
    + rewrite last_cons. by destruct (last polygon).
    + by rewrite xorb_assoc.
Qed.

(** X8. [isPointInPolygon] does not depend on the vertex the polygon is
    listed from: moving the first vertex to the end gives the same
    answer.  The empty polygon contains no point. *)
Theorem isPointInPolygon_rotate (x y : Q) (p : Point2) (ps : list Point2) :
  isPointInPolygon x y (ps ++ [p]) = isPointInPolygon x y (p :: ps) /\
  isPointInPolygon x y [] = false.
Proof.
  split; [| reflexivity].
  unfold isPointInPolygon.
  set (step := fun '(pj, inside) pi =>
                 let intersect :=
                   negb (Bool.eqb (Qltb y (p2y pi)) (Qltb y (p2y pj))) &&
                   Qltb x ((p2x pj - p2x pi) * (y - p2y pi) / (p2y pj - p2y pi)
                           + p2x pi) in
                 (pi, if intersect then negb inside else inside)).
  rewrite last_snoc, last_cons, foldl_snoc.
  pose proof (isPointInPolygon_steps x y ps p false) as H1. fold step in H1.
  destruct (foldl step (p, false) ps) as [q X] eqn:Hf.
  cbn [snd] in H1. injection H1 as Hq.
  replace (match last ps with Some x0 => Some x0 | None => Some p end)
    with (Some q) by (rewrite Hq; by destruct (last ps)).
  change (foldl step (q, false) (p :: ps))
    with (foldl step (step (q, false) p) ps).
  assert (Hc : exists c, step (q, false) p = (p, c) /\
                         step (q, X) p = (p, xorb X c)).
  { eexists. unfold step. cbv zeta. split; [reflexivity |].
    f_equal. destruct (negb _ && _), X; reflexivity. }
  destruct Hc as (c & Hc1 & Hc2). rewrite Hc1, Hc2. cbn [snd].
  pose proof (isPointInPolygon_steps x y ps p c) as H2. fold step in H2.
  rewrite H2, Hf. cbn [snd]. apply xorb_comm.
Qed.

(** X9. For an axis-parallel rectangle with corners [(a, c)] and [(b, d)],
    [a < b] and [c < d], listed corner by corner, [isPointInPolygon] holds
    exactly of the points with [a <= x < b] and [c <= y < d]. *)
Theorem isPointInPolygon_rectangle (a b c d x y : Q) :
  (a < b)%Q -> (c < d)%Q ->
  isPointInPolygon x y [mkPoint2 a c; mkPoint2 b c; mkPoint2 b d; mkPoint2 a d]
    = true
  <-> (a <= x /\ x < b /\ c <= y /\ y < d)%Q.
Proof.
  intros Hab Hcd. unfold isPointInPolygon. cbn [last foldl p2x p2y]. cbv zeta.
  cbn [p2x p2y snd].
  assert (E1 : ((a - a) * (y - c) / (d - c) + a == a)%Q) by (field; lra).
  assert (E2 : ((b - b) * (y - d) / (c - d) + b == b)%Q) by (field; lra).
  rewrite (Qltb_comp x x _ a (Qeq_refl x) E1).
  rewrite (Qltb_comp x x _ b (Qeq_refl x) E2).
  destruct (Qltb y c) eqn:Hc, (Qltb y d) eqn:Hd, (Qltb x a) eqn:Ha,
           (Qltb x b) eqn:Hb;
    cbn [Bool.eqb negb andb];
    repeat match goal with
           | H : Qltb _ _ = true |- _ => apply Qltb_lt in H
           | H : Qltb _ _ = false |- _ => apply Qltb_ge in H
           end;
    (split; [intros Hin; try discriminate Hin; repeat split; lra
            | intros (H1 & H2 & H3 & H4); try reflexivity; exfalso; lra]).
Qed.

Lemma isPointInPolygon_rectangle_witness :
  isPointInPolygon 1 1 [mkPoint2 0 0; mkPoint2 2 0; mkPoint2 2 3; mkPoint2 0 3]
    = true.
Proof.
  apply (isPointInPolygon_rectangle 0 2 0 3 1 1); try reflexivity.
  repeat split; discriminate.
Defined.

(** *** What a chosen goal has passed *)

Section Filters.
Variable sqrtQ : Q -> Q.

(** The loop over [visitedGoals] breaks exactly when a visited goal is
    closer than 0.3 m. *)
Lemma historyPenalty_skip f visited : forall acc,
  (historyPenalty sqrtQ f visited acc).2 =
  existsb (fun v => hypot_lt (fx f - p2x v) (fy f - p2y v) (3 # 10)) visited.
Proof.
  induction visited as [| v visited IH]; intros acc; [reflexivity |].
  cbn [historyPenalty existsb]. cbv zeta.
  destruct (hypot_lt _ _ (3 # 10)); [reflexivity |]. cbn [orb].
  destruct (hypot_lt _ _ 2); apply IH.
Qed.

(** Everything a scored frontier has passed, and the goal made of it. *)
Lemma evaluate_passed s cur f score g :
  evaluate sqrtQ s cur f = Some (score, g) ->
  g = mkGoal (fx f) (fy f) (fsize f) (targetHeight (config s) f)
             (calculatePointCloudDensity s (fx f) (fy f) 2) true /\
  (useROI (config s) = true ->
   forall poly, roiPolygon (config s) = Some poly ->
                isPointInPolygon (fx f) (fy f) poly = true) /\
  (Qltb 50 (Grid.getExploredArea (map s)) = true ->
   countNearbyObstacles s (fx f) (fy f) (15 # 10) <> 0) /\
  Grid.isInMap (map s) (Grid.worldToGrid (map s) (fx f) (fy f)).1
               (Grid.worldToGrid (map s) (fx f) (fy f)).2 = true /\
  Grid.getOccupancy (map s) (Grid.worldToGrid (map s) (fx f) (fy f)).1
                    (Grid.worldToGrid (map s) (fx f) (fy f)).2 <> -1 /\
  hypot_lt (fx f - px cur) (fy f - py cur) (1 # 2) = false /\
  hypot_gt (fx f - px cur) (fy f - py cur) 15 = false /\
  isWithinBounds s (fx f) (fy f) (targetHeight (config s) f) = true /\
  existsb (fun v => hypot_lt (fx f - p2x v) (fy f - p2y v) (3 # 10))
          (visitedGoals s) = false.
Proof.
  unfold evaluate. cbv zeta.
  destruct (useROI (config s) && _) eqn:Hroi; [done |].
  destruct (existsb _ (unreachableGoals s)); [done |].
  destruct (negb (isPathClear _ _ _ _ _)); [done |].
  destruct (Qltb 50 _ && _) eqn:Hwin; [done |].
  destruct (Grid.isInMap _ _ _) eqn:Hin; cbn [negb]; [| done].
  destruct (Z.eqb_spec (Grid.getOccupancy (map s)
              (Grid.worldToGrid (map s) (fx f) (fy f)).1
              (Grid.worldToGrid (map s) (fx f) (fy f)).2) (-1)) as [| Hocc];
    [done |].
  destruct (hypot_lt _ _ (1 # 2)) eqn:Hnear; [done |].
  destruct (hypot_gt _ _ 15) eqn:Hfar; [done |].
  destruct (isWithinBounds _ _ _ _) eqn:Hb; cbn [negb]; [| done].
  pose proof (historyPenalty_skip f (visitedGoals s) 0) as Hskip.
  destruct (historyPenalty sqrtQ f (visitedGoals s) 0) as [penalty skip].
  cbn [snd] in Hskip. destruct skip; [done |].
  intros [= <- <-].
  split; [reflexivity |]. split; [| split; [| by repeat split]].
  - intros Huse poly Hpoly. rewrite Huse, Hpoly in Hroi. cbn [andb] in Hroi.
    by apply negb_false_iff in Hroi.
  - intros Harea. rewrite Harea in Hwin. cbn [andb] in Hwin.
    by apply Z.eqb_neq in Hwin.
Qed.

(** X10. A goal returned by [selectBestFrontier] is between 0.5 m and 15 m
    (in xy) from the current position and at least 0.3 m from every visited
    goal; its cell is in the map and not raw-occupied; with its height it is
    within the exploration bounds; and once more than 50 square metres are
    explored, at least one raw-occupied cell lies within 1.5 m of it. *)
Theorem selectBestFrontier_filters
    (s : State) (fs : list Frontier) (cur : Pos) (g : Goal) (s' : State) :
  selectBestFrontier sqrtQ s fs cur = (Some g, s') ->
  let d2 := hypot_sq (gx g - px cur) (gy g - py cur) in
  let cell := Grid.worldToGrid (map s) (gx g) (gy g) in
  ((1 # 2) * (1 # 2) <= d2 /\ d2 <= 15 * 15)%Q /\
  (forall v, v ∈ visitedGoals s ->
     ((3 # 10) * (3 # 10) <= hypot_sq (gx g - p2x v) (gy g - p2y v))%Q) /\
  Grid.isInMap (map s) cell.1 cell.2 = true /\
  Grid.getOccupancy (map s) cell.1 cell.2 <> -1 /\
  isWithinBounds s (gx g) (gy g) (gz g) = true /\
  ((50 < Grid.getExploredArea (map s))%Q ->
   0 < countNearbyObstacles s (gx g) (gy g) (15 # 10)) /\
  gpathClear g = true.
Proof.
  intros Hsel.
  apply selectBestFrontier_Some in Hsel as ((f & score & Hin & Hev) & _).
  apply evaluate_passed in Hev
    as (-> & _ & Hwin & Hmap & Hocc & Hnear & Hfar & Hb & Hvis).
  cbv zeta. cbn [gx gy gz gpathClear].
  split; [| split; [| split; [| split; [| split; [| split]]]]]; try done.
  - split.
    + by apply (hypot_lt_false _ _ (1 # 2)).
    + unfold hypot_gt in Hfar. apply orb_false_iff in Hfar as [_ Hfar].
      by apply Qltb_ge in Hfar.
  - intros v Hv. apply (hypot_lt_false _ _ (3 # 10)); [reflexivity |].
    destruct (hypot_lt _ _ (3 # 10)) eqn:Hlt; [| done].
    assert (existsb (fun v => hypot_lt (fx f - p2x v) (fy f - p2y v) (3 # 10))
                    (visitedGoals s) = true); [| congruence].
    apply existsb_exists. exists v. split; [by apply list_elem_of_In | done].
  - intros Harea. apply Qltb_lt in Harea. specialize (Hwin Harea).
    unfold countNearbyObstacles, count_cells in *. lia.
Qed.

(** X11. While a region of interest is set, [selectBestFrontier] returns
    only goals that [isPointInPolygon] places inside it; [setROI] sets the
    region for a polygon of three vertices or more and leaves the engine as
    it is for a shorter one; after [clearROI] no region is set. *)
Theorem selectBestFrontier_in_roi
    (s : State) (polygon : list Point2) (fs : list Frontier) (cur : Pos)
    (g : Goal) (s' : State) :
  (selectBestFrontier sqrtQ s fs cur = (Some g, s') ->
   useROI (config s) = true -> roiPolygon (config s) = Some polygon ->
   isPointInPolygon (gx g) (gy g) polygon = true) /\
  ((3 <= length polygon)%nat ->
   useROI (config (setROI polygon s)) = true /\
   roiPolygon (config (setROI polygon s)) = Some polygon /\
   (selectBestFrontier sqrtQ (setROI polygon s) fs cur = (Some g, s') ->
    isPointInPolygon (gx g) (gy g) polygon = true)) /\
  ((length polygon < 3)%nat -> setROI polygon s = s) /\
  useROI (config (clearROI s)) = false /\
  roiPolygon (config (clearROI s)) = None.
Proof.
  assert (Hroi : forall s0,
             selectBestFrontier sqrtQ s0 fs cur = (Some g, s') ->
             useROI (config s0) = true -> roiPolygon (config s0) = Some polygon ->
             isPointInPolygon (gx g) (gy g) polygon = true).
  { intros s0 Hsel Huse Hpoly.
    apply selectBestFrontier_Some in Hsel as ((f & score & Hin & Hev) & _).
    apply evaluate_passed in Hev as (-> & Hroi & _).
    by apply Hroi. }
  split; [apply Hroi |]. split; [| split; [| done]].
  - intros Hlen. unfold setROI.
    destruct (Nat.ltb_spec (length polygon) 3) as [| _]; [lia |].
    split; [reflexivity |]. split; [reflexivity |].
    intros Hsel. by apply (Hroi _ Hsel).
  - intros Hlen. unfold setROI.
    destruct (Nat.ltb_spec (length polygon) 3) as [_ |]; [done | lia].
Qed.

(** *** The height of a goal *)

Lemma heightLevels_lookup (minZ maxZ : Q) (i : nat) (h : Q) :
  heightLevels minZ maxZ !! i = Some h ->
  (minZ <= maxZ)%Q /\ h = (minZ + inject_Z (Z.of_nat i) * (1 # 2))%Q /\
  (h <= maxZ)%Q.
Proof.
  unfold heightLevels.
  destruct (Qle_bool minZ maxZ) eqn:Hle; [| done].
  apply Qle_bool_iff in Hle.
  rewrite list_lookup_fmap. intros Hi.
  destruct (seqZ 0 (Qfloor ((maxZ - minZ) / (1 # 2)) + 1) !! i) as [j |] eqn:Hj;
    [| done].
  apply lookup_seqZ in Hj as [-> Hlt]. injection Hi as <-.
  split; [done |]. rewrite Z.add_0_l. split; [reflexivity |].
  assert (Hfl : Z.of_nat i <= Qfloor ((maxZ - minZ) / (1 # 2))) by lia.
  rewrite Zle_Qle in Hfl.
  pose proof (Qfloor_le ((maxZ - minZ) / (1 # 2))) as Hlo.
  assert (E : ((maxZ - minZ) / (1 # 2) == 2 * (maxZ - minZ))%Q) by field.
  set (q := ((maxZ - minZ) / (1 # 2))%Q) in *. clearbody q. lra.
Qed.

Lemma heightLevels_length (minZ maxZ : Q) :
  (minZ <= maxZ)%Q -> (0 < length (heightLevels minZ maxZ))%nat.
Proof.
  intros Hle. unfold heightLevels.
  rewrite (proj2 (Qle_bool_iff _ _) Hle).
  rewrite length_fmap, length_seqZ.
  assert (0 <= Qfloor ((maxZ - minZ) / (1 # 2))); [| lia].
  apply (Qfloor_resp_le 0).
  assert (E : ((maxZ - minZ) / (1 # 2) == 2 * (maxZ - minZ))%Q) by field.
  rewrite E. lra.
Qed.

Lemma targetHeight_levels c f :
  enableZExploration c = true -> (minHeight c <= maxHeight c)%Q ->
  exists h k,
    targetHeight c f = Some h /\ 0 <= k /\
    (h == minHeight c + inject_Z k * (1 # 2))%Q /\
    (minHeight c <= h /\ h <= maxHeight c)%Q.
Proof.
  intros Hz Hle. unfold targetHeight. rewrite Hz.
  pose proof (heightLevels_length _ _ Hle) as Hlen.
  set (levels := heightLevels (minHeight c) (maxHeight c)) in *.
  set (hash := Qfloor (fx f * 10) + Qfloor (fy f * 10)).
  destruct levels as [| l0 levels'] eqn:Hlev; [cbn in Hlen; lia |].
  rewrite <- Hlev in *. clear Hlev l0 levels'.
  destruct (lookup_lt_is_Some_2 levels
              (Z.to_nat (Z.abs hash mod Z.of_nat (length levels)))) as [h Hh].
  { pose proof (Z.mod_pos_bound (Z.abs hash) (Z.of_nat (length levels))). lia. }
  rewrite Hh.
  apply heightLevels_lookup in Hh as (_ & Hval & Hmax).
  set (k := Z.of_nat (Z.to_nat (Z.abs hash mod Z.of_nat (length levels)))) in *.
  assert (Hk : 0 <= k) by (unfold k; lia).
  assert (Hmin : (minHeight c <= h)%Q).
  { rewrite Hval. rewrite Zle_Qle in Hk. change (inject_Z 0) with 0%Q in Hk.
    clearbody k. nra. }
  exists (Qmax (minHeight c) (Qmin (maxHeight c) h)), k.
  split; [reflexivity |]. split; [done |].
  assert (E : (Qmax (minHeight c) (Qmin (maxHeight c) h) == h)%Q).
  { rewrite (Q.min_r _ _ Hmax). apply Q.max_r. done. }
  rewrite E. split; [by rewrite Hval |]. done.
Qed.

(** X12. The height of a goal returned by [selectBestFrontier]: with
    [enableZExploration] off it is [explorationHeight]; with it on and
    [minHeight <= maxHeight] it is one of the levels
    [minHeight + k * 0.5] and lies between [minHeight] and [maxHeight];
    with it on and [minHeight > maxHeight] there is no level and the height
    is not a number. *)
Theorem selectBestFrontier_height
    (s : State) (fs : list Frontier) (cur : Pos) (g : Goal) (s' : State) :
  selectBestFrontier sqrtQ s fs cur = (Some g, s') ->
  let c := config s in
  (enableZExploration c = false -> gz g = Some (explorationHeight c)) /\
  (enableZExploration c = true -> (minHeight c <= maxHeight c)%Q ->
   exists h k,
     gz g = Some h /\ 0 <= k /\
     (h == minHeight c + inject_Z k * (1 # 2))%Q /\
     (minHeight c <= h /\ h <= maxHeight c)%Q) /\
  (enableZExploration c = true -> (maxHeight c < minHeight c)%Q ->
   gz g = None).
Proof.
  intros Hsel.
  apply selectBestFrontier_Some in Hsel as ((f & score & Hin & Hev) & _).
  apply evaluate_passed in Hev as (-> & _). cbv zeta. cbn [gz].
  split; [| split].
  - intros Hz. unfold targetHeight. by rewrite Hz.
  - intros Hz Hle. by apply targetHeight_levels.
  - intros Hz Hgt. unfold targetHeight, heightLevels. rewrite Hz.
    destruct (Qle_bool _ _) eqn:Hle; [| reflexivity].
    apply Qle_bool_iff in Hle. lra.
Qed.

End Filters.

Lemma selectBestFrontier_filters_witness :
  exists g s',
    selectBestFrontier sqrt_approx room_state [east_frontier] west = (Some g, s') /\
    isWithinBounds room_state (gx g) (gy g) (gz g) = true /\
    gpathClear g = true.
Proof.
  destruct (selectBestFrontier sqrt_approx room_state [east_frontier] west)
    as [[g |] s'] eqn:Hsel.
  - exists g, s'. split; [reflexivity |].
    destruct (selectBestFrontier_filters sqrt_approx _ _ _ _ _ Hsel)
      as (_ & _ & _ & _ & Hb & _ & Hp).
    exact (conj Hb Hp).
  - exfalso. vm_compute in Hsel. discriminate.
Defined.

Lemma selectBestFrontier_in_roi_witness :
  useROI (config (setROI [mkPoint2 0 0; mkPoint2 2 0; mkPoint2 2 3] init)) = true.
Proof.
  refine (proj1 (proj1 (proj2 (selectBestFrontier_in_roi sqrt_approx init
            [mkPoint2 0 0; mkPoint2 2 0; mkPoint2 2 3] [] home first_goal init))
            _)).
  cbn. lia.
Defined.

Lemma selectBestFrontier_height_witness :
  exists g s',
    selectBestFrontier sqrt_approx room_state [east_frontier] west = (Some g, s') /\
    exists h, gz g = Some h /\ ((1 # 2) <= h /\ h <= 3)%Q.
Proof.
  destruct (selectBestFrontier sqrt_approx room_state [east_frontier] west)
    as [[g |] s'] eqn:Hsel.
  - exists g, s'. split; [reflexivity |].
    destruct (selectBestFrontier_height sqrt_approx _ _ _ _ _ Hsel)
      as (_ & H & _).
    destruct H as (h & k & Hg & _ & _ & Hr); [reflexivity | discriminate |].
    exists h. exact (conj Hg Hr).
  - exfalso. vm_compute in Hsel. discriminate.
Defined.


(** *** The area of a polygon *)

(** X13. [calculatePolygonArea] on the shapes it is given: an axis-parallel
    rectangle has the area of its two sides, a triangle half the cross
    product of two of its sides, whatever the orientation; a polygon of
    fewer than three vertices has area zero. *)
Theorem calculatePolygonArea_shapes (a b c d : Q) (p q r : Point2) :
  (calculatePolygonArea [mkPoint2 a c; mkPoint2 b c; mkPoint2 b d; mkPoint2 a d]
   == Qabs ((b - a) * (d - c)))%Q /\
  (calculatePolygonArea [p; q; r]
   == Qabs (((p2x q - p2x p) * (p2y r - p2y p)
             - (p2x r - p2x p) * (p2y q - p2y p)) / 2))%Q /\
  (calculatePolygonArea [p; q] == 0)%Q /\
  (calculatePolygonArea [p] == 0)%Q /\
  (calculatePolygonArea [] == 0)%Q.
Proof.
  unfold calculatePolygonArea.
  cbn [length seq foldl lookup list_lookup Nat.add Nat.modulo Nat.divmod
       fst snd Nat.sub p2x p2y].
  split; [| split; [| split; [| split]]].
  - apply Qabs_wd. field.
  - apply Qabs_wd. field.
  - rewrite <- Qabs_wd with (x := 0%Q); [reflexivity | field].
  - rewrite <- Qabs_wd with (x := 0%Q); [reflexivity | field].
  - reflexivity.
Qed.

(** *** The scene bounds *)

Lemma minimum_fold (f : Pos -> Q) (rest : list Pos) : forall m,
  let r := foldl (fun m q => if Qltb (f q) m then f q else m) m rest in
  (r <= m)%Q /\ (forall q, q ∈ rest -> (r <= f q)%Q) /\
  (r = m \/ exists q, q ∈ rest /\ r = f q).
Proof.
  induction rest as [| p rest IH]; intros m; cbv zeta.
  - cbn. split; [lra |]. split; [| by left]. intros q Hq. by apply elem_of_nil in Hq.
  - cbn [foldl].
    destruct (IH (if Qltb (f p) m then f p else m)) as (H1 & H2 & H3).
    cbv zeta in H1, H2, H3.
    set (r := foldl _ _ rest) in *.
    destruct (Qltb (f p) m) eqn:Hlt.
    + apply Qltb_lt in Hlt. split; [lra |]. split.
      * intros q Hq. apply elem_of_cons in Hq as [-> | Hq]; [done | by apply H2].
      * right. destruct H3 as [-> | (q & Hq & ->)].
        -- exists p. split; [apply list_elem_of_here | done].
        -- exists q. split; [by apply list_elem_of_further | done].
    + apply Qltb_ge in Hlt. split; [done |]. split.
      * intros q Hq. apply elem_of_cons in Hq as [-> | Hq]; [lra | by apply H2].
      * destruct H3 as [-> | (q & Hq & ->)]; [by left |].
        right. exists q. split; [by apply list_elem_of_further | done].
Qed.

Lemma maximum_fold (f : Pos -> Q) (rest : list Pos) : forall m,
  let r := foldl (fun m q => if Qltb m (f q) then f q else m) m rest in
  (m <= r)%Q /\ (forall q, q ∈ rest -> (f q <= r)%Q) /\
  (r = m \/ exists q, q ∈ rest /\ r = f q).
Proof.
  induction rest as [| p rest IH]; intros m; cbv zeta.
  - cbn. split; [lra |]. split; [| by left]. intros q Hq. by apply elem_of_nil in Hq.
  - cbn [foldl].
    destruct (IH (if Qltb m (f p) then f p else m)) as (H1 & H2 & H3).
    cbv zeta in H1, H2, H3.
    set (r := foldl _ _ rest) in *.
    destruct (Qltb m (f p)) eqn:Hlt.
    + apply Qltb_lt in Hlt. split; [lra |]. split.
      * intros q Hq. apply elem_of_cons in Hq as [-> | Hq]; [done | by apply H2].
      * right. destruct H3 as [-> | (q & Hq & ->)].
        -- exists p. split; [apply list_elem_of_here | done].
        -- exists q. split; [by apply list_elem_of_further | done].
    + apply Qltb_ge in Hlt. split; [done |]. split.
      * intros q Hq. apply elem_of_cons in Hq as [-> | Hq]; [lra | by apply H2].
      * destruct H3 as [-> | (q & Hq & ->)]; [by left |].
        right. exists q. split; [by apply list_elem_of_further | done].
Qed.

Lemma minimum_spec f p rest :
  (forall q, q ∈ p :: rest -> (minimum f p rest <= f q)%Q) /\
  exists q, q ∈ p :: rest /\ minimum f p rest = f q.
Proof.
  unfold minimum. destruct (minimum_fold f rest (f p)) as (H1 & H2 & H3).
  cbv zeta in H1, H2, H3. split.
  - intros q Hq. apply elem_of_cons in Hq as [-> | Hq]; [done | by apply H2].
  - destruct H3 as [-> | (q & Hq & ->)].
    + exists p. split; [apply list_elem_of_here | done].
    + exists q. split; [by apply list_elem_of_further | done].
Qed.

Lemma maximum_spec f p rest :
  (forall q, q ∈ p :: rest -> (f q <= maximum f p rest)%Q) /\
  exists q, q ∈ p :: rest /\ maximum f p rest = f q.
Proof.
  unfold maximum. destruct (maximum_fold f rest (f p)) as (H1 & H2 & H3).
  cbv zeta in H1, H2, H3. split.
  - intros q Hq. apply elem_of_cons in Hq as [-> | Hq]; [done | by apply H2].
  - destruct H3 as [-> | (q & Hq & ->)].
    + exists p. split; [apply list_elem_of_here | done].
    + exists q. split; [by apply list_elem_of_further | done].
Qed.

(** X14. For a cloud with at least one point, [calculateSceneBounds] stores
    the bounding box of the points, each corner coordinate being that of
    some point, moved inwards by 1.5 m in x and in y; in z the low side is
    raised by 0.3 m and never below 0.5 m, the high side lowered by 0.5 m
    and never above 2.5 m.  Nothing else of the engine changes, and an
    empty cloud changes nothing. *)
Theorem calculateSceneBounds_box (points : list Pos) (s : State) :
  (points = [] -> calculateSceneBounds points s = s) /\
  (points <> [] ->
   exists lo hi : Pos,
     (forall q, q ∈ points ->
        (px lo <= px q /\ px q <= px hi)%Q /\
        (py lo <= py q /\ py q <= py hi)%Q /\
        (pz lo <= pz q /\ pz q <= pz hi)%Q) /\
     (exists q, q ∈ points /\ px q = px lo) /\
     (exists q, q ∈ points /\ px q = px hi) /\
     (exists q, q ∈ points /\ py q = py lo) /\
     (exists q, q ∈ points /\ py q = py hi) /\
     (exists q, q ∈ points /\ pz q = pz lo) /\
     (exists q, q ∈ points /\ pz q = pz hi) /\
     calculateSceneBounds points s =
     set_sceneBounds
       (Some (mkSceneBounds
                (px lo + (15 # 10)) (px hi - (15 # 10))
                (py lo + (15 # 10)) (py hi - (15 # 10))
                (Qmax (5 # 10) (pz lo + (3 # 10)))
                (Qmin (25 # 10) (pz hi - (5 # 10))))) s).
Proof.
  split; [by intros -> |].
  destruct points as [| p rest]; [done |]. intros _.
  exists (mkPos (minimum px p rest) (minimum py p rest) (minimum pz p rest)),
         (mkPos (maximum px p rest) (maximum py p rest) (maximum pz p rest)).
  cbn [px py pz].
  destruct (minimum_spec px p rest) as [Lx (qlx & ? & ?)].
  destruct (minimum_spec py p rest) as [Ly (qly & ? & ?)].
  destruct (minimum_spec pz p rest) as [Lz (qlz & ? & ?)].
  destruct (maximum_spec px p rest) as [Ux (qux & ? & ?)].
  destruct (maximum_spec py p rest) as [Uy (quy & ? & ?)].
  destruct (maximum_spec pz p rest) as [Uz (quz & ? & ?)].
  split; [intros q Hq; repeat split; auto |].
  split; [by exists qlx |]. split; [by exists qux |].
  split; [by exists qly |]. split; [by exists quy |].
  split; [by exists qlz |]. split; [by exists quz |].
  reflexivity.
Qed.

Lemma calculateSceneBounds_box_witness :
  sceneBounds (calculateSceneBounds [mkPos 0 0 0; mkPos 4 5 3] init)
  = Some (mkSceneBounds ((0 + (15 # 10))%Q) ((4 - (15 # 10))%Q)
                        ((0 + (15 # 10))%Q) ((5 - (15 # 10))%Q)
                        (Qmax (5 # 10) (0 + (3 # 10)))
                        (Qmin (25 # 10) (3 - (5 # 10)))).
Proof.
  destruct (proj2 (calculateSceneBounds_box [mkPos 0 0 0; mkPos 4 5 3] init))
    as (lo & hi & _ & _ & _ & _ & _ & _ & _ & H); [discriminate |].
  reflexivity.
Defined.

End RegionFacts.

(** ** Building the map: clouds, the start area, frontiers *)

Module MapFacts.
Import Engine Scenarios GridFacts EngineFacts PathFacts StateFacts
       BookkeepingFacts LifecycleFacts GridExtra LineFacts RegionFacts.

(** *** The points a cloud contributes *)

Lemma every_nth_lookup {A} (n : nat) (l : list A) : forall k j,
  (0 < n)%nat -> every_nth n k l !! j = l !! (k + j * n)%nat.
Proof.
  induction l as [| x l IH]; intros k j Hn; [done |].
  destruct k as [| k]; cbn [every_nth].
  - destruct j as [| j]; [done |].
    rewrite lookup_S_cons, IH by done.
    replace (0 + S j * n)%nat with (S (n - 1 + j * n)) by lia. done.
  - rewrite IH by done. done.
Qed.

(** X15. [updateMapFromPointCloud] reads the points at the indices 0, 10,
    20, ... only: two clouds that agree there give the same map. *)
Theorem updateMapFromPointCloud_sampling
    (m : Grid.OccupancyGrid) (points points' : list Pos) (dronePos : Pos) :
  (forall j : nat, points !! (10 * j)%nat = points' !! (10 * j)%nat) ->
  updateMapFromPointCloud m points dronePos
  = updateMapFromPointCloud m points' dronePos.
Proof.
  intros Hsame. unfold updateMapFromPointCloud. cbv zeta.
  replace (every_nth 10 0 points') with (every_nth 10 0 points); [done |].
  apply list_eq. intros j. rewrite !every_nth_lookup by lia.
  replace (0 + j * 10)%nat with (10 * j)%nat by lia. apply Hsame.
Qed.

Lemma updateMapFromPointCloud_sampling_witness :
  updateMapFromPointCloud open_room [mkPos 0 0 1; mkPos 1 1 1] west
  = updateMapFromPointCloud open_room [mkPos 0 0 1] west.
Proof.
  apply updateMapFromPointCloud_sampling.
  intros [| j]; [reflexivity |].
  rewrite !lookup_ge_None_2; [reflexivity | cbn; lia | cbn; lia].
Defined.

(** *** A map update never frees an occupied cell *)

(** A property that the step for [b0] establishes and every step keeps. *)
Lemma foldl_sets {A B} (J P : A -> Prop) (f : A -> B -> A) (l : list B) (b0 : B) :
  (forall a b, J a -> J (f a b)) ->
  (forall a b, J a -> P a -> P (f a b)) ->
  (forall a, J a -> P (f a b0)) ->
  b0 ∈ l ->
  forall a, J a -> P (foldl f a l).
Proof.
  intros HJ Hkeep Hset. induction l as [| b l IH]; intros Hin a Ha.
  - by apply elem_of_nil in Hin.
  - cbn [foldl]. apply elem_of_cons in Hin as [<- | Hin].
    + assert (Hall : forall l' a', J a' -> P a' -> P (foldl f a' l')).
      { clear -HJ Hkeep. intros l'. induction l' as [| b' l' IH']; intros a' Ha' Hp;
          [done |].
        cbn [foldl]. apply IH'; [by apply HJ | by apply Hkeep]. }
      apply Hall; [by apply HJ | by apply Hset].
    + apply IH; [done | by apply HJ].
Qed.

Lemma same_geometry_refl g : same_geometry g g.
Proof. by unfold same_geometry. Qed.

Lemma same_geometry_trans g1 g2 g3 :
  same_geometry g1 g2 -> same_geometry g2 g3 -> same_geometry g1 g3.
Proof. unfold same_geometry. intuition congruence. Qed.

Lemma setOccupancy_geometry g x y v : same_geometry g (Grid.setOccupancy g x y v).
Proof.
  destruct (setOccupancy_shape g x y v) as [-> _]. by unfold same_geometry.
Qed.

Lemma raytrace_geometry g x0 y0 x1 y1 :
  same_geometry g (Grid.raytrace g x0 y0 x1 y1).
Proof. rewrite raytrace_shape. by unfold same_geometry. Qed.

Lemma inflateObstacles_geometry g : same_geometry g (Grid.inflateObstacles g).
Proof.
  destruct (inflateObstacles_frame g) as [-> _]. by unfold same_geometry.
Qed.

Lemma same_geometry_cells g g' x y :
  same_geometry g g' ->
  Grid.isInMap g' x y = Grid.isInMap g x y /\
  Grid.worldToGrid g' = Grid.worldToGrid g.
Proof.
  intros (Hw & Hh & Hr & Hx & Hy & _).
  unfold Grid.isInMap, Grid.worldToGrid. by rewrite Hw, Hh, Hr, Hx, Hy.
Qed.

Lemma raytrace_wf g x0 y0 x1 y1 : Grid.wf g -> Grid.wf (Grid.raytrace g x0 y0 x1 y1).
Proof.
  intros Hwf. unfold Grid.raytrace. cbv zeta. rewrite raytrace_loop_fold.
  generalize (bresenham_loop (Z.to_nat (Z.max (Grid.width g) (Grid.height g)))
                x0 y0 x1 y1 (Z.abs (x1 - x0)) (Z.abs (y1 - y0))
                (if x0 <? x1 then 1 else -1) (if y0 <? y1 then 1 else -1)
                (Z.abs (x1 - x0) - Z.abs (y1 - y0))).
  intros l. revert g Hwf. induction l as [| c l IH]; intros g Hwf; [done |].
  cbn [foldl]. apply IH. by apply mark_wf.
Qed.

(** One sampled point: the map before and after it. *)
Lemma cloud_point_step (m0 : Grid.OccupancyGrid) (droneGrid : Z * Z)
    (dronePos point : Pos) :
  Grid.stats_ok m0 ->
  let m1 :=
    if Qltb 1 (Qabs (pz point - pz dronePos)) then m0
    else
      let obstacleGrid := Grid.worldToGrid m0 (px point) (py point) in
      if negb (Grid.isInMap m0 obstacleGrid.1 obstacleGrid.2) then m0
      else Grid.setOccupancy
             (Grid.raytrace m0 droneGrid.1 droneGrid.2
                            obstacleGrid.1 obstacleGrid.2)
             obstacleGrid.1 obstacleGrid.2 (-1) in
  Grid.stats_ok m1 /\ same_geometry m0 m1 /\
  (forall x y, Grid.getOccupancy m0 x y = -1 -> Grid.getOccupancy m1 x y = -1) /\
  ((Qabs (pz point - pz dronePos) <= 1)%Q ->
   Grid.isInMap m0 (Grid.worldToGrid m0 (px point) (py point)).1
                (Grid.worldToGrid m0 (px point) (py point)).2 = true ->
   Grid.getOccupancy m1 (Grid.worldToGrid m0 (px point) (py point)).1
                     (Grid.worldToGrid m0 (px point) (py point)).2 = -1).
Proof.
  intros Hok. cbv zeta.
  destruct (Qltb 1 _) eqn:Hz.
  { apply Qltb_lt in Hz. split; [done |]. split; [apply same_geometry_refl |].
    split; [done |]. intros Hle. lra. }
  set (og := Grid.worldToGrid m0 (px point) (py point)).
  destruct (Grid.isInMap m0 og.1 og.2) eqn:Hin; cbn [negb].
  2: { split; [done |]. split; [apply same_geometry_refl |]. by split. }
  set (m' := Grid.raytrace m0 droneGrid.1 droneGrid.2 og.1 og.2).
  assert (Hwf' : Grid.wf m') by (apply raytrace_wf, Hok).
  assert (Hgeo : same_geometry m0 m') by apply raytrace_geometry.
  assert (Hin' : Grid.isInMap m' og.1 og.2 = true).
  { destruct (same_geometry_cells m0 m' og.1 og.2 Hgeo) as [-> _]. done. }
  split; [| split; [| split]].
  - apply setOccupancy_stats_ok; [by left |].
    by apply raytrace_loop_stats_ok.
  - eapply same_geometry_trans; [exact Hgeo | apply setOccupancy_geometry].
  - intros x y Hocc.
    rewrite getOccupancy_setOccupancy by (done || lia).
    destruct (_ && _ && _); [done |].
    unfold m'. rewrite raytrace_read by apply Hok.
    rewrite Hocc. cbn. by rewrite andb_false_r.
  - intros _ _.
    rewrite getOccupancy_setOccupancy by (done || lia).
    by rewrite Hin', !Z.eqb_refl.
Qed.

(** X16. On a map the grid operations can produce,
    [updateMapFromPointCloud] keeps the frame of the map and the agreement
    of its statistics with its cells; no occupied cell is freed; and the
    cell of every sampled point within 1 m of the vehicle's height that
    falls in the map is occupied afterwards, in the raw and in the inflated
    array. *)
Theorem updateMapFromPointCloud_marks
    (m : Grid.OccupancyGrid) (points : list Pos) (dronePos : Pos) :
  Grid.stats_ok m ->
  let m' := updateMapFromPointCloud m points dronePos in
  Grid.stats_ok m' /\ same_geometry m m' /\
  (forall x y, Grid.getOccupancy m x y = -1 -> Grid.getOccupancy m' x y = -1) /\
  (forall (j : nat) (point : Pos),
     points !! (10 * j)%nat = Some point ->
     (Qabs (pz point - pz dronePos) <= 1)%Q ->
     let cell := Grid.worldToGrid m (px point) (py point) in
     Grid.isInMap m cell.1 cell.2 = true ->
     Grid.getOccupancy m' cell.1 cell.2 = -1 /\
     Grid.getInflatedOccupancy m' cell.1 cell.2 = -1).
Proof.
  intros Hok. cbv zeta. unfold updateMapFromPointCloud. cbv zeta.
  set (dg := Grid.worldToGrid m (px dronePos) (py dronePos)).
  set (body := fun m0 point =>
         if Qltb 1 (Qabs (pz point - pz dronePos)) then m0
         else
           if negb (Grid.isInMap m0 (Grid.worldToGrid m0 (px point) (py point)).1
                                 (Grid.worldToGrid m0 (px point) (py point)).2)
           then m0
           else Grid.setOccupancy
                  (Grid.raytrace m0 dg.1 dg.2
                     (Grid.worldToGrid m0 (px point) (py point)).1
                     (Grid.worldToGrid m0 (px point) (py point)).2)
                  (Grid.worldToGrid m0 (px point) (py point)).1
                  (Grid.worldToGrid m0 (px point) (py point)).2 (-1)).
  set (samples := every_nth 10 0 points).
  set (J := fun m0 : Grid.OccupancyGrid =>
         Grid.stats_ok m0 /\ same_geometry m m0 /\
         forall x y, Grid.getOccupancy m x y = -1 -> Grid.getOccupancy m0 x y = -1).
  assert (Hstep : forall m0 point, J m0 -> J (body m0 point)).
  { intros m0 point (Hok0 & Hgeo0 & Hkeep0).
    destruct (cloud_point_step m0 dg dronePos point Hok0) as (H1 & H2 & H3 & _).
    split; [exact H1 |]. split; [by eapply same_geometry_trans |].
    intros x y Hocc. apply H3. by apply Hkeep0. }
  assert (HJ : J (foldl body m samples)).
  { apply foldl_keeps; [intros; by apply Hstep |].
    split; [done |]. split; [apply same_geometry_refl | done]. }
  destruct HJ as (Hok1 & Hgeo1 & Hkeep1).
  set (m1 := foldl body m samples) in *.
  destruct (inflateObstacles_frame m1) as [E _].
  assert (Hocc' : forall x y, Grid.getOccupancy (Grid.inflateObstacles m1) x y
                              = Grid.getOccupancy m1 x y)
    by (intros; rewrite E; reflexivity).
  split; [by apply inflateObstacles_stats_ok |].
  split; [eapply same_geometry_trans; [exact Hgeo1 | apply inflateObstacles_geometry] |].
  split; [intros x y Hocc; rewrite Hocc'; by apply Hkeep1 |].
  intros j point Hj Hz Hin.
  set (cell := Grid.worldToGrid m (px point) (py point)) in *.
  assert (Hmem : point ∈ samples).
  { apply list_elem_of_lookup. exists j. unfold samples.
    rewrite every_nth_lookup by lia.
    replace (0 + j * 10)%nat with (10 * j)%nat by lia. done. }
  assert (Hmark : Grid.getOccupancy m1 cell.1 cell.2 = -1).
  { unfold m1.
    apply (foldl_sets J (fun m0 => Grid.getOccupancy m0 cell.1 cell.2 = -1)
                      body samples point Hstep); [| | exact Hmem |].
    - intros m0 p (Hok0 & _) Hc.
      destruct (cloud_point_step m0 dg dronePos p Hok0) as (_ & _ & H3 & _).
      by apply H3.
    - intros m0 (Hok0 & Hgeo0 & _).
      destruct (cloud_point_step m0 dg dronePos point Hok0) as (_ & _ & _ & H4).
      destruct (same_geometry_cells m m0 cell.1 cell.2 Hgeo0) as [Hmap Hw2g].
      unfold body, cell. rewrite <- Hw2g.
      apply H4; [done |]. rewrite Hw2g. fold cell. by rewrite Hmap.
    - split; [done |]. split; [apply same_geometry_refl | done]. }
  split; [by rewrite Hocc' |].
  destruct (same_geometry_cells m m1 cell.1 cell.2 Hgeo1) as [Hmap _].
  destruct (inflateObstacles_cell m1 cell.1 cell.2 Hok1) as [Hsame | [Hm _]];
    [by rewrite Hmap | congruence | done].
Qed.

Lemma open_room_stats_ok : Grid.stats_ok open_room.
Proof.
  unfold Grid.stats_ok, Grid.wf, open_room.
  cbn [Grid.width Grid.height Grid.data Grid.inflatedData Grid.stats
       Grid.inflationRadius Grid.robotRadius Grid.resolution
       Grid.unknown Grid.free Grid.occupied].
  rewrite !length_replicate, !count_val_replicate.
  split; [repeat split; try done; lia |].
  split; [apply Forall_replicate; auto |]. done.
Qed.

Lemma updateMapFromPointCloud_marks_witness :
  Grid.getOccupancy
    (updateMapFromPointCloud open_room [mkPos (1 # 2) 0 1] west) 7 5 = -1 /\
  Grid.getInflatedOccupancy
    (updateMapFromPointCloud open_room [mkPos (1 # 2) 0 1] west) 7 5 = -1.
Proof.
  destruct (updateMapFromPointCloud_marks open_room [mkPos (1 # 2) 0 1] west
              open_room_stats_ok) as (_ & _ & _ & H).
  apply (H 0%nat (mkPos (1 # 2) 0 1)); [reflexivity | discriminate | reflexivity].
Defined.

(** *** The start area *)

Lemma seed_start_area_read (m : Grid.OccupancyGrid) (sx sy x y : Z) :
  Grid.wf m ->
  let m' := seed_start_area m (sx, sy) in
  Grid.getOccupancy m' x y =
    (if Grid.isInMap m x y
        && ((x - sx) * (x - sx) + (y - sy) * (y - sy) <=? 15 * 15)
     then 1 else Grid.getOccupancy m x y) /\
  Grid.inflatedData m' = Grid.inflatedData m /\
  same_geometry m m'.
Proof.
  intros Hwf. cbv zeta. unfold seed_start_area. cbv zeta. cbn [fst snd].
  set (inner := fun (dx : Z) (m2 : Grid.OccupancyGrid) (dy : Z) =>
         if Grid.isInMap m2 (sx + dx) (sy + dy)
            && sqrt_le (dx * dx + dy * dy) 15
         then Grid.setOccupancy m2 (sx + dx) (sy + dy) 1 else m2).
  set (range := seqZ (- 15) (2 * 15 + 1)).
  set (J := fun m2 : Grid.OccupancyGrid =>
         Grid.wf m2 /\ same_geometry m m2 /\
         Grid.inflatedData m2 = Grid.inflatedData m /\
         forall x y,
           Grid.getOccupancy m2 x y = Grid.getOccupancy m x y \/
           (Grid.isInMap m x y = true /\
            (x - sx) * (x - sx) + (y - sy) * (y - sy) <= 15 * 15 /\
            Grid.getOccupancy m2 x y = 1)).
  assert (Hinner : forall dx m2 dy, J m2 -> J (inner dx m2 dy)).
  { intros dx m2 dy HJ2. assert (HJ2' := HJ2).
    destruct HJ2' as (Hwf2 & Hgeo2 & Hinf2 & Hc2). unfold inner.
    destruct (Grid.isInMap m2 (sx + dx) (sy + dy)) eqn:Hin; cbn [andb];
      [| exact HJ2].
    destruct (sqrt_le _ _) eqn:Hd; [| exact HJ2].
    split; [by apply setOccupancy_wf |].
    split; [eapply same_geometry_trans; [done | apply setOccupancy_geometry] |].
    split.
    { destruct (setOccupancy_shape m2 (sx + dx) (sy + dy) 1) as [-> _]. done. }
    intros x0 y0. rewrite getOccupancy_setOccupancy by (done || lia).
    rewrite Hin. cbn [andb].
    destruct (Z.eqb_spec x0 (sx + dx)) as [-> | ?]; cbn [andb]; [| apply Hc2].
    destruct (Z.eqb_spec y0 (sy + dy)) as [-> | ?]; [| apply Hc2].
    right. destruct (same_geometry_cells m m2 (sx + dx) (sy + dy) Hgeo2) as [Hm _].
    split; [congruence |]. split; [| done].
    unfold sqrt_le in Hd. apply andb_prop in Hd as [_ Hd]. apply Z.leb_le in Hd.
    nia. }
  assert (Houter : forall m1 dx, J m1 -> J (foldl (inner dx) m1 range)).
  { intros m1 dx H1. apply foldl_keeps; [| done]. intros. by apply Hinner. }
  assert (HJ0 : J m).
  { split; [done |]. split; [apply same_geometry_refl |]. split; [done |]. by left. }
  assert (HJ : J (foldl (fun m1 dx => foldl (inner dx) m1 range) m range)).
  { apply foldl_keeps; [| done]. intros. by apply Houter. }
  fold range. change (fun m1 dx => foldl (fun m2 dy =>
      if Grid.isInMap m2 (sx + dx) (sy + dy) && sqrt_le (dx * dx + dy * dy) 15
      then Grid.setOccupancy m2 (sx + dx) (sy + dy) 1 else m2) m1 range)
    with (fun m1 dx => foldl (inner dx) m1 range).
  set (m' := foldl (fun m1 dx => foldl (inner dx) m1 range) m range) in *.
  destruct HJ as (Hwf' & Hgeo' & Hinf' & Hc').
  split; [| by split].
  destruct (Grid.isInMap m x y) eqn:Hin; cbn [andb].
  2: { destruct (Hc' x y) as [H | (H & _)]; [done | congruence]. }
  destruct (Z.leb_spec ((x - sx) * (x - sx) + (y - sy) * (y - sy)) (15 * 15))
    as [Hd | Hd].
  2: { destruct (Hc' x y) as [H | (_ & H & _)]; [done | lia]. }
  (* the cell is in the disk: its step sets it, the later steps keep it *)
  destruct (disk_in_square (x - sx) (y - sy) 15 ltac:(lia) Hd) as [Hdx Hdy].
  set (P := fun m2 : Grid.OccupancyGrid => Grid.getOccupancy m2 x y = 1).
  assert (Hkeep : forall dx m2 dy, J m2 -> P m2 -> P (inner dx m2 dy)).
  { intros dx m2 dy (Hwf2 & _) Hp. unfold inner, P in *.
    destruct (_ && _); [| done].
    rewrite getOccupancy_setOccupancy by (done || lia).
    by destruct (_ && _ && _). }
  unfold m'.
  apply (foldl_sets J P (fun m1 dx => foldl (inner dx) m1 range) range (x - sx)).
  - intros. by apply Houter.
  - intros m1 dx H1 Hp.
    apply (foldl_keeps (fun m2 => J m2 /\ P m2)); [| done].
    intros m2 dy _ [H2 Hp2]. split; [by apply Hinner | by apply Hkeep].
  - intros m1 H1.
    apply (foldl_sets J P (inner (x - sx)) range (y - sy)).
    + intros. by apply Hinner.
    + intros. by apply Hkeep.
    + intros m2 (Hwf2 & Hgeo2 & _). unfold inner, P.
      replace (sx + (x - sx)) with x by lia.
      replace (sy + (y - sy)) with y by lia.
      destruct (same_geometry_cells m m2 x y Hgeo2) as [-> _]. rewrite Hin.
      unfold sqrt_le.
      destruct (Z.leb_spec ((x - sx) * (x - sx) + (y - sy) * (y - sy)) (15 * 15));
        [| lia].
      change (0 <=? 15) with true. cbn [andb].
      rewrite getOccupancy_setOccupancy by (done || lia).
      destruct (same_geometry_cells m m2 x y Hgeo2) as [-> _].
      by rewrite Hin, !Z.eqb_refl.
    + apply elem_of_seqZ. lia.
    + done.
  - apply elem_of_seqZ. lia.
  - done.
Qed.

Lemma new_wf w h r : 0 <= w * h -> Grid.wf (Grid.new w h r).
Proof. intros H. by apply new_stats_ok. Qed.

Lemma new_read w h r x y :
  aget (Grid.data (Grid.new w h r)) (Grid.index (Grid.new w h r) x y) = 0 /\
  aget (Grid.inflatedData (Grid.new w h r)) (Grid.index (Grid.new w h r) x y)
  = 0.
Proof.
  unfold Grid.new. cbv zeta. cbn [Grid.data Grid.inflatedData].
  unfold aget.
  destruct (replicate (Z.to_nat (w * h)) 0 !! _) as [v |] eqn:Hv; [| done].
  apply lookup_replicate in Hv as [-> _]. done.
Qed.

(** X17. When a suspended [startExploration] resumes (the map size being
    valid and the start position set), the engine explores on a fresh map of
    the configured size: a cell of the map is free when it lies within 15
    cells of the start cell and unknown otherwise, the inflated array is
    unknown everywhere, and the start is announced and the first planning
    step armed. *)
Theorem startExploration_resume_map (s : State) (n : nat) (sp : Pos) :
  pendingStarts s = S n ->
  0 <= mapWidth (config s) * mapHeight (config s) ->
  startPos s = Some sp ->
  let c := config s in
  let s' := startExploration_resume s in
  let start :=
    Grid.worldToGrid (Grid.new (mapWidth c) (mapHeight c) (resolution c))
                     (px sp) (py sp) in
  isExploring s' = true /\ pendingStarts s' = n /\
  outbox s' = ExplorationStep_after500 :: Emit_started sp :: outbox s /\
  same_geometry (Grid.new (mapWidth c) (mapHeight c) (resolution c)) (map s') /\
  (forall x y,
     Grid.isInMap (map s') x y = true ->
     Grid.getOccupancy (map s') x y =
       (if (x - start.1) * (x - start.1) + (y - start.2) * (y - start.2)
           <=? 15 * 15
        then 1 else 0) /\
     Grid.getInflatedOccupancy (map s') x y = 0).
Proof.
  intros Hpend Hsize Hsp. cbv zeta. unfold startExploration_resume.
  rewrite Hpend. cbv zeta.
  destruct (Z.ltb_spec (mapWidth (config (set_pendingStarts n s))
                        * mapHeight (config (set_pendingStarts n s))) 0)
    as [Hneg | _]; [simp_state; lia |].
  simp_state. rewrite Hsp. simp_state.
  set (m0 := Grid.new (mapWidth (config s)) (mapHeight (config s))
                      (resolution (config s))).
  set (start := Grid.worldToGrid m0 (px sp) (py sp)).
  assert (Hwf : Grid.wf m0) by by apply new_wf.
  split; [done |]. split; [done |]. split; [done |].
  destruct start as [sx sy] eqn:Hstart.
  destruct (seed_start_area_read m0 sx sy 0 0 Hwf) as (_ & _ & Hgeo).
  split; [exact Hgeo |].
  intros x y Hin.
  destruct (seed_start_area_read m0 sx sy x y Hwf) as (Hread & Hinf & _).
  destruct (same_geometry_cells m0 _ x y Hgeo) as [Hmap _].
  rewrite Hmap in Hin. cbn [fst snd].
  destruct (new_read (mapWidth (config s)) (mapHeight (config s))
                     (resolution (config s)) x y) as [Hd Hi].
  fold m0 in Hd, Hi.
  split.
  - cbv zeta in Hread. rewrite Hread, Hin. cbn [andb].
    destruct (_ <=? _); [done |].
    unfold Grid.getOccupancy. by rewrite Hin.
  - unfold Grid.getInflatedOccupancy. rewrite Hmap, Hin. cbn [negb].
    cbv zeta in Hinf. rewrite Hinf.
    destruct Hgeo as (Hw & _). unfold Grid.index. rewrite Hw. exact Hi.
Qed.

Lemma startExploration_resume_map_witness :
  isExploring (startExploration_resume start_pending) = true /\
  pendingStarts (startExploration_resume start_pending) = 0%nat.
Proof.
  destruct (startExploration_resume_map start_pending 0 home)
    as (H1 & H2 & _); [reflexivity | discriminate | reflexivity |].
  exact (conj H1 H2).
Defined.

(** *** Planning needs the inflated map *)

Section Planning.
Variable sqrtQ : Q -> Q.

Lemma isPathClear_needs_free m sx sy gx gy :
  (forall x y, Grid.getInflatedOccupancy m x y <> 1) ->
  isPathClear m sx sy gx gy = false.
Proof.
  intros Hno. unfold isPathClear. cbv zeta.
  destruct (bresenhamLine_ends (Grid.worldToGrid m sx sy).1
              (Grid.worldToGrid m sx sy).2 (Grid.worldToGrid m gx gy).1
              (Grid.worldToGrid m gx gy).2) as [Hhead _].
  destruct (bresenhamLine _ _ _ _) as [| c l]; [done |].
  cbn [forallb].
  destruct (Z.eqb_spec (Grid.getInflatedOccupancy m c.1 c.2) 1) as [He | _].
  - by apply Hno in He.
  - by rewrite andb_false_r.
Qed.

Lemma selectBestFrontier_needs_free s fs cur :
  (forall x y, Grid.getInflatedOccupancy (map s) x y <> 1) ->
  selectBestFrontier sqrtQ s fs cur = (None, s).
Proof.
  intros Hno. unfold selectBestFrontier.
  assert (Hfold : foldl (fun best f => better best (evaluate sqrtQ s cur f))
                        None fs = None).
  { induction fs as [| f fs IH]; [done |].
    cbn [foldl]. rewrite evaluate_blocked; [exact IH |].
    by apply isPathClear_needs_free. }
  by rewrite Hfold.
Qed.

Lemma explorationStep_needs_free now s :
  (forall x y, Grid.getInflatedOccupancy (map s) x y <> 1) ->
  is_Some (currentPos s) -> is_Some (startPos s) ->
  isExploring s = true -> isPaused s = false ->
  (isWaitingForArrival s = false \/ isPreparingNextGoal s = true) ->
  isExploring (explorationStep sqrtQ now s) = false.
Proof.
  intros Hno [cur Hcur] [sp Hsp] Hex Hp Hw. unfold explorationStep.
  rewrite Hex, Hp. cbn [negb orb].
  assert (Hguard : isWaitingForArrival s && negb (isPreparingNextGoal s) = false).
  { destruct Hw as [-> | ->]; [done | by rewrite andb_false_r]. }
  rewrite Hguard. cbv zeta.
  set (s1 := if isPreparingNextGoal s then set_isWaitingForArrival false s else s).
  assert (Hs1 : currentPos s1 = Some cur /\ startPos s1 = Some sp /\ map s1 = map s).
  { unfold s1. destruct (isPreparingNextGoal s); by simp_state. }
  destruct Hs1 as (Hc1 & Hsp1 & Hm1).
  destruct (Qltb _ _); [apply stopExploration_not_exploring |].
  rewrite Hc1, Hsp1.
  destruct (hypot_gt _ _ _); [apply stopExploration_not_exploring |].
  simp_state.
  destruct (detectFrontiers s1 cur) as [| f fs] eqn:Hdet;
    [apply stopExploration_not_exploring |].
  rewrite selectBestFrontier_needs_free;
    [apply stopExploration_not_exploring |].
  simp_state. by rewrite Hm1.
Qed.

(** X18. The planning step that [startExploration] arms ends the
    exploration when it runs before any point cloud has been processed: on
    the fresh map the inflated array holds no free cell, so [isPathClear]
    accepts no path and no frontier can be chosen. *)
Theorem first_planning_step_needs_a_cloud (s : State) (n : nat) (sp : Pos) (now : Z) :
  pendingStarts s = S n ->
  0 <= mapWidth (config s) * mapHeight (config s) ->
  startPos s = Some sp -> is_Some (currentPos s) ->
  isPaused s = false -> isWaitingForArrival s = false ->
  let s1 := startExploration_resume s in
  isExploring s1 = true /\
  (forall x y, Grid.getInflatedOccupancy (map s1) x y <> 1) /\
  (forall a b c d, isPathClear (map s1) a b c d = false) /\
  isExploring (explorationStep sqrtQ now s1) = false.
Proof.
  intros Hpend Hsize Hsp Hcur Hp Hw. cbv zeta.
  destruct (startExploration_resume_map s n sp Hpend Hsize Hsp)
    as (Hex & _ & _ & _ & Hcells).
  cbv zeta in Hcells.
  assert (Hno : forall x y,
             Grid.getInflatedOccupancy (map (startExploration_resume s)) x y <> 1).
  { intros x y.
    destruct (Grid.isInMap (map (startExploration_resume s)) x y) eqn:Hin.
    - destruct (Hcells x y Hin) as [_ ->]. done.
    - unfold Grid.getInflatedOccupancy. by rewrite Hin. }
  split; [done |]. split; [done |].
  split; [intros; by apply isPathClear_needs_free |].
  apply explorationStep_needs_free; try done.
  - unfold startExploration_resume. rewrite Hpend. cbv zeta.
    destruct (_ <? 0); [by simp_state |]. simp_state. rewrite Hsp. by simp_state.
  - unfold startExploration_resume. rewrite Hpend. cbv zeta.
    destruct (_ <? 0); simp_state; rewrite Hsp; by simp_state.
  - unfold startExploration_resume. rewrite Hpend. cbv zeta.
    destruct (_ <? 0); [by simp_state |]. simp_state. rewrite Hsp. by simp_state.
  - left. unfold startExploration_resume. rewrite Hpend. cbv zeta.
    destruct (_ <? 0); [by simp_state |]. simp_state. rewrite Hsp. by simp_state.
Qed.

End Planning.

Lemma first_planning_step_needs_a_cloud_witness :
  isExploring (startExploration_resume start_pending) = true /\
  isExploring
    (explorationStep sqrt_approx 2600 (startExploration_resume start_pending))
  = false.
Proof.
  destruct (first_planning_step_needs_a_cloud sqrt_approx start_pending 0 home 2600)
    as (H1 & _ & _ & H2);
    [reflexivity | discriminate | reflexivity | by eexists | reflexivity
    | reflexivity |].
  exact (conj H1 H2).
Defined.

(** *** Frontiers *)

Lemma cluster_around_sizes c (raw : list (Q * Q)) (i : nat) (pi : Q * Q)
    (visited : gset nat) :
  (i < length raw)%nat ->
  (forall k, k ∈ visited -> (k < length raw)%nat) ->
  let r := cluster_around c raw i pi visited in
  (forall k, k ∈ r.1 -> (k < length raw)%nat) /\
  (size r.1 + 1 = size ({[i]} ∪ visited) + length r.2)%nat.
Proof.
  intros Hi Hvis. cbv zeta. unfold cluster_around.
  set (K := fun r : gset nat * list (Q * Q) =>
         (forall k, k ∈ r.1 -> (k < length raw)%nat) /\
         (size r.1 + 1 = size ({[i]} ∪ visited) + length r.2)%nat).
  apply (foldl_keeps K).
  - intros [vis cluster] j _ [Hb Hs]. cbn [fst snd] in Hb, Hs.
    destruct (decide (j ∈ vis)) as [| Hj]; [by split |].
    destruct (raw !! j) as [pj |] eqn:Hpj; [| by split].
    destruct (hypot_lt _ _ _); [| by split].
    split; cbn [fst snd].
    + intros k Hk. apply elem_of_union in Hk as [Hk | Hk]; [| by apply Hb].
      apply elem_of_singleton in Hk as ->. by eapply lookup_lt_Some.
    + rewrite size_union by set_solver. rewrite size_singleton, length_app.
      cbn [length]. lia.
  - split; cbn [fst snd].
    + intros k Hk. apply elem_of_union in Hk as [Hk | Hk]; [| by apply Hvis].
      by apply elem_of_singleton in Hk as ->.
    + cbn [length]. lia.
Qed.

Lemma cluster_around_head c (raw : list (Q * Q)) (i : nat) (pi : Q * Q)
    (visited : gset nat) :
  exists l, (cluster_around c raw i pi visited).2 = pi :: l.
Proof.
  unfold cluster_around.
  apply (foldl_keeps (fun r : gset nat * list (Q * Q) => exists l, r.2 = pi :: l)).
  - intros [vis cluster] j _ [l Hl]. cbn [snd] in Hl. subst cluster.
    destruct (decide (j ∈ vis)); [by exists l |].
    destruct (raw !! j) as [pj |]; [| by exists l].
    destruct (hypot_lt _ _ _); [| by exists l].
    by exists (l ++ [pj]).
  - by exists [].
Qed.

(** X19. The clusters [clusterFrontiers] returns: each holds at least
    [minClusterSize] points and at least one; together they hold no more
    points than were given, every point belonging to at most one cluster;
    and no point gives no cluster. *)
Theorem clusterFrontiers_sizes (c : Config) (rawFrontiers : list (Q * Q)) :
  let clusters := clusterFrontiers c rawFrontiers in
  Forall (fun f => minClusterSize c <= fsize f /\ 1 <= fsize f) clusters /\
  foldr (fun f total => fsize f + total) 0 clusters
    <= Z.of_nat (length rawFrontiers) /\
  (rawFrontiers = [] -> clusters = []).
Proof.
  cbv zeta. split; [| split]; [| | by intros ->].
  - unfold clusterFrontiers.
    set (I := fun r : gset nat * list Frontier =>
           Forall (fun f => minClusterSize c <= fsize f /\ 1 <= fsize f) r.2).
    apply (foldl_keeps I); [| by apply Forall_nil].
    intros [visited clusters] i _ HI. unfold I in *. cbn [snd] in HI.
    destruct (decide (i ∈ visited)); [done |].
    destruct (rawFrontiers !! i) as [pi |] eqn:Hpi; [| done].
    destruct (cluster_around c rawFrontiers i pi visited) as [vis' cluster] eqn:Hca.
    destruct (Z.leb_spec (minClusterSize c) (Z.of_nat (length cluster)));
      [| done].
    cbn [snd]. apply Forall_app. split; [done |].
    apply Forall_singleton. cbn [cluster_center fsize]. split; [done |].
    destruct (cluster_around_head c rawFrontiers i pi visited) as [l Hl].
    rewrite Hca in Hl. cbn [snd] in Hl. subst cluster. cbn [length]. lia.
  - unfold clusterFrontiers.
    set (n := length rawFrontiers).
    set (I := fun r : gset nat * list Frontier =>
           (forall k, k ∈ r.1 -> (k < n)%nat) /\
           foldr (fun f total => fsize f + total) 0 r.2 <= Z.of_nat (size r.1)).
    assert (HI : I (foldl (fun '(visited, clusters) i =>
                if decide (i ∈ visited) then (visited, clusters)
                else
                  match rawFrontiers !! i with
                  | None => (visited, clusters)
                  | Some pi =>
                      let '(visited', cluster) :=
                        cluster_around c rawFrontiers i pi visited in
                      if minClusterSize c <=? Z.of_nat (length cluster)
                      then (visited', clusters ++ [cluster_center cluster])
                      else (visited', clusters)
                  end) (∅, []) (seq 0 n))).
    { apply (foldl_keeps I).
      - intros [visited clusters] i _ [Hb Hs]. cbn [fst snd] in Hb, Hs.
        destruct (decide (i ∈ visited)) as [| Hi]; [by split |].
        destruct (rawFrontiers !! i) as [pi |] eqn:Hpi; [| by split].
        assert (Hlt : (i < n)%nat) by by eapply lookup_lt_Some.
        destruct (cluster_around_sizes c rawFrontiers i pi visited Hlt Hb)
          as [Hb' Hs'].
        destruct (cluster_around c rawFrontiers i pi visited)
          as [vis' cluster] eqn:Hca.
        cbn [fst snd] in Hb', Hs'.
        rewrite size_union in Hs' by set_solver.
        rewrite size_singleton in Hs'.
        destruct (minClusterSize c <=? Z.of_nat (length cluster));
          split; cbn [fst snd]; try done.
        + rewrite foldr_app. cbn [foldr cluster_center fsize].
          assert (Hsum : forall (l : list Frontier) (z : Z),
                     foldr (fun f total => fsize f + total) z l
                     = foldr (fun f total => fsize f + total) 0 l + z).
          { clear. induction l as [| f l IH]; intros z; cbn [foldr]; [lia |].
            rewrite IH. lia. }
          rewrite Hsum. lia.
        + lia.
      - split; cbn [fst snd]; [| by rewrite size_empty].
        intros k Hk. by apply elem_of_empty in Hk. }
    destruct HI as [Hb Hs].
    set (r := foldl _ _ _) in *.
    assert (Hsub : r.1 ⊆ set_seq 0 n).
    { intros k Hk. apply elem_of_set_seq. split; [lia |]. by apply Hb. }
    apply subseteq_size in Hsub. rewrite size_set_seq in Hsub.
    fold n. lia.
Qed.

Lemma flat_map_nil {A B} (f : A -> list B) (l : list A) :
  (forall a, a ∈ l -> f a = []) -> flat_map f l = [].
Proof.
  induction l as [| a l IH]; intros Hf; [done |].
  cbn [flat_map]. rewrite Hf by apply list_elem_of_here. cbn.
  apply IH. intros a' Ha'. apply Hf. by apply list_elem_of_further.
Qed.

Section Complete.
Variable sqrtQ : Q -> Q.

(** X20. When no free cell of the map touches an unknown cell,
    [detectFrontiers] finds nothing, and a planning step that gets as far
    as detecting frontiers ends the exploration as complete. *)
Theorem explorationStep_complete (s : State) (cur sp : Pos) (now : Z) :
  (forall x y dx dy,
     Grid.getOccupancy (map s) x y = 1 ->
     -1 <= dx <= 1 -> -1 <= dy <= 1 -> (dx, dy) <> (0, 0) ->
     Grid.getOccupancy (map s) (x + dx) (y + dy) <> 0) ->
  detectFrontiers s cur = [] /\
  (isExploring s = true -> isPaused s = false ->
   isWaitingForArrival s = false ->
   currentPos s = Some cur -> startPos s = Some sp ->
   Qltb (maxDuration (config s))
        (inject_Z (now - default 0 (startTime s)) / 1000) = false ->
   hypot_gt (px cur - px sp) (py cur - py sp) (maxDistance (config s)) = false ->
   explorationStep sqrtQ now s
   = stopExploration "complete" now
       (set_frontiers []
          (if isPreparingNextGoal s then set_isWaitingForArrival false s else s)) /\
   isExploring (explorationStep sqrtQ now s) = false).
Proof.
  intros Hno.
  assert (Hdet : forall s0 cur0, map s0 = map s -> detectFrontiers s0 cur0 = []).
  { intros s0 cur0 Hm. unfold detectFrontiers. cbv zeta. rewrite Hm.
    rewrite flat_map_nil; [reflexivity |].
    intros x _. apply flat_map_nil. intros y _.
    destruct (Z.eqb_spec (Grid.getOccupancy (map s) x y) 1) as [Hfree | _];
      [| done].
    cbn [andb].
    enough (hasUnknownNeighbor (map s) x y = false) as -> by done.
    apply not_true_is_false. intros H. unfold hasUnknownNeighbor in H.
    apply existsb_exists in H as (dx & Hdx & H).
    apply existsb_exists in H as (dy & Hdy & H).
    apply list_elem_of_In, elem_of_seqZ in Hdx, Hdy.
    destruct ((dx =? 0) && (dy =? 0)) eqn:Hz; [done |].
    apply Z.eqb_eq in H. revert H. apply Hno; [done | lia | lia |].
    intros [= -> ->]. done. }
  split; [by apply Hdet |].
  intros Hex Hp Hw Hcur Hsp Hdur Hdist.
  assert (Hstep : explorationStep sqrtQ now s
   = stopExploration "complete" now
       (set_frontiers []
          (if isPreparingNextGoal s then set_isWaitingForArrival false s else s))).
  { unfold explorationStep. rewrite Hex, Hp, Hw. cbn [negb orb andb]. cbv zeta.
    set (s1 := if isPreparingNextGoal s then set_isWaitingForArrival false s else s).
    assert (Hs1 : currentPos s1 = Some cur /\ startPos s1 = Some sp /\
                  map s1 = map s /\ config s1 = config s /\
                  startTime s1 = startTime s).
    { unfold s1. destruct (isPreparingNextGoal s); by simp_state. }
    destruct Hs1 as (Hc1 & Hsp1 & Hm1 & Hcf1 & Ht1).
    rewrite Hcf1, Ht1, Hdur, Hc1, Hsp1, Hdist.
    rewrite (Hdet s1 cur Hm1). simp_state. reflexivity. }
  split; [exact Hstep |]. rewrite Hstep. apply stopExploration_not_exploring.
Qed.

End Complete.

Lemma open_room_known x y : Grid.getOccupancy open_room x y <> 0.
Proof.
  unfold Grid.getOccupancy.
  destruct (Grid.isInMap open_room x y) eqn:Hin; cbn [negb]; [| done].
  pose proof (index_in_range open_room x y Hin) as Hidx.
  change (Grid.width open_room * Grid.height open_room) with 100 in Hidx.
  unfold aget. change (Grid.data open_room) with (replicate 100 1).
  rewrite lookup_replicate_2 by lia. done.
Qed.

Lemma explorationStep_complete_witness : detectFrontiers room_state west = [].
Proof.
  apply (explorationStep_complete sqrt_approx room_state west west 0).
  intros x y dx dy _ _ _ _. apply open_room_known.
Defined.

End MapFacts.

(** ** What every run of the engine keeps *)

Module OrderFacts.
Import Engine Scenarios GridFacts EngineFacts PathFacts MissionFacts StateFacts
       BookkeepingFacts LifecycleFacts Runs.

(** *** The outbox *)

Lemma sent_since_trans out1 out2 out3 :
  sent_since out1 out2 -> sent_since out2 out3 -> sent_since out1 out3.
Proof.
  intros H12 H23. induction H23 as [| o out' Ho _ IH | m out' Ht Hy _ IH].
  - exact H12.
  - by apply sent_notice.
  - by apply sent_mission.
Qed.

Lemma sent_since_started out out' :
  sent_since out out' -> missions_started out -> missions_started out'.
Proof.
  intros H Hout. induction H as [| o out' Ho _ IH | m out' Ht Hy _ IH].
  - exact Hout.
  - destruct o; try discriminate Ho; exact IH.
  - cbn [missions_started]. by repeat split.
Qed.

Lemma mission_of_tasks id (wps : list Waypoint) :
  wps <> [] ->
  tasks (mission_of id wps) <> [] /\
  Forall (fun t => yaw t = 0 /\ camera_on t = false) (tasks (mission_of id wps)).
Proof.
  intros Hne. unfold mission_of. cbn [tasks]. split.
  - destruct wps; [done | discriminate].
  - apply Forall_fmap, Forall_true. by intros.
Qed.

(** *** Every handler is orderly *)

Lemma orderly_refl s : orderly s s.
Proof. split; [auto |]. split; [reflexivity | apply sent_nothing]. Qed.

Lemma orderly_trans s1 s2 s3 : orderly s1 s2 -> orderly s2 s3 -> orderly s1 s3.
Proof.
  intros (A1 & B1 & C1) (A2 & B2 & C2). split; [auto |]. split.
  - by etrans.
  - by eapply sent_since_trans.
Qed.

(** A state that differs from [s] in other fields, or by notices sent. *)
Ltac ord :=
  unfold orderly, publishExplorationStatus; simp_state;
  split; [auto | split; [reflexivity |]];
  repeat first [apply sent_nothing | apply sent_notice; [reflexivity |]].

Lemma orderly_mission id wps s :
  wps <> [] ->
  orderly s (send (PublishExecution_after500 id 0)
               (send (PublishMission (mission_of id wps)) s)).
Proof.
  intros Hne. destruct (mission_of_tasks id wps Hne) as [Ht Hy].
  unfold orderly; simp_state. split; [auto |]. split; [reflexivity |].
  apply (sent_mission _ (mission_of id wps)); [done | done | apply sent_nothing].
Qed.

Lemma orderly_returnToHome now s : orderly s (returnToHome now s).
Proof.
  unfold returnToHome.
  destruct (startPos s) as [sp |]; [| apply orderly_refl].
  destruct (currentPos s); [| apply orderly_refl].
  cbv zeta.
  match goal with
  | |- orderly _ (set_returnHomeMissionId _ (set_isReturningHome _ ?s1)) =>
      apply (orderly_trans _ s1); [apply orderly_mission; discriminate | ord]
  end.
Qed.

Lemma orderly_stopExploration reason now s : orderly s (stopExploration reason now s).
Proof.
  unfold stopExploration.
  destruct (negb (isExploring s)); [apply orderly_refl |]. cbv zeta.
  set (s1 := set_isWaitingForArrival false _).
  apply (orderly_trans _ s1); [unfold s1; ord |]. clearbody s1.
  destruct (startPos s1); [| ord].
  destruct (currentPos s1); [| apply orderly_refl].
  destruct (hypot_gt _ _ _); [apply orderly_returnToHome | ord].
Qed.

Lemma generateWaypoints_nonempty cur g : generateWaypoints cur g <> [].
Proof.
  pose proof (waypoints_length cur g) as Hlen.
  destruct (generateWaypoints cur g); [cbn in Hlen; lia | discriminate].
Qed.

Lemma orderly_publishExplorationMission now g s :
  orderly s (publishExplorationMission now g s).
Proof.
  unfold publishExplorationMission. cbv zeta.
  set (s1 := set_currentMissionId _ s).
  apply (orderly_trans _ s1); [unfold s1; ord |]. clearbody s1.
  destruct (currentPos s1) as [cur |]; [| apply orderly_refl].
  apply orderly_mission, generateWaypoints_nonempty.
Qed.

Lemma orderly_cloud_update now points cur s :
  orderly s (cloud_update now points cur s).
Proof.
  unfold cloud_update. cbv zeta.
  set (s1 := match sceneBounds s with None => _ | Some _ => s end).
  assert (H1 : orderly s s1).
  { unfold s1. destruct (sceneBounds s) eqn:Hb; [apply orderly_refl |].
    destruct (_ <? _)%nat; [| apply orderly_refl].
    unfold calculateSceneBounds. destruct points; [apply orderly_refl |].
    unfold orderly; simp_state. rewrite Hb.
    split; [discriminate |]. split; [reflexivity | apply sent_nothing]. }
  apply (orderly_trans _ s1); [exact H1 |]. clearbody s1.
  set (s2 := set_map _ s1). apply (orderly_trans _ s2); [unfold s2; ord |].
  clearbody s2.
  destruct (_ || _); [| apply orderly_refl].
  destruct (isExploring s2); ord.
Qed.

Lemma orderly_record_failed_attempt s : orderly s (record_failed_attempt s).
Proof.
  unfold record_failed_attempt.
  destruct (currentGoal s) as [goal |]; [| apply orderly_refl]. cbv zeta.
  destruct (maxAttempts <=? _).
  - unfold orderly; simp_state. split; [auto |].
    split; [by apply prefix_app_r | apply sent_nothing].
  - ord.
Qed.

Lemma orderly_arrival_timeout_check now s : orderly s (arrival_timeout_check now s).
Proof.
  unfold arrival_timeout_check.
  destruct (_ && _); [| apply orderly_refl].
  destruct (_ <? _); [| apply orderly_refl].
  apply (orderly_trans _ (record_failed_attempt s));
    [apply orderly_record_failed_attempt | ord].
Qed.

Lemma orderly_home_check newPos s : orderly s (home_check newPos s).
Proof.
  unfold home_check.
  destruct (isReturningHome s); [| apply orderly_refl].
  destruct (startPos s); [| apply orderly_refl].
  destruct (hypot_lt _ _ _); [ord | apply orderly_refl].
Qed.

Lemma orderly_onOdometryReceived now position s :
  orderly s (onOdometryReceived now position s).
Proof.
  unfold onOdometryReceived. destruct position as [newPos |]; [| apply orderly_refl].
  cbv zeta. apply (orderly_trans _ (home_check newPos s));
    [apply orderly_home_check |].
  generalize (home_check newPos s). intros s1.
  destruct (isWaitingForArrival s1); [| ord].
  destruct (currentGoal s1) as [goal |]; [| ord].
  destruct (stuck_check now newPos s1) as [s2 b] eqn:Hst.
  apply stuck_check_cases in Hst as [[-> Hs2] | [-> ->]].
  - apply (orderly_trans _ s2); [destruct Hs2 as [-> | [t ->]]; ord |].
    unfold arrival_check. cbv zeta.
    destruct (hypot_le _ _ _ && _), (hypot_lt _ _ _); ord.
  - apply (orderly_trans _ (record_failed_attempt s1));
      [apply orderly_record_failed_attempt | ord].
Qed.

Section WithSqrt.
Variable sqrtQ : Q -> Q.

Lemma orderly_explorationStep now s : orderly s (explorationStep sqrtQ now s).
Proof.
  unfold explorationStep.
  destruct (_ || _); [apply orderly_refl |].
  destruct (_ && _); [apply orderly_refl |].
  set (s1 := if isPreparingNextGoal s then _ else s).
  apply (orderly_trans _ s1); [unfold s1; destruct (isPreparingNextGoal s); ord |].
  clearbody s1.
  destruct (Qltb _ _); [apply orderly_stopExploration |].
  destruct (currentPos s1) as [cur |]; [| apply orderly_refl].
  destruct (startPos s1) as [sp |]; [| apply orderly_refl].
  destruct (hypot_gt _ _ _); [apply orderly_stopExploration |].
  set (s2 := set_frontiers _ s1). apply (orderly_trans _ s2); [unfold s2; ord |].
  clearbody s2.
  destruct (frontiers s2) eqn:Hfs; [apply orderly_stopExploration |].
  rewrite <- Hfs.
  pose proof (selectBestFrontier_frame sqrtQ s2 (frontiers s2) cur) as Hfr.
  destruct (selectBestFrontier sqrtQ s2 (frontiers s2) cur) as [[g |] s3];
    cbn [snd] in Hfr.
  - apply (orderly_trans _ s3); [destruct Hfr as [-> | [d ->]]; ord |].
    match goal with
    | |- orderly _ (publishExplorationStatus (publishExplorationMission _ _ ?s4)) =>
        apply (orderly_trans _ s4); [ord |];
        apply (orderly_trans _ (publishExplorationMission now g s4));
          [apply orderly_publishExplorationMission | ord]
    end.
  - apply (orderly_trans _ s3); [destruct Hfr as [-> | [d ->]]; ord |].
    apply orderly_stopExploration.
Qed.

Lemma orderly_onPointCloudReceived now points s :
  orderly s (onPointCloudReceived sqrtQ now points s).
Proof.
  unfold onPointCloudReceived.
  destruct (currentPos s) as [cur |]; [| apply orderly_refl].
  destruct points as [| p points]; [apply orderly_refl |].
  apply (orderly_trans _ (cloud_update now (p :: points) cur s));
    [apply orderly_cloud_update |].
  generalize (cloud_update now (p :: points) cur s). intros s1.
  apply (orderly_trans _ (arrival_timeout_check now s1));
    [apply orderly_arrival_timeout_check |].
  generalize (arrival_timeout_check now s1). intros s2.
  unfold plan_if_due.
  destruct (_ && _); [| apply orderly_refl].
  destruct (_ <? _); [| apply orderly_refl].
  apply (orderly_trans _ (explorationStep sqrtQ now s2));
    [apply orderly_explorationStep | ord].
Qed.

Lemma orderly_step s e : orderly s (step sqrtQ s e).
Proof.
  destruct e; cbn [step].
  - apply orderly_onPointCloudReceived.
  - apply orderly_onOdometryReceived.
  - unfold startExploration_begin.
    destruct (isExploring s); [apply orderly_refl |]. cbv zeta.
    set (s1 := match o_startPosition options with Some p => _ | None => s end).
    apply (orderly_trans _ s1);
      [unfold s1; destruct (o_startPosition options); ord |].
    clearbody s1.
    destruct (currentPos s1); [ord | apply orderly_refl].
  - unfold startExploration_resume.
    destruct (pendingStarts s); [apply orderly_refl |]. cbv zeta.
    destruct (_ <? 0); [ord |].
    set (s1 := set_map _ _). apply (orderly_trans _ s1); [unfold s1; ord |].
    clearbody s1.
    destruct (startPos s1); [ord | apply orderly_refl].
  - apply orderly_explorationStep.
  - unfold pauseExploration. destruct (negb _); [apply orderly_refl | ord].
  - unfold resumeExploration. destruct (negb _); [apply orderly_refl |].
    match goal with
    | |- orderly _ (explorationStep _ _ ?s1) =>
        apply (orderly_trans _ s1); [ord | apply orderly_explorationStep]
    end.
  - apply orderly_stopExploration.
  - unfold reset. cbv zeta.
    apply (orderly_trans _ (stopExploration "manual" now s));
      [apply orderly_stopExploration | ord].
  - unfold setROI. destruct (_ <? _)%nat; [apply orderly_refl | ord].
  - unfold clearROI. ord.
  - unfold setScoringWeights. destruct (setScoringWeights_loop _ _ _). ord.
  - ord.
Qed.

Lemma orderly_run events : forall s, orderly s (run sqrtQ s events).
Proof.
  unfold run. induction events as [| e events IH]; intros s; [apply orderly_refl |].
  cbn [foldl]. eapply orderly_trans; [apply orderly_step | apply IH].
Qed.

(** X21. The scene bounds are computed once: the first cloud of more than
    100 points received with a known position sets them to what
    [calculateSceneBounds] computes for it, and from then on no event
    changes them, not even [reset] or a new [startExploration]. *)
Theorem sceneBounds_computed_once
    (s : State) (events : list Event) (now : Z) (points : list Pos) :
  (forall b, sceneBounds s = Some b ->
             sceneBounds (run sqrtQ s events) = Some b) /\
  (sceneBounds s = None -> is_Some (currentPos s) ->
   (100 < length points)%nat ->
   sceneBounds (step sqrtQ s (PointCloud now points))
   = sceneBounds (calculateSceneBounds points s) /\
   is_Some (sceneBounds (step sqrtQ s (PointCloud now points)))).
Proof.
  split; [apply orderly_run |].
  intros Hnone [cur Hcur] Hlen.
  assert (Hcalc : is_Some (sceneBounds (calculateSceneBounds points s))).
  { unfold calculateSceneBounds. destruct points; [cbn in Hlen; lia |].
    simp_state. by eexists. }
  enough (Heq : sceneBounds (step sqrtQ s (PointCloud now points))
                = sceneBounds (calculateSceneBounds points s))
    by (split; [exact Heq | by rewrite Heq]).
  destruct Hcalc as [b Hb]. rewrite Hb.
  cbn [step]. unfold onPointCloudReceived. rewrite Hcur.
  destruct points as [| p points]; [cbn in Hlen; lia |].
  assert (H1 : sceneBounds (cloud_update now (p :: points) cur s) = Some b).
  { unfold cloud_update. cbv zeta. rewrite Hnone.
    destruct (Nat.ltb_spec 100 (length (p :: points))) as [_ |]; [| lia].
    destruct (_ || _); [destruct (isExploring _) |];
      unfold publishExplorationStatus; simp_state; exact Hb. }
  generalize dependent (cloud_update now (p :: points) cur s). intros s1 H1.
  apply (orderly_arrival_timeout_check now s1) in H1.
  generalize dependent (arrival_timeout_check now s1). intros s2 H2.
  unfold plan_if_due.
  destruct (_ && _); [| done]. destruct (_ <? _); [| done].
  simp_state. by apply (orderly_explorationStep now s2).
Qed.

(** X22. No event removes a record from the blacklist: along every run
    [unreachableGoals] only grows at its end. *)
Theorem unreachableGoals_only_grow (s : State) (events : list Event) :
  unreachableGoals s `prefix_of` unreachableGoals (run sqrtQ s events).
Proof. apply orderly_run. Qed.

(** X23. In every state the engine can reach, each mission in the outbox
    is followed at once by the order to start that very mission (armed for
    500 ms later, action 0), has at least one task, and flies every task
    with yaw 0 and the camera off. *)
Theorem missions_are_started (s : State) :
  reachable sqrtQ s -> missions_started (outbox s).
Proof.
  induction 1 as [| s e _ IH]; [exact I |].
  eapply sent_since_started; [apply orderly_step | exact IH].
Qed.

(** X24. In every state the engine can reach: it waits for an arrival only
    while exploring, and then has a current goal at least 2 m from every
    blacklisted place; it is paused only while exploring; while exploring,
    or with a start suspended, the start position is known, and with it the
    current position; and every attempt counter is between 1 and
    [maxAttempts]. *)
Theorem reachable_state_consistent (s : State) :
  reachable sqrtQ s ->
  (isWaitingForArrival s = true ->
   isExploring s = true /\
   exists g, currentGoal s = Some g /\
     forall u, u ∈ unreachableGoals s ->
       (2 * 2 <= hypot_sq (gx g - p2x u) (gy g - p2y u))%Q) /\
  (isPaused s = true -> isExploring s = true) /\
  (isExploring s = true \/ (0 < pendingStarts s)%nat ->
   is_Some (startPos s) /\ is_Some (currentPos s)) /\
  (forall k n, goalAttempts s !! k = Some n -> 1 <= n <= maxAttempts).
Proof.
  intros Hreach.
  destruct (reachable_Inv sqrtQ s Hreach) as (I1 & I2 & I3 & I4 & I5 & I6 & I7).
  split; [| split; [done |]; split].
  - intros Hw. split; [by apply I1 |].
    destruct (I6 Hw) as (g & Hg & Hfar). exists g. split; [done |].
    intros u Hu. apply (hypot_lt_false _ _ 2); [reflexivity | by apply Hfar].
  - intros [Hex | Hpend].
    + split; [by apply I3 | by apply I5, I3].
    + split; [by apply I4 | by apply I5, I4].
  - intros k n Hk. by destruct (I7 k n Hk).
Qed.

End WithSqrt.

Lemma sceneBounds_computed_once_witness :
  sceneBounds
    (run sqrt_approx (calculateSceneBounds [mkPos 0 0 0; mkPos 4 5 3] init)
         [Reset 10; ClearROI])
  = Some (mkSceneBounds ((0 + (15 # 10))%Q) ((4 - (15 # 10))%Q)
                        ((0 + (15 # 10))%Q) ((5 - (15 # 10))%Q)
                        (Qmax (5 # 10) (0 + (3 # 10)))
                        (Qmin (25 # 10) (3 - (5 # 10)))).
Proof.
  apply (proj1 (sceneBounds_computed_once sqrt_approx
                  (calculateSceneBounds [mkPos 0 0 0; mkPos 4 5 3] init)
                  [Reset 10; ClearROI] 0 [])).
  reflexivity.
Defined.

Lemma missions_are_started_witness : missions_started (outbox waiting_state).
Proof.
  apply (missions_are_started sqrt_approx), waiting_state_reachable.
Defined.

Lemma reachable_state_consistent_witness :
  isExploring waiting_state = true /\
  exists g, currentGoal waiting_state = Some g /\
    forall u, u ∈ unreachableGoals waiting_state ->
      (2 * 2 <= hypot_sq (gx g - p2x u) (gy g - p2y u))%Q.
Proof.
  apply (proj1 (reachable_state_consistent sqrt_approx waiting_state
                  waiting_state_reachable)).
  reflexivity.
Defined.

(** *** Keys of the attempt counters *)

(** X25. Two goals whose attempts are counted under the same key of
    [goalAttempts] are less than 0.1 m apart in x and in y. *)
Theorem goalKey_same_place (x y x' y' : Q) :
  goalKey x y = goalKey x' y' ->
  (Qabs (x - x') < 1 # 10)%Q /\ (Qabs (y - y') < 1 # 10)%Q.
Proof.
  unfold goalKey. intros H.
  assert (Hx := f_equal fst H). assert (Hy := f_equal snd H).
  cbn [fst snd] in Hx, Hy. apply toFixed1_close in Hx, Hy.
  split; apply Qabs_Qlt_condition; lra.
Qed.

Lemma goalKey_same_place_witness :
  (Qabs ((12 # 10) - (124 # 100)) < 1 # 10)%Q /\ (Qabs (3 - (296 # 100)) < 1 # 10)%Q.
Proof.
  apply (goalKey_same_place (12 # 10) 3 (124 # 100) (296 # 100)).
  reflexivity.
Defined.

End OrderFacts.

(** ** The control surface and the reports *)

Module ControlFacts.
Import Engine Scenarios GridFacts EngineFacts PathFacts MissionFacts StateFacts
       BookkeepingFacts LifecycleFacts OrderFacts.

(** *** Stopping and flying home *)

(** X26. [stopExploration] while exploring with both positions known:
    more than 1 m (in xy) from the start it announces nothing, publishes and
    starts a mission of one task at the start position, and sets
    [isReturningHome]; the first pose then received within 0.5 m of the
    start clears the flag and announces the return.  At 1 m or less it
    announces the stop and publishes no mission. *)
Theorem stopExploration_return_home
    (s : State) (reason : string) (now : Z) (sp cur : Pos) :
  isExploring s = true -> startPos s = Some sp -> currentPos s = Some cur ->
  let s' := stopExploration reason now s in
  let id := ("return_home_" ++ string_of_Z now)%string in
  isExploring s' = false /\ isPaused s' = false /\
  isWaitingForArrival s' = false /\
  (hypot_gt (px cur - px sp) (py cur - py sp) 1 = true ->
   isReturningHome s' = true /\ returnHomeMissionId s' = Some id /\
   outbox s' =
     PublishExecution_after500 id 0
     :: PublishMission
          (mkMission id [mkTask (mkWaypoint (px sp) (py sp) (Some (pz sp)))
                                0 false 0 0])
     :: outbox s /\
   forall now' newPos,
     hypot_lt (px newPos - px sp) (py newPos - py sp) (1 # 2) = true ->
     let s'' := onOdometryReceived now' (Some newPos) s' in
     isReturningHome s'' = false /\ returnHomeMissionId s'' = None /\
     currentPos s'' = Some newPos /\
     outbox s'' = Emit_returned newPos sp :: outbox s') /\
  (hypot_gt (px cur - px sp) (py cur - py sp) 1 = false ->
   isReturningHome s' = isReturningHome s /\
   outbox s' = Emit_stopped reason :: outbox s).
Proof.
  intros Hex Hsp Hcur. cbv zeta. unfold stopExploration.
  rewrite Hex. cbn [negb]. cbv zeta. simp_state. rewrite Hsp, Hcur.
  destruct (hypot_gt _ _ 1) eqn:Hfar.
  - unfold returnToHome. simp_state. rewrite Hsp, Hcur. simp_state.
    do 3 (split; [reflexivity |]).
    split; [| discriminate]. intros _.
    do 3 (split; [reflexivity |]).
    intros now' newPos Hnear. cbv zeta.
    unfold onOdometryReceived, home_check. simp_state. rewrite Hsp, Hnear.
    simp_state. by repeat split.
  - simp_state. do 3 (split; [reflexivity |]).
    split; [discriminate |]. intros _. by split.
Qed.

Lemma stopExploration_return_home_witness :
  isExploring (stopExploration "manual" 9000 waiting_state) = false /\
  isWaitingForArrival (stopExploration "manual" 9000 waiting_state) = false.
Proof.
  destruct (stopExploration_return_home waiting_state "manual" 9000 home home)
    as (H1 & _ & H2 & _); [reflexivity | reflexivity | reflexivity |].
  exact (conj H1 H2).
Defined.

(** *** Pausing *)

Section WithSqrt.
Variable sqrtQ : Q -> Q.

(** X27. While the engine is paused, a point cloud, a pose, the planning
    timer and a status request leave it paused, publish no mission, and
    never set a new goal: the current goal stays or is dropped. *)
Theorem paused_engine_plans_nothing (s : State) (e : Event) :
  isPaused s = true ->
  (match e with
   | PointCloud _ _ | Odometry _ _ | ExplorationStep_timer _
   | PublishExplorationStatus => True
   | _ => False
   end) ->
  let s' := step sqrtQ s e in
  isPaused s' = true /\
  (forall m, PublishMission m ∈ outbox s' -> PublishMission m ∈ outbox s) /\
  (currentGoal s' = currentGoal s \/ currentGoal s' = None).
Proof.
  intros Hp He. cbv zeta.
  destruct e as [now points | now pos | | | now | | | | | | | |]; try done;
    cbn [step].
  - (* a point cloud *)
    unfold onPointCloudReceived.
    destruct (currentPos s) as [cur |]; [| by auto].
    destruct points as [| p points]; [by auto |].
    assert (H1 : isPaused (cloud_update now (p :: points) cur s) = true /\
                 (forall m, PublishMission m ∈ outbox (cloud_update now (p :: points) cur s) ->
                            PublishMission m ∈ outbox s) /\
                 currentGoal (cloud_update now (p :: points) cur s) = currentGoal s).
    { unfold cloud_update, calculateSceneBounds, publishExplorationStatus.
      cbv zeta. repeat case_match; simp_state; (split; [done |]); (split; [| done]);
        intros m Hm; try done;
        apply elem_of_cons in Hm as [Hm | Hm]; done. }
    generalize dependent (cloud_update now (p :: points) cur s).
    intros s1 (Hp1 & Hout1 & Hg1).
    assert (H2 : isPaused (arrival_timeout_check now s1) = true /\
                 outbox (arrival_timeout_check now s1) = outbox s1 /\
                 (currentGoal (arrival_timeout_check now s1) = currentGoal s1 \/
                  currentGoal (arrival_timeout_check now s1) = None)).
    { unfold arrival_timeout_check. repeat case_match; try by auto.
      rewrite record_failed_attempt_frame. simp_state. auto. }
    generalize dependent (arrival_timeout_check now s1).
    intros s2 (Hp2 & Hout2 & Hg2).
    unfold plan_if_due.
    replace (isExploring s2 && negb (isPaused s2) && negb (isWaitingForArrival s2))
      with false by (rewrite Hp2; cbn [negb]; by rewrite andb_false_r).
    split; [done |]. split; [rewrite Hout2; exact Hout1 |].
    rewrite <- Hg1. exact Hg2.
  - (* a pose *)
    unfold onOdometryReceived. destruct pos as [newPos |]; [| by auto].
    cbv zeta.
    assert (H1 : isPaused (home_check newPos s) = true /\
                 (forall m, PublishMission m ∈ outbox (home_check newPos s) ->
                            PublishMission m ∈ outbox s) /\
                 currentGoal (home_check newPos s) = currentGoal s).
    { unfold home_check. repeat case_match; simp_state;
        (split; [done |]); (split; [| done]);
        intros m Hm; try done;
        apply elem_of_cons in Hm as [Hm | Hm]; done. }
    generalize dependent (home_check newPos s). intros s1 (Hp1 & Hout1 & Hg1).
    rewrite <- Hg1.
    destruct (isWaitingForArrival s1); [| simp_state; by auto].
    destruct (currentGoal s1) as [goal |] eqn:Hgoal; [| simp_state; by auto].
    destruct (stuck_check now newPos s1) as [s2 b] eqn:Hst.
    apply stuck_check_cases in Hst as [[-> Hs2] | [-> ->]].
    + assert (H2 : isPaused s2 = true /\ outbox s2 = outbox s1 /\
                   currentGoal s2 = Some goal).
      { destruct Hs2 as [-> | [t ->]]; simp_state; auto. }
      destruct H2 as (Hp2 & Hout2 & Hg2).
      unfold arrival_check. cbv zeta.
      destruct (hypot_le _ _ _ && _), (hypot_lt _ _ _); simp_state;
        rewrite ?Hout2; auto.
    + rewrite record_failed_attempt_frame. simp_state. auto.
  - (* the planning timer *)
    unfold explorationStep. rewrite Hp, orb_true_r. auto.
  - (* a status request *)
    unfold publishExplorationStatus. simp_state.
    split; [done |]. split; [| by left].
    intros m Hm. apply elem_of_cons in Hm as [Hm | Hm]; done.
Qed.

End WithSqrt.

Lemma paused_engine_plans_nothing_witness :
  isPaused (step sqrt_approx (pauseExploration waiting_state)
                 (ExplorationStep_timer 9000)) = true.
Proof.
  apply (paused_engine_plans_nothing sqrt_approx (pauseExploration waiting_state)
           (ExplorationStep_timer 9000)); [reflexivity | exact I].
Defined.

(** *** Scoring weights that are accepted *)

Lemma loop_all_written weights keys : forall w,
  NoDup keys ->
  (forall key, key ∈ keys -> key ∈ validKeys) ->
  (forall key, key ∈ keys -> ~ present_invalid weights key) ->
  let r := setScoringWeights_loop keys weights w in
  r.1 = true /\
  (forall key, key ∈ keys ->
     read_weight key r.2 =
     match property weights key with
     | JsNumber q => q
     | _ => read_weight key w
     end) /\
  (forall key, key ∈ validKeys -> key ∉ keys ->
     read_weight key r.2 = read_weight key w).
Proof.
  induction keys as [| key keys IH]; intros w Hnd Hvalid Hok; cbv zeta.
  - cbn. split; [done |]. split; [| done]. intros key Hk. by apply elem_of_nil in Hk.
  - apply NoDup_cons in Hnd as [Hnotin Hnd].
    assert (Hkey : key ∈ validKeys) by (apply Hvalid, list_elem_of_here).
    assert (Hvalid' : forall k, k ∈ keys -> k ∈ validKeys)
      by (intros k Hk; by apply Hvalid, list_elem_of_further).
    assert (Hok' : forall k, k ∈ keys -> ~ present_invalid weights k)
      by (intros k Hk; by apply Hok, list_elem_of_further).
    specialize (Hok key (list_elem_of_here _ _)). unfold present_invalid in Hok.
    cbn [setScoringWeights_loop].
    destruct (property weights key) as [| q |] eqn:Hp.
    + destruct (IH w Hnd Hvalid' Hok') as (H1 & H2 & H3). cbv zeta in H1, H2, H3.
      split; [done |]. split.
      * intros k Hk. apply elem_of_cons in Hk as [-> | Hk].
        -- rewrite Hp. by apply H3.
        -- by apply H2.
      * intros k Hk Hnk. apply H3; [done |]. intros ?. apply Hnk.
        by apply list_elem_of_further.
    + assert (Hq : Qltb q 0 || Qltb 1 q = false).
      { apply invalid_number. destruct (Qltb q 0 || Qltb 1 q) eqn:Hq.
        - exfalso. apply Hok. split; [done |]. intros Hv.
          apply invalid_number in Hv. congruence.
        - by apply invalid_number. }
      rewrite Hq.
      destruct (IH (write_weight key q w) Hnd Hvalid' Hok') as (H1 & H2 & H3).
      cbv zeta in H1, H2, H3.
      split; [done |]. split.
      * intros k Hk. apply elem_of_cons in Hk as [-> | Hk].
        -- rewrite Hp. rewrite H3 by done. by apply read_write_same.
        -- rewrite H2 by done.
           destruct (property weights k); try done;
             apply read_write_other; try done; by (apply Hvalid' || congruence).
      * intros k Hk Hnk. rewrite H3.
        -- apply read_write_other; try done. intros ->. apply Hnk, list_elem_of_here.
        -- done.
        -- intros ?. apply Hnk. by apply list_elem_of_further.
    + exfalso. apply Hok. split; [done |]. by intros [].
Qed.

(** X28. When every key that [weights] carries among the five valid keys
    holds a number in [0, 1], [setScoringWeights] succeeds: each such key
    then holds the number given, each valid key that is absent keeps its
    weight, [getScoringWeights] returns these weights, and the rest of the
    configuration is unchanged. *)
Theorem setScoringWeights_success (weights : gmap string JsVal) (s : State) :
  (forall key, key ∈ validKeys -> ~ present_invalid weights key) ->
  let r := setScoringWeights weights s in
  r.1 = true /\
  (forall key, key ∈ validKeys ->
     read_weight key (getScoringWeights r.2) =
     match property weights key with
     | JsNumber q => q
     | _ => read_weight key (scoringWeights (config s))
     end) /\
  config r.2 = set_scoringWeights (scoringWeights (config r.2)) (config s).
Proof.
  intros Hok. cbv zeta. unfold setScoringWeights.
  destruct (loop_all_written weights validKeys (scoringWeights (config s))
              validKeys_NoDup (fun k H => H) Hok) as (H1 & H2 & _).
  cbv zeta in H1, H2.
  destruct (setScoringWeights_loop validKeys weights (scoringWeights (config s)))
    as [ok w]. cbn [fst snd] in *.
  split; [done |]. split; [| reflexivity].
  intros key Hkey. rewrite <- (H2 key Hkey).
  unfold getScoringWeights. simp_state. cbn [scoringWeights set_scoringWeights].
  by destruct w.
Qed.

Lemma setScoringWeights_success_witness :
  (setScoringWeights (<["history"%string := JsNumber (1 # 4)]> ∅) init).1 = true.
Proof.
  apply (setScoringWeights_success (<["history"%string := JsNumber (1 # 4)]> ∅) init).
  intros key Hkey [Hpresent Hbad].
  unfold property in *.
  destruct (decide (key = "history"%string)) as [-> | Hne].
  - rewrite lookup_insert_eq in Hbad. apply Hbad. cbn. split; discriminate.
  - rewrite lookup_insert_ne, lookup_empty in Hpresent by done. by apply Hpresent.
Defined.

(** *** The pose the engine keeps *)

(** X29. A pose message with no position changes nothing.  One with a
    position becomes the current position, unless the stuck detection gives
    the goal up in that same call: the handler then returns at once, the
    engine no longer waits, and the position it holds is the earlier
    one. *)
Theorem onOdometryReceived_position (s : State) (now : Z) (newPos : Pos) :
  onOdometryReceived now None s = s /\
  let s' := onOdometryReceived now (Some newPos) s in
  (currentPos s' = Some newPos \/
   (currentPos s' = currentPos s /\ isWaitingForArrival s = true /\
    (stuck_check now newPos (home_check newPos s)).2 = true /\
    waiting_cleared s')).
Proof.
  split; [reflexivity |]. cbv zeta. unfold onOdometryReceived. cbv zeta.
  destruct (home_check_fields newPos s) as (Hw & Hg & _).
  assert (Hcur : currentPos (home_check newPos s) = currentPos s).
  { unfold home_check. repeat case_match; by simp_state. }
  destruct (isWaitingForArrival (home_check newPos s)) eqn:Hw1;
    [| left; by simp_state].
  destruct (currentGoal (home_check newPos s)) as [goal |]; [| left; by simp_state].
  destruct (stuck_check now newPos (home_check newPos s)) as [s2 b] eqn:Hst.
  destruct b; [| left; by simp_state].
  right. cbn [snd].
  apply stuck_check_cases in Hst as [[Hb _] | [_ ->]]; [done |].
  rewrite record_failed_attempt_frame. unfold waiting_cleared. simp_state.
  rewrite Hcur. by repeat split; try congruence.
Qed.

(** *** The explored share *)



End ControlFacts.
